(** * CourseCore: the Canvas reconciliation and the reminder milestones

    A shallow embedding of [canvas_sync.py] (function [sync] and its helpers)
    and of [check_notifications.py] (function [run_checks] and the delivery
    it calls), with the properties the specification states about them;
    then of the requests of [canvas_sync.py] and of the handlers of
    [homework_tracker.py] that edit the same file.

    Conventions of the embedding.
    - JSON data is the type [value]; Python floats do not occur in it.
    - A Python [dict] with string keys (an assignment row, a Canvas object)
      is an association list in insertion order, [list (string * value)].
    - A Python [dict] or [set] keyed by JSON scalars is keyed by [key], the
      scalar up to Python's [==] and [hash] ([True] and [1] are one key).
    - Python exceptions are the type [exn]; a computation that may raise
      returns a [result].
    - What the program takes from outside (the clock, the Canvas server,
      the processes and requests that deliver a reminder) is a record of
      functions, [world] for [sync] and [calendar] for [run_checks].
    - Python strings are byte strings in UTF-8, whose order is the order of
      the code points Python compares.
    - The rows loaded from [assignments.json] are mutable objects shared
      between [by_canvas_id] and [new_canvas_rows]: they live in a heap
      (the list [existing], addressed by position) and the other
      containers hold references [Ref i] into it. *)

From Stdlib Require Import ZArith String Ascii List Bool Lia DecimalString.
From stdpp Require Import base list strings.
Import ListNotations.

Local Open Scope string_scope.
Local Open Scope Z_scope.
Local Open Scope list_scope.

(** ** JSON values and the Python operations on them *)

#[local] Set Warnings "-register-all".

Inductive value : Type :=
| VNone
| VBool (b : bool)
| VInt (z : Z)
| VStr (s : string)
| VList (l : list value)
| VDict (d : list (string * value)).

(** A Python dict with string keys, in insertion order. *)
Abbreviation sdict := (list (string * value)).

Fixpoint dict_get (k : string) (d : sdict) : option value :=
  match d with
  | [] => None
  | (k', v) :: d' => if String.eqb k' k then Some v else dict_get k d'
  end.

(** [k in d] *)
Definition dict_mem (k : string) (d : sdict) : bool :=
  match dict_get k d with Some _ => true | None => false end.

(** [d.get(k)], whose default is [None] *)
Definition get_or_none (k : string) (d : sdict) : value :=
  match dict_get k d with Some v => v | None => VNone end.

(** [d.get(k, dflt)] *)
Definition get_or (k : string) (dflt : value) (d : sdict) : value :=
  match dict_get k d with Some v => v | None => dflt end.

(** [d[k] = v]: an existing key keeps its position, a new key goes last. *)
Fixpoint dict_set (k : string) (v : value) (d : sdict) : sdict :=
  match d with
  | [] => [(k, v)]
  | (k', v') :: d' =>
      if String.eqb k' k then (k', v) :: d' else (k', v') :: dict_set k v d'
  end.

(** Python's [==] on JSON values: [bool] is a subtype of [int], lists compare
    element by element, dicts compare as mappings. *)
Fixpoint py_eq (a b : value) {struct a} : bool :=
  match a, b with
  | VNone, VNone => true
  | VBool x, VBool y => Bool.eqb x y
  | VBool x, VInt y => Z.eqb (Z.b2z x) y
  | VInt x, VBool y => Z.eqb x (Z.b2z y)
  | VInt x, VInt y => Z.eqb x y
  | VStr x, VStr y => String.eqb x y
  | VList l, VList m =>
      (fix all2 (l : list value) (m : list value) {struct l} : bool :=
         match l, m with
         | [], [] => true
         | x :: l', y :: m' => py_eq x y && all2 l' m'
         | _, _ => false
         end) l m
  | VDict d, VDict e =>
      Nat.eqb (length d) (length e) &&
      (fix sub (d : sdict) {struct d} : bool :=
         match d with
         | [] => true
         | (k, v) :: d' =>
             match dict_get k e with
             | Some w => py_eq v w
             | None => false
             end && sub d'
         end) d
  | _, _ => false
  end.

(** Python truthiness ([if v], [not v], [v or w]). *)
Definition truthy (v : value) : bool :=
  match v with
  | VNone => false
  | VBool b => b
  | VInt z => negb (Z.eqb z 0)
  | VStr s => negb (String.eqb s "")
  | VList l => match l with [] => false | _ => true end
  | VDict d => match d with [] => false | _ => true end
  end.

(** [a or b] *)
Definition py_or (a b : value) : value := if truthy a then a else b.

(** [x in l] for a list [l] *)
Definition list_contains (x : value) (l : list value) : bool :=
  existsb (fun y => py_eq y x) l.

(** ** Hashable keys *)

Inductive key : Type :=
| KNone
| KInt (z : Z)
| KStr (s : string).

(** The key a value is as a dict key or set element; lists and dicts are
    unhashable. *)
Definition hash_key (v : value) : option key :=
  match v with
  | VNone => Some KNone
  | VBool b => Some (KInt (Z.b2z b))
  | VInt z => Some (KInt z)
  | VStr s => Some (KStr s)
  | VList _ | VDict _ => None
  end.

Definition key_eqb (a b : key) : bool :=
  match a, b with
  | KNone, KNone => true
  | KInt x, KInt y => Z.eqb x y
  | KStr x, KStr y => String.eqb x y
  | _, _ => false
  end.

(** A set of keys: only membership is ever asked of the sets of [sync]. *)
Abbreviation kset := (list key).

Definition kset_mem (k : key) (s : kset) : bool := existsb (key_eqb k) s.

(** A dict keyed by [key], in insertion order. *)
Abbreviation kdict A := (list (key * A)).

Fixpoint kdict_get {A : Type} (k : key) (d : kdict A) : option A :=
  match d with
  | [] => None
  | (k', x) :: d' => if key_eqb k' k then Some x else kdict_get k d'
  end.

Fixpoint kdict_set {A : Type} (k : key) (x : A) (d : kdict A) : kdict A :=
  match d with
  | [] => [(k, x)]
  | (k', y) :: d' =>
      if key_eqb k' k then (k', x) :: d' else (k', y) :: kdict_set k x d'
  end.

(** ** Exceptions *)

Inductive exn : Type :=
| RuntimeError (msg : string)
| KeyError
| TypeError
| AttributeError
| ValueError
| OSError.

Inductive result (A : Type) : Type :=
| Ok (a : A)
| Raise (e : exn).
Arguments Ok {A} a.
Arguments Raise {A} e.

(** Sequencing: an exception ends the computation. *)
#[global] Instance result_ret : MRet result := fun A a => Ok a.
#[global] Instance result_bind : MBind result := fun A B f m =>
  match m with
  | Ok a => f a
  | Raise e => Raise e
  end.

(** ** The rows of [assignments.json] and the merge of [sync] *)

Abbreviation row := (list (string * value)).

(** An entry of [canvas_upcoming]: the dict literal built at lines 181-186. *)
Record upcoming : Type := {
  u_canvas_id : value;
  u_title : value;
  u_course : value;
  u_due_date : string
}.

(** An element of [new_canvas_rows]: a row of [existing], by reference, or a
    row created by this pass. *)
Inductive slot : Type :=
| Ref (i : nat)
| New (r : row).

(** The summary dict returned by [sync]. *)
Record summary : Type := {
  s_ok : bool;
  s_added : nat;
  s_updated : nat;
  s_removed : nat;
  s_auto_completed : nat;
  s_total_canvas : nat;
  s_courses : nat
}.

(** The local variables of the merge (section 3 of [sync]). *)
Record merge_state : Type := {
  heap : list row;
  new_canvas_rows : list slot;
  processed_ids : kset;
  added : nat;
  updated : nat;
  removed : nat;
  auto_completed : nat;
  uuids : nat
}.

(** Lines 223-227: [manual] and [by_canvas_id], as references into
    [existing]; [i] is the position of the first row of [rows]. *)
Fixpoint split_rows (i : nat) (rows : list row)
    (manual : list nat) (by_canvas_id : kdict nat)
    : result (list nat * kdict nat) :=
  match rows with
  | [] => Ok (manual, by_canvas_id)
  | r :: rows' =>
      match dict_get "canvas_id" r with
      | Some v =>
          match hash_key v with
          | Some k => split_rows (S i) rows' manual (kdict_set k i by_canvas_id)
          | None => Raise TypeError
          end
      | None => split_rows (S i) rows' (manual ++ [i]) by_canvas_id
      end
  end.

(** Line 229: the set comprehension raises on an unhashable id. *)
Fixpoint upcoming_canvas_ids (canvas_upcoming : list upcoming) : result kset :=
  match canvas_upcoming with
  | [] => Ok []
  | ca :: rest =>
      match hash_key (u_canvas_id ca) with
      | Some k => s ← upcoming_canvas_ids rest; Ok (k :: s)
      | None => Raise TypeError
      end
  end.

(** Lines 240-248: the refresh of an existing row. *)
Definition row_changed (r : row) (ca : upcoming) : bool :=
  negb (py_eq (get_or_none "title" r) (u_title ca)) ||
  negb (py_eq (get_or_none "course" r) (u_course ca)) ||
  negb (py_eq (get_or_none "due_date" r) (VStr (u_due_date ca))).

Definition refresh_row (r : row) (ca : upcoming) : row :=
  dict_set "source" (VStr "canvas")
    (dict_set "due_date" (VStr (u_due_date ca))
       (dict_set "course" (u_course ca)
          (dict_set "title" (u_title ca) r))).

(** Lines 254-263: the row created for an id not yet tracked. *)
Definition new_row (id : string) (ca : upcoming) : row :=
  [ ("id", VStr id);
    ("canvas_id", u_canvas_id ca);
    ("title", u_title ca);
    ("course", u_course ca);
    ("due_date", VStr (u_due_date ca));
    ("notifications_sent", VList []);
    ("source", VStr "canvas");
    ("completed", VBool false) ].

Definition bump (b : bool) (n : nat) : nat := if b then S n else n.

Section Merge.

(** [uuid4 n] is the string of the [n]-th identifier drawn from
    [uuid.uuid4()] during the pass. *)
Variable uuid4 : nat -> string.

(** One iteration of the loop at lines 235-264. *)
Definition upcoming_step (by_canvas_id : kdict nat)
    (st : merge_state) (ca : upcoming) : result merge_state :=
  match hash_key (u_canvas_id ca) with
  | None => Raise TypeError
  | Some cid =>
      let processed := cid :: processed_ids st in
      match kdict_get cid by_canvas_id with
      | Some i =>
          match heap st !! i with
          | Some r =>
              Ok {| heap := <[i := refresh_row r ca]> (heap st);
                    new_canvas_rows := new_canvas_rows st ++ [Ref i];
                    processed_ids := processed;
                    added := added st;
                    updated := bump (row_changed r ca) (updated st);
                    removed := removed st;
                    auto_completed := auto_completed st;
                    uuids := uuids st |}
          | None => Raise KeyError (* never: [i] is a position of [existing] *)
          end
      | None =>
          Ok {| heap := heap st;
                new_canvas_rows :=
                  new_canvas_rows st ++ [New (new_row (uuid4 (uuids st)) ca)];
                processed_ids := processed;
                added := S (added st);
                updated := updated st;
                removed := removed st;
                auto_completed := auto_completed st;
                uuids := S (uuids st) |}
      end
  end.

Fixpoint upcoming_loop (by_canvas_id : kdict nat)
    (st : merge_state) (canvas_upcoming : list upcoming) : result merge_state :=
  match canvas_upcoming with
  | [] => Ok st
  | ca :: rest =>
      st' ← upcoming_step by_canvas_id st ca;
      upcoming_loop by_canvas_id st' rest
  end.

(** One iteration of the loop at lines 267-282. *)
Definition tracked_step (submitted_canvas_ids : kset)
    (st : merge_state) (entry : key * nat) : result merge_state :=
  let '(cid, i) := entry in
  if kset_mem cid (processed_ids st) then Ok st
  else
    match heap st !! i with
    | None => Raise KeyError (* never: [i] is a position of [existing] *)
    | Some r =>
        if kset_mem cid submitted_canvas_ids then
          let fresh := negb (truthy (get_or_none "completed" r)) in
          Ok {| heap := if fresh
                        then <[i := dict_set "completed" (VBool true) r]> (heap st)
                        else heap st;
                new_canvas_rows := new_canvas_rows st ++ [Ref i];
                processed_ids := processed_ids st;
                added := added st;
                updated := updated st;
                removed := removed st;
                auto_completed := bump fresh (auto_completed st);
                uuids := uuids st |}
        else if truthy (get_or_none "completed" r) then
          Ok {| heap := heap st;
                new_canvas_rows := new_canvas_rows st ++ [Ref i];
                processed_ids := processed_ids st;
                added := added st;
                updated := updated st;
                removed := removed st;
                auto_completed := auto_completed st;
                uuids := uuids st |}
        else
          Ok {| heap := heap st;
                new_canvas_rows := new_canvas_rows st;
                processed_ids := processed_ids st;
                added := added st;
                updated := updated st;
                removed := S (removed st);
                auto_completed := auto_completed st;
                uuids := uuids st |}
    end.

Fixpoint tracked_loop (submitted_canvas_ids : kset)
    (st : merge_state) (entries : kdict nat) : result merge_state :=
  match entries with
  | [] => Ok st
  | e :: rest =>
      st' ← tracked_step submitted_canvas_ids st e;
      tracked_loop submitted_canvas_ids st' rest
  end.

(** The value of a slot when the list is written out. *)
Definition deref (h : list row) (s : slot) : row :=
  match s with
  | Ref i => match h !! i with Some r => r | None => [] end
  | New r => r
  end.

(** The outcome of the merge: the references kept, the final heap and
    the counters. *)
Record merged : Type := {
  m_manual : list nat;
  m_by_canvas_id : kdict nat;
  m_state : merge_state
}.

(** Lines 217-282, from [existing] on. *)
Definition merge (canvas_upcoming : list upcoming)
    (submitted_canvas_ids : kset) (existing : list row) : result merged :=
  '(manual, by_canvas_id) ← split_rows 0 existing [] [];
  _ ← upcoming_canvas_ids canvas_upcoming;
  let st0 := {| heap := existing; new_canvas_rows := [];
                processed_ids := []; added := 0; updated := 0;
                removed := 0; auto_completed := 0; uuids := 0 |} in
  st1 ← upcoming_loop by_canvas_id st0 canvas_upcoming;
  st2 ← tracked_loop submitted_canvas_ids st1 by_canvas_id;
  Ok {| m_manual := manual; m_by_canvas_id := by_canvas_id; m_state := st2 |}.

(** Line 285: the argument of [_save_assignments]. *)
Definition saved_rows (m : merged) : list row :=
  map (deref (heap (m_state m)))
      (map Ref (m_manual m) ++ new_canvas_rows (m_state m)).

(** Lines 287-295, given [len(course_map)]. *)
Definition merge_summary (courses : nat) (m : merged) : summary :=
  {| s_ok := true;
     s_added := added (m_state m);
     s_updated := updated (m_state m);
     s_removed := removed (m_state m);
     s_auto_completed := auto_completed (m_state m);
     s_total_canvas := length (new_canvas_rows (m_state m));
     s_courses := courses |}.

End Merge.

(** ** The whole of [sync] *)

(** [str(v)] for a JSON scalar, as an f-string formats it. No list or dict
    is formatted by [sync] with an effect: where an id is one, the use of
    the id as a key raises [TypeError] before the text is used. *)
Definition str_of_scalar (v : value) : string :=
  match v with
  | VNone => "None"
  | VBool true => "True"
  | VBool false => "False"
  | VInt z => NilZero.string_of_int (Z.to_int z)
  | VStr s => s
  | VList _ | VDict _ => ""
  end.

(** The content of [assignments.json]. *)
Inductive file_state : Type :=
| Missing
| Corrupt
| Doc (rows : list row).

(** Lines 102-109. *)
Definition load_assignments (f : file_state) : list row :=
  match f with
  | Missing | Corrupt => []
  | Doc rows => rows
  end.

(** Lines 112-114: the file is replaced by the new list. *)
Definition save_assignments (assignments : list row) (_ : file_state)
    : file_state :=
  Doc assignments.

(** What [sync] reads from outside: the configuration file, the Canvas
    server as seen through [_get_all], the clock and the time zone. *)
Record world : Type := {
  load_config : result (string * string);
  get_all : string -> string -> string -> result (list value);
  today_str : string;
  local_date : string -> option string
}.

Abbreviation course_map_t := (list (key * (value * value))).

(** [course_map[cid] = name]: a key already present keeps its first
    spelling and its position. *)
Fixpoint course_map_set (k : key) (cid name : value) (m : course_map_t)
    : course_map_t :=
  match m with
  | [] => [(k, (cid, name))]
  | (k', (cid', name')) :: m' =>
      if key_eqb k' k then (k', (cid', name)) :: m'
      else (k', (cid', name')) :: course_map_set k cid name m'
  end.

(** Lines 146-154. *)
Fixpoint course_map (raw_courses : list value) (m : course_map_t)
    : result course_map_t :=
  match raw_courses with
  | [] => Ok m
  | VDict c :: rest =>
      let cid := get_or_none "id" c in
      if truthy cid then
        let name :=
          py_or (get_or_none "name" c)
            (py_or (get_or_none "course_code" c)
               (VStr ("Course " ++ str_of_scalar cid))) in
        match hash_key cid with
        | Some k => course_map rest (course_map_set k cid name m)
        | None => Raise TypeError
        end
      else course_map rest m
  | _ :: rest => course_map rest m
  end.

(** The request of lines 137-144. *)
Definition courses_path : string :=
  "/api/v1/courses?enrollment_state=active&enrollment_type=student&state[]=available&per_page=50".

(** [try: ... _get_all(...) except RuntimeError: ...] with an empty list
    as the fallback; any other exception propagates. *)
Definition or_empty (r : result (list value)) : result (list value) :=
  match r with
  | Raise (RuntimeError _) => Ok []
  | _ => r
  end.

Section Sync.

Variable uuid4 : nat -> string.
Variable w : world.

(** Lines 84-97. *)
Definition parse_due_date (due_at : value) : result (option string) :=
  if truthy due_at then
    match due_at with
    | VStr s => Ok (local_date w s)
    | _ => Raise AttributeError
    end
  else Ok None.

(** Lines 173-186, for the assignments of one course. *)
Fixpoint upcoming_of (cname : value) (raw : list value)
    : result (list upcoming) :=
  match raw with
  | [] => Ok []
  | VDict a :: rest =>
      due ← parse_due_date (get_or_none "due_at" a);
      match due with
      | None => upcoming_of cname rest
      | Some due_date =>
          if String.eqb due_date "" then upcoming_of cname rest
          else if String.ltb due_date (today_str w) then upcoming_of cname rest
          else
            match dict_get "id" a with
            | None => Raise KeyError
            | Some id =>
                more ← upcoming_of cname rest;
                Ok ({| u_canvas_id := id;
                       u_title := get_or "name" (VStr "Unnamed Assignment") a;
                       u_course := cname;
                       u_due_date := due_date |} :: more)
            end
      end
  | _ :: rest => upcoming_of cname rest
  end.

(** Lines 196-198 and 210-212. *)
Fixpoint add_done (raw : list value) (ids : kset) : result kset :=
  match raw with
  | [] => Ok ids
  | VDict a :: rest =>
      let id := get_or_none "id" a in
      if truthy id then
        match hash_key id with
        | Some k => add_done rest (k :: ids)
        | None => Raise TypeError
        end
      else add_done rest ids
  | _ :: rest => add_done rest ids
  end.

Definition assignments_path (cid : value) (query : string) : string :=
  "/api/v1/courses/" ++ str_of_scalar cid ++ "/assignments" ++ query.

(** Lines 160-214: the three buckets of every course. *)
Fixpoint fetch_courses (base_url token : string) (courses : course_map_t)
    (canvas_upcoming : list upcoming) (submitted_canvas_ids : kset)
    : result (list upcoming * kset) :=
  match courses with
  | [] => Ok (canvas_upcoming, submitted_canvas_ids)
  | (_, (cid, cname)) :: rest =>
      raw ← or_empty (get_all w base_url token
               (assignments_path cid "?bucket=upcoming&per_page=100&order_by=due_at"));
      ups ← upcoming_of cname raw;
      submitted_raw ← or_empty (get_all w base_url token
               (assignments_path cid "?bucket=submitted&per_page=100"));
      ids1 ← add_done submitted_raw submitted_canvas_ids;
      graded_raw ← or_empty (get_all w base_url token
               (assignments_path cid "?bucket=graded&per_page=100"));
      ids2 ← add_done graded_raw ids1;
      fetch_courses base_url token rest (canvas_upcoming ++ ups) ids2
  end.

(** Lines 133-214: everything [sync] fetches before it reads the file. *)
Definition fetch : result (course_map_t * list upcoming * kset) :=
  '(canvas_url, token) ← load_config w;
  raw_courses ← get_all w canvas_url token courses_path;
  courses ← course_map raw_courses [];
  '(canvas_upcoming, submitted_canvas_ids) ← fetch_courses canvas_url token courses [] [];
  Ok (courses, canvas_upcoming, submitted_canvas_ids).

(** Lines 133-295 without the write: the list handed to
    [_save_assignments] and the summary. *)
Definition sync_compute (store : file_state) : result (list row * summary) :=
  '(courses, canvas_upcoming, submitted_canvas_ids) ← fetch;
  m ← merge uuid4 canvas_upcoming submitted_canvas_ids (load_assignments store);
  Ok (saved_rows m, merge_summary (length courses) m).

(** [sync()]: its outcome and the content of [assignments.json] after it.
    The file is written once, by the last statement before [return]. *)
Definition sync (store : file_state) : result summary * file_state :=
  match sync_compute store with
  | Ok (rows, s) => (Ok s, save_assignments rows store)
  | Raise e => (Raise e, store)
  end.

End Sync.

(** ** The delivery of a reminder: [send_notification] *)

(** The double quote, as a string of one character. *)
Definition dq : string := String "034"%char EmptyString.

(** [s.replace(old, new)] for [old] of one character. *)
Fixpoint replace_char (old : ascii) (new : string) (s : string) : string :=
  match s with
  | EmptyString => EmptyString
  | String a s' =>
      if Ascii.eqb a old then new ++ replace_char old new s'
      else String a (replace_char old new s')
  end.

(** Lines 45-46 of check_notifications.py. *)
Definition escape (s : string) : string :=
  replace_char "034"%char ("\" ++ dq) (replace_char "\"%char "\\" s).

(** Lines 48-52: the script handed to [osascript -e]. *)
Definition mac_script (title message : string) : string :=
  "display notification " ++ dq ++ escape message ++ dq ++
  " with title " ++ dq ++ escape title ++ dq ++
  " sound name " ++ dq ++ "Default" ++ dq.

(** ** The reminder milestones: [run_checks] *)

(** A call of [send_notification], with the row it is for (by position in
    the [assignments] list) and the milestone of the branch that makes
    it. *)
Record fired : Type := {
  f_index : nat;
  f_tag : string;
  f_title : string;
  f_message : string
}.

(** [p in s] for two strings. *)
Fixpoint substring_in (p s : string) : bool :=
  String.prefix p s ||
  match s with
  | EmptyString => false
  | String _ s' => substring_in p s'
  end.

(** [tag not in sent]: membership as Python defines it for a list, a string
    and a dict; the other values are not containers. *)
Definition not_in (tag : string) (sent : value) : result bool :=
  match sent with
  | VList l => Ok (negb (list_contains (VStr tag) l))
  | VStr s => Ok (negb (substring_in tag s))
  | VDict d => Ok (negb (dict_mem tag d))
  | VNone | VBool _ | VInt _ => Raise TypeError
  end.

(** [sent.append(tag)]: only a list has [append]. *)
Definition append_tag (tag : string) (sent : value) : result value :=
  match sent with
  | VList l => Ok (VList (l ++ [VStr tag]))
  | _ => Raise AttributeError
  end.

(** The three milestones, as the tag written to [notifications_sent] and
    the value of [days_until] at which it is due. *)
Definition milestones : list (string * Z) :=
  [("3_days", 3); ("1_day", 1); ("morning", 0)].

(** What [run_checks] takes from outside. From the Python library:
    [date.today()] and [date.fromisoformat] as day numbers ([None] for a
    [ValueError]), [due.strftime('%A, %B %d')], and [str] as an f-string
    applies it. From the machine: the pair [load_bark_config()] returns
    (it catches every exception); what
    [subprocess.run(["osascript", "-e", script], capture_output=True)]
    comes to for a script, an exception being what the call raises; and
    whether [urllib.parse.quote(s, safe="")] returns for a text, which it
    does not for one that UTF-8 cannot encode. *)
Record calendar : Type := {
  today : Z;
  fromisoformat : string -> option Z;
  strftime : Z -> string;
  py_str : value -> string;
  load_bark_config : string * string;
  subprocess_run : string -> result unit;
  quote : string -> result unit
}.

Section Checks.

Variable cal : calendar.

(** Lines 112-116, 121-125 and 130-134: the text of each reminder. *)
Definition notification (i : nat) (tag : string) (due : Z)
    (title_name course : value) : fired :=
  if String.eqb tag "3_days" then
    {| f_index := i; f_tag := tag;
       f_title := "Due in 3 days — " ++ py_str cal course;
       f_message := py_str cal title_name ++ " is due " ++ strftime cal due |}
  else if String.eqb tag "1_day" then
    {| f_index := i; f_tag := tag;
       f_title := "Due TOMORROW — " ++ py_str cal course;
       f_message := py_str cal title_name ++ " is due tomorrow!" |}
  else
    {| f_index := i; f_tag := tag;
       f_title := "Due TODAY — " ++ py_str cal course;
       f_message := py_str cal title_name ++ " is due today. Good luck!" |}.

(** Lines 43-53: nothing is caught around [subprocess.run]. *)
Definition send_mac_notification (title message : string) : result unit :=
  subprocess_run cal (mac_script title message).

(** Lines 56-70: the two calls of [quote] stand before the [try]; whatever
    the request comes to is dropped. *)
Definition send_phone_notification (title message bark_key bark_server : string)
    : result unit :=
  _ ← quote cal title;
  _ ← quote cal message;
  Ok tt.

(** Lines 73-77. *)
Definition send_notification (title message bark_key bark_server : string)
    : result unit :=
  _ ← send_mac_notification title message;
  if String.eqb bark_key "" then Ok tt
  else send_phone_notification title message bark_key bark_server.

(** The call of [send_notification] a reminder is: line 84 has read the
    Bark settings once, before the loop. *)
Definition deliver (e : fired) : result unit :=
  send_notification (f_title e) (f_message e)
    (load_bark_config cal).1 (load_bark_config cal).2.

(** The body of a branch at lines 111-136: [send_notification] is called,
    then the tag is appended; line 138 stores the list back. The call is
    in the list of reminders whatever it comes to: when it raises, or
    when [append] raises, the exception ends the run there. *)
Definition fire (i : nat) (tag : string) (due : Z) (r : row) (sent : value)
    : list fired * result (row * bool) :=
  let e := notification i tag due (get_or "title" (VStr "Assignment") r)
             (get_or "course" (VStr "") r) in
  ([e],
   _ ← deliver e;
   sent' ← append_tag tag sent;
   Ok (dict_set "notifications_sent" sent' r, true)).

(** The guard of a branch: [days_until == d and tag not in sent]. *)
Definition due_now (days_until d : Z) (tag : string) (sent : value)
    : result bool :=
  if Z.eqb days_until d then not_in tag sent else Ok false.

(** Lines 97-138 for the row at position [i]: the calls made, and the
    row after the iteration with its contribution to [changed]. *)
Definition check_row (i : nat) (r : row) : list fired * result (row * bool) :=
  match dict_get "due_date" r with
  | None => ([], Ok (r, false))
  | Some (VStr s) =>
      match fromisoformat cal s with
      | None => ([], Ok (r, false))
      | Some due =>
          let days_until := due - today cal in
          let sent := get_or "notifications_sent" (VList []) r in
          if Z.ltb days_until 0 then ([], Ok (r, false))
          else
            match due_now days_until 3 "3_days" sent with
            | Raise e => ([], Raise e)
            | Ok true => fire i "3_days" due r sent
            | Ok false =>
                match due_now days_until 1 "1_day" sent with
                | Raise e => ([], Raise e)
                | Ok true => fire i "1_day" due r sent
                | Ok false =>
                    match due_now days_until 0 "morning" sent with
                    | Raise e => ([], Raise e)
                    | Ok true => fire i "morning" due r sent
                    | Ok false =>
                        ([], Ok (dict_set "notifications_sent" sent r, false))
                    end
                end
            end
      end
  | Some _ => ([], Raise TypeError)
  end.

(** The loop at lines 96-138 from position [i] on: every call of
    [send_notification] made, and the rows with the flag [changed] unless
    an exception ended the loop. *)
Fixpoint check_rows (i : nat) (rows : list row)
    : list fired * result (list row * bool) :=
  match rows with
  | [] => ([], Ok ([], false))
  | r :: rest =>
      match check_row i r with
      | (f, Raise e) => (f, Raise e)
      | (f, Ok (r', c)) =>
          match check_rows (S i) rest with
          | (fs, Raise e) => (f ++ fs, Raise e)
          | (fs, Ok (rest', c')) => (f ++ fs, Ok (r' :: rest', c || c'))
          end
      end
  end.

(** [run_checks()]: the calls of [send_notification] made, the outcome,
    and the content of [assignments.json] after it. [writable] tells whether the write at
    lines 141-145 succeeds; a failed write is skipped silently. *)
Definition run_checks (writable : bool) (store : file_state)
    : list fired * result unit * file_state :=
  match store with
  | Missing | Corrupt => ([], Ok tt, store)
  | Doc rows =>
      match check_rows 0 rows with
      | (f, Raise e) => (f, Raise e, store)
      | (f, Ok (rows', changed)) =>
          (f, Ok tt, if changed && writable then Doc rows' else store)
      end
  end.

(** [n] runs of [run_checks] in a row, each on the file the previous one
    left, whatever its outcome: the calls of [send_notification] of all
    the runs, in order, and the final file. *)
Fixpoint run_checks_n (n : nat) (store : file_state)
    : list fired * file_state :=
  match n with
  | O => ([], store)
  | S n' =>
      let '(f, _, store') := run_checks true store in
      let '(fs, store'') := run_checks_n n' store' in
      (f ++ fs, store'')
  end.

End Checks.

(** * Notions used to state the properties *)

Local Close Scope Z_scope.

#[global] Instance key_eq_dec : EqDecision key.
Proof. solve_decision. Defined.

(** The fields [sync] overwrites on a row it refreshes. *)
Definition remote_owned (k : string) : Prop :=
  k = "title" \/ k = "course" \/ k = "due_date" \/ k = "source".

(** The key under which [by_canvas_id] holds a row, if any. *)
Definition row_key (r : row) : option key :=
  match dict_get "canvas_id" r with
  | Some v => hash_key v
  | None => None
  end.

(** A manual row: one without the key [canvas_id]. *)
Definition is_manual (r : row) : bool := negb (dict_mem "canvas_id" r).

(** The positions of the manual rows of [rows], counted from [i]. *)
Fixpoint manual_from (i : nat) (rows : list row) : list nat :=
  match rows with
  | [] => []
  | r :: rest =>
      if is_manual r then i :: manual_from (S i) rest
      else manual_from (S i) rest
  end.

(** The position, counted from [i], of the last row of [rows] whose key
    is [k]. *)
Fixpoint last_idx (k : key) (i : nat) (rows : list row) : option nat :=
  match rows with
  | [] => None
  | r :: rest =>
      match last_idx k (S i) rest with
      | Some j => Some j
      | None => if decide (row_key r = Some k) then Some i else None
      end
  end.

(** [by_canvas_id] maps a key to the position of a row with that key. *)
Definition keys_ok (by_id : kdict nat) (h : list row) : Prop :=
  forall k i, (k, i) ∈ by_id -> exists r, h !! i = Some r /\ row_key r = Some k.

(** The entry [ca] refreshes the row at position [j]. *)
Definition touches (by_id : kdict nat) (ca : upcoming) (j : nat) : Prop :=
  exists cid, hash_key (u_canvas_id ca) = Some cid /\ kdict_get cid by_id = Some j.

(** The slot the first loop appends for the entry [ca]. *)
Definition slot_for (by_id : kdict nat) (ca : upcoming) (s : slot) : Prop :=
  exists cid, hash_key (u_canvas_id ca) = Some cid /\
    ((exists i, s = Ref i /\ kdict_get cid by_id = Some i) \/
     (exists id, s = New (new_row id ca) /\ kdict_get cid by_id = None)).

(** [row.get("completed")] is truthy for the row at position [i]. *)
Definition completed_at (h : list row) (i : nat) : bool :=
  match h !! i with
  | Some r => truthy (get_or_none "completed" r)
  | None => false
  end.

(** The three ways the second loop treats an entry of [by_canvas_id] it
    does not skip: marked complete now, kept, removed. *)
Definition auto_marked (processed subm : kset) (h : list row)
    (e : key * nat) : bool :=
  negb (kset_mem e.1 processed) && kset_mem e.1 subm && negb (completed_at h e.2).

Definition kept (processed subm : kset) (h : list row) (e : key * nat) : bool :=
  negb (kset_mem e.1 processed) && (kset_mem e.1 subm || completed_at h e.2).

Definition dropped (processed subm : kset) (h : list row)
    (e : key * nat) : bool :=
  negb (kset_mem e.1 processed) && negb (kset_mem e.1 subm) &&
  negb (completed_at h e.2).

(** The rows the second loop marks complete, by position. *)
Definition auto_marked_rows (processed subm : kset) (h : list row)
    (entries : kdict nat) : list nat :=
  (filter (fun e => auto_marked processed subm h e = true) entries).*2.

Definition mark_completed (r : row) : row := dict_set "completed" (VBool true) r.

(** The state of the merge before the first loop. *)
Definition merge_init (existing : list row) : merge_state :=
  {| heap := existing; new_canvas_rows := []; processed_ids := [];
     added := 0; updated := 0; removed := 0; auto_completed := 0; uuids := 0 |}.

(** Every [canvas_id] of a local row is hashable. *)
Definition hashable_rows (rows : list row) : Prop :=
  Forall (fun r => forall v, dict_get "canvas_id" r = Some v -> is_Some (hash_key v))
         rows.

(** Every upcoming entry has a hashable id. *)
Definition hashable_upcoming (ups : list upcoming) : Prop :=
  Forall (fun ca => is_Some (hash_key (u_canvas_id ca))) ups.

(** The keys of [course_map]: the ids of the fetched courses that are
    objects with a truthy, hashable id. *)
Definition course_keys (raw_courses : list value) : list key :=
  omap (fun c => match c with
                 | VDict d =>
                     let cid := get_or_none "id" d in
                     if truthy cid then hash_key cid else None
                 | _ => None
                 end) raw_courses.

(** The course count as the specification words it: the number of distinct
    [course] values among the upcoming entries. *)
Fixpoint distinct_values (l : list value) : list value :=
  match l with
  | [] => []
  | x :: l' =>
      if list_contains x l' then distinct_values l' else x :: distinct_values l'
  end.

Definition spec_course_count (ups : list upcoming) : nat :=
  length (distinct_values (u_course <$> ups)).

(** A row as the data model types it: a due date that is a string and a
    list of tags already sent, where present. *)
Definition well_typed (r : row) : Prop :=
  (forall v, dict_get "due_date" r = Some v -> exists s, v = VStr s) /\
  (forall v, dict_get "notifications_sent" r = Some v -> exists l, v = VList l).

(** [notifications_sent] of a row, empty when absent. *)
Definition sent_list (r : row) : list value :=
  match get_or "notifications_sent" (VList []) r with
  | VList l => l
  | _ => []
  end.

(** The tags of the milestones due at [days] and not in [sent]. *)
Definition due_tags (days : Z) (sent : list value) : list string :=
  (filter (fun m : string * Z => m.2 = days /\ list_contains (VStr m.1) sent = false)
          milestones).*1.

(** What identifies a reminder: the row and the milestone. *)
Definition fired_key (e : fired) : nat * string := (f_index e, f_tag e).

(** [days_until] of a row: none when the row is skipped as malformed. *)
Definition days_until (cal : calendar) (r : row) : option Z :=
  match dict_get "due_date" r with
  | Some (VStr s) =>
      match fromisoformat cal s with
      | Some due => Some (due - today cal)%Z
      | None => None
      end
  | _ => None
  end.

(** [sent] of a row (line 105): [notifications_sent], an empty list when
    absent. *)
Definition sent_of (r : row) : value := get_or "notifications_sent" (VList []) r.

(** The branch the chain of lines 111-136 takes for [days_until] and
    [sent]: the tag of the first milestone whose guard holds, none when no
    guard does; an exception when a membership test raises. *)
Definition due_tag (d : Z) (sent : value) : result (option string) :=
  match due_now d 3%Z "3_days" sent with
  | Raise e => Raise e
  | Ok true => Ok (Some "3_days")
  | Ok false =>
      match due_now d 1%Z "1_day" sent with
      | Raise e => Raise e
      | Ok true => Ok (Some "1_day")
      | Ok false =>
          match due_now d 0%Z "morning" sent with
          | Raise e => Raise e
          | Ok true => Ok (Some "morning")
          | Ok false => Ok None
          end
      end
  end.

(** The call of [send_notification] for the row [r] at position [i],
    [d] days before its due date, at the milestone [tag]. *)
Definition reminder (cal : calendar) (i : nat) (r : row) (d : Z)
    (tag : string) : fired :=
  notification cal i tag (d + today cal)%Z
    (get_or "title" (VStr "Assignment") r) (get_or "course" (VStr "") r).

(** * Concrete inputs *)

(** A generator of identifiers: the [n]-th draw is ["uuid-n"]. *)
Definition uuid_n (n : nat) : string :=
  "uuid-" ++ NilZero.string_of_uint (Nat.to_uint n).

(** The local date of a timestamp for a machine whose zone is UTC. *)
Definition utc_date (s : string) : option string :=
  if Nat.leb 10 (String.length s) then Some (substring 0 10 s) else None.

Definition digit_of (c : ascii) : option Z :=
  let n := Z.of_N (N_of_ascii c) in
  if ((48 <=? n) && (n <=? 57))%Z then Some (n - 48)%Z else None.

Definition number2 (a b : ascii) : option Z :=
  match digit_of a, digit_of b with
  | Some x, Some y => Some (10 * x + y)%Z
  | _, _ => None
  end.

Definition is_leap (y : Z) : bool :=
  (((y mod 4 =? 0) && negb (y mod 100 =? 0)) || (y mod 400 =? 0))%Z.

Definition days_in_month (y m : Z) : Z :=
  if (m =? 2)%Z then (if is_leap y then 29%Z else 28%Z)
  else if ((m =? 4) || (m =? 6) || (m =? 9) || (m =? 11))%Z then 30%Z
  else 31%Z.

Definition days_before_month (y m : Z) : Z :=
  fold_left (fun acc k => if (k <? m)%Z then (acc + days_in_month y k)%Z else acc)
            [1; 2; 3; 4; 5; 6; 7; 8; 9; 10; 11; 12]%Z 0%Z.

(** [date(y, m, d).toordinal()] *)
Definition ymd_ordinal (y m d : Z) : Z :=
  let p := (y - 1)%Z in
  (365 * p + p / 4 - p / 100 + p / 400 + days_before_month y m + d)%Z.

(** [date.fromisoformat] on the format [YYYY-MM-DD], as a day number. *)
Definition iso_ordinal (s : string) : option Z :=
  match list_ascii_of_string s with
  | [y1; y2; y3; y4; h1; m1; m2; h2; d1; d2] =>
      if Ascii.eqb h1 "-" && Ascii.eqb h2 "-" then
        match number2 y1 y2, number2 y3 y4, number2 m1 m2, number2 d1 d2 with
        | Some a, Some b, Some m, Some d =>
            let y := (100 * a + b)%Z in
            if ((1 <=? y) && (1 <=? m) && (m <=? 12) && (1 <=? d) &&
                (d <=? days_in_month y m))%Z
            then Some (ymd_ordinal y m d)
            else None
        | _, _, _, _ => None
        end
      else None
  | _ => None
  end.

(** The text holds the character U+0000. *)
Definition has_nul (s : string) : bool :=
  existsb (Ascii.eqb "000"%char) (list_ascii_of_string s).

(** The calendar of a given day, on a Mac with no phone configured; the
    day number stands for the text of [strftime]. [osascript] runs
    whatever script it is given, but [subprocess.run] starts no process
    for an argument that holds U+0000: it raises [ValueError] (embedded
    null byte). *)
Definition calendar_on (day : string) : calendar :=
  {| today := match iso_ordinal day with Some d => d | None => 0%Z end;
     fromisoformat := iso_ordinal;
     strftime := fun d => str_of_scalar (VInt d);
     py_str := str_of_scalar;
     load_bark_config := ("", "");
     subprocess_run := fun script =>
       if has_nul script then Raise ValueError else Ok tt;
     quote := fun _ => Ok tt |}.

Fixpoint bucket_of (path : string) (buckets : list (string * list value))
    : list value :=
  match buckets with
  | [] => []
  | (p, l) :: rest => if String.eqb p path then l else bucket_of path rest
  end.

(** A Canvas server that answers the course list with [raw_courses] and
    every other request with the list [buckets] holds for its path, on
    1 March 2026 in UTC. *)
Definition test_world (raw_courses : result (list value))
    (buckets : list (string * list value)) : world :=
  {| load_config := Ok ("https://canvas.test", "secret");
     get_all := fun _ _ path =>
       if String.eqb path courses_path then raw_courses
       else Ok (bucket_of path buckets);
     today_str := "2026-03-01";
     local_date := utc_date |}.

Definition upcoming_path (cid : Z) : string :=
  assignments_path (VInt cid) "?bucket=upcoming&per_page=100&order_by=due_at".

Definition course_eng : value :=
  VDict [("id", VInt 1); ("name", VStr "ENG101")].

Definition course_math : value :=
  VDict [("id", VInt 2); ("name", VStr "MATH200")].

Definition essay_json : value :=
  VDict [("id", VInt 5); ("name", VStr "Essay");
         ("due_at", VStr "2026-03-10T23:59:00Z")].

(** Canvas lists the same assignment twice among the upcoming ones. *)
Definition world_duplicate : world :=
  test_world (Ok [course_eng]) [(upcoming_path 1, [essay_json; essay_json])].

(** Two courses, one of them with nothing upcoming. *)
Definition world_two_courses : world :=
  test_world (Ok [course_eng; course_math]) [(upcoming_path 1, [essay_json])].

(** The request for the course list fails. *)
Definition world_unreachable : world :=
  test_world (Raise (RuntimeError "Could not reach Canvas")) [].

Definition essay : upcoming :=
  {| u_canvas_id := VInt 5; u_title := VStr "Essay";
     u_course := VStr "ENG101"; u_due_date := "2026-03-10" |}.

Definition essay_moved : upcoming :=
  {| u_canvas_id := VInt 5; u_title := VStr "Essay (final)";
     u_course := VStr "ENG101"; u_due_date := "2026-03-12" |}.

(** The row [sync] creates for [essay], and a row a user added. *)
Definition row_essay : row := new_row "uuid-0" essay.

Definition row_manual : row :=
  [ ("id", VStr "m-1"); ("title", VStr "Read chapter 3");
    ("course", VStr "HIST"); ("due_date", VStr "2026-03-09");
    ("notifications_sent", VList []); ("completed", VBool true) ].

(** One course, whose essay has been submitted. *)
Definition world_submitted : world :=
  test_world (Ok [course_eng])
    [(assignments_path (VInt 1) "?bucket=submitted&per_page=100", [essay_json])].

(** One course, whose essay is listed as submitted and is still among the
    upcoming ones. *)
Definition world_upcoming_and_submitted : world :=
  test_world (Ok [course_eng])
    [(upcoming_path 1, [essay_json]);
     (assignments_path (VInt 1) "?bucket=submitted&per_page=100", [essay_json])].

(** The file [sync] leaves when Canvas has listed the essay twice
    ([world_duplicate]): two rows with [canvas_id] 5. *)
Definition rows_duplicate : list row :=
  [new_row "uuid-0" essay; new_row "uuid-1" essay].

(** A row for a quiz whose title holds U+0000, as the tracker stores the
    body of a POST: JSON writes the character as a [u0000] escape. *)
Definition row_nul : row :=
  [ ("id", VStr "m-4");
    ("title", VStr (String "Q" (String "000" "")));
    ("course", VStr "ENG101"); ("due_date", VStr "2026-03-10");
    ("notifications_sent", VList []); ("completed", VBool false) ].

(** * Further notions: the merge and the check *)

(** The rows the second loop removes, by position. *)
Definition dropped_rows (processed subm : kset) (h : list row)
    (entries : kdict nat) : list nat :=
  (filter (fun e => dropped processed subm h e = true) entries).*2.

(** Some local row carries the id [k]. *)
Definition tracked (existing : list row) (k : key) : bool :=
  existsb (fun r => bool_decide (row_key r = Some k)) existing.

(** The upcoming entry [ca] has an id no local row carries. *)
Definition is_new (existing : list row) (ca : upcoming) : bool :=
  match hash_key (u_canvas_id ca) with
  | Some k => negb (tracked existing k)
  | None => false
  end.

(** The [id] of a row created by this pass. *)
Definition created_id (s : slot) : option value :=
  match s with
  | New r => dict_get "id" r
  | Ref _ => None
  end.

(** [cid in by_canvas_id] is false for the entry [ca] (line 238). *)
Definition untracked (by_id : kdict nat) (ca : upcoming) : bool :=
  match hash_key (u_canvas_id ca) with
  | Some k => bool_decide (kdict_get k by_id = None)
  | None => false
  end.

(** [changed] (lines 240-244) for the entry [ca] against the rows [h]. *)
Definition changed_in (by_id : kdict nat) (h : list row) (ca : upcoming) : bool :=
  match hash_key (u_canvas_id ca) with
  | Some k =>
      match kdict_get k by_id with
      | Some i => match h !! i with Some r => row_changed r ca | None => false end
      | None => false
      end
  | None => false
  end.

(** [changed] for the entry [ca] against the last local row with its id. *)
Definition differs (existing : list row) (ca : upcoming) : bool :=
  match hash_key (u_canvas_id ca) with
  | Some k =>
      match last_idx k 0 existing with
      | Some i =>
          match existing !! i with Some r => row_changed r ca | None => false end
      | None => false
      end
  | None => false
  end.

(** What [sync] has checked of an upcoming entry before the merge: its due
    date is not empty, not before today in the order of strings, and the
    local date of some [due_at]. *)
Definition not_past (w : world) (ca : upcoming) : Prop :=
  u_due_date ca <> "" /\
  String.ltb (u_due_date ca) (today_str w) = false /\
  exists due_at, local_date w due_at = Some (u_due_date ca).

(** The requests for the done assignments of a course (lines 192-194 and
    206-208). *)
Definition done_queries : list string :=
  ["?bucket=submitted&per_page=100"; "?bucket=graded&per_page=100"].

(** The id [k] is listed, as a truthy [id], in the answer to one of the
    done requests of one of the courses. *)
Definition done_on_canvas (w : world) (url token : string)
    (courses : course_map_t) (k : key) : Prop :=
  exists e query raw a,
    e ∈ courses /\ query ∈ done_queries /\
    get_all w url token (assignments_path e.2.1 query) = Ok raw /\
    VDict a ∈ raw /\
    truthy (get_or_none "id" a) = true /\
    hash_key (get_or_none "id" a) = Some k.

(** The name line 153 gives a course. *)
Definition course_name (c : sdict) : value :=
  py_or (get_or_none "name" c)
    (py_or (get_or_none "course_code" c)
       (VStr ("Course " ++ str_of_scalar (get_or_none "id" c)))).

(** The second loop keeps the row [r] (lines 268-279). *)
Definition kept_row (keys subm : kset) (r : row) : bool :=
  match row_key r with
  | Some k =>
      negb (kset_mem k keys) &&
      (kset_mem k subm || truthy (get_or_none "completed" r))
  | None => false
  end.

(** A file as a merge with the entries [ups] leaves it: the manual rows
    [M], then a row for each entry, equal to its own refresh, then rows
    [K] of other ids with [completed] truthy; no id twice. *)
Definition settled (ups : list upcoming) (keys : kset) (M U K : list row)
    : Prop :=
  Forall (fun r => is_manual r = true) M /\
  Forall2 (fun ca r => row_key r = hash_key (u_canvas_id ca) /\
                       refresh_row r ca = r) ups U /\
  Forall (fun r => exists k, row_key r = Some k /\ (k ∉ keys) /\
                     truthy (get_or_none "completed" r) = true) K /\
  NoDup (omap row_key (M ++ U ++ K)).

(** The title and the course of the entry are scalars. *)
Definition scalar_texts (ca : upcoming) : Prop :=
  is_Some (hash_key (u_title ca)) /\ is_Some (hash_key (u_course ca)).

(** * The requests: [_load_config] and [_get_all] *)

(** Computes the appends whose first argument starts with a character. *)
Ltac sapp := unfold String.append; fold String.append.

(** [s.lstrip(...)], [s.rstrip(...)] and [s.strip(...)], for the set of
    characters [p]. *)
Fixpoint lstrip_by (p : ascii -> bool) (s : string) : string :=
  match s with
  | EmptyString => EmptyString
  | String a s' => if p a then lstrip_by p s' else s
  end.

Fixpoint rstrip_by (p : ascii -> bool) (s : string) : string :=
  match s with
  | EmptyString => EmptyString
  | String a s' =>
      match rstrip_by p s' with
      | EmptyString => if p a then EmptyString else String a EmptyString
      | t => String a t
      end
  end.

Definition strip_by (p : ascii -> bool) (s : string) : string :=
  rstrip_by p (lstrip_by p s).

(** The characters [str.strip()] removes, among those a header can hold:
    [http.client] decodes a header as ISO-8859-1, one character per byte. *)
Definition is_space (a : ascii) : bool :=
  let n := nat_of_ascii a in
  ((9 <=? n) && (n <=? 13) || (28 <=? n) && (n <=? 32) || (n =? 133) || (n =? 160))%nat.

(** Membership in the argument of [strip("<>")]. *)
Definition in_chars (chars : string) (a : ascii) : bool :=
  existsb (Ascii.eqb a) (list_ascii_of_string chars).

(** [s.split(sep)] for a separator of one character. *)
Fixpoint split_on (sep : ascii) (s : string) : list string :=
  match s with
  | EmptyString => [EmptyString]
  | String a s' =>
      if Ascii.eqb a sep then EmptyString :: split_on sep s'
      else
        match split_on sep s' with
        | part :: parts => String a part :: parts
        | [] => [String a EmptyString]
        end
  end.

(** The text [rel="next"]. *)
Definition rel_next : string := "rel=" ++ dq ++ "next" ++ dq.

(** Lines 62-66 of canvas_sync.py: the loop over the parts of the header,
    left at the first part that holds [rel="next"]. *)
Fixpoint first_next (parts : list string) : option string :=
  match parts with
  | [] => None
  | part :: rest =>
      let part := strip_by is_space part in
      if substring_in rel_next part then
        Some (strip_by (in_chars "<>")
                (strip_by is_space
                   (match split_on ";"%char part with p :: _ => p | [] => "" end)))
      else first_next rest
  end.

(** Lines 60-66: [url] after a page whose [Link] header is [link_header];
    [None] when no part names a next page. *)
Definition next_url (link_header : string) : option string :=
  first_next (split_on ","%char link_header).

(** [while url:] (line 52). *)
Definition more_pages (url : option string) : option string :=
  match url with
  | Some (String a s) => Some (String a s)
  | _ => None
  end.

(** [results.extend(page)] when the page is a list (lines 57-58). *)
Definition extend (results : list value) (page : value) : list value :=
  match page with
  | VList l => results ++ l
  | _ => results
  end.

(** What a request comes to: a page, with its body decoded as JSON
    ([None] when the body is no JSON text) and its [Link] header (empty
    when absent); an [HTTPError]; a [URLError] that is no [HTTPError]; or
    any other exception, which [_get_all] does not catch. *)
Inductive response : Type :=
| Page (body : option value) (link : string)
| HTTPError (code : Z) (reason : string)
| URLError (reason : string)
| Failure (e : exn).

(** Lines 40-43 of canvas_sync.py, on the content of canvas_config.json. *)
Inductive json_file : Type :=
| NoFile
| BadJson
| Json (v : value).

Definition _load_config (f : json_file) : result (string * value) :=
  match f with
  | NoFile => Raise OSError
  | BadJson => Raise ValueError
  | Json (VDict cfg) =>
      match dict_get "canvas_url" cfg with
      | None => Raise KeyError
      | Some (VStr u) =>
          match dict_get "token" cfg with
          | None => Raise KeyError
          | Some t => Ok (rstrip_by (Ascii.eqb "/"%char) u, t)
          end
      | Some _ => Raise AttributeError
      end
  | Json _ => Raise TypeError
  end.

(** Lines 67-78: the [RuntimeError] raised for an [HTTPError] and for a
    [URLError]. *)
Definition http_error (code : Z) (reason : string) : exn :=
  if (code =? 401)%Z then
    RuntimeError "Canvas API token is invalid or expired. Update the token in canvas_config.json."
  else
    RuntimeError ("Canvas HTTP " ++ str_of_scalar (VInt code) ++ ": " ++ reason).

Definition url_error (base_url reason : string) : exn :=
  RuntimeError ("Could not reach Canvas (" ++ base_url ++
                "). Check your internet connection. Detail: " ++ reason).

Section GetAll.

(** [urlopen n url authorization]: what the [n]-th request of a call
    comes to, for its URL and its [Authorization] header. *)
Variable urlopen : nat -> string -> string -> response.

Variable base_url : string.
Variable token : string.

(** The loop at lines 52-78, at its [n]-th request; [None] when [fuel]
    requests do not end it. *)
Fixpoint get_all_loop (fuel n : nat) (url : option string)
    (results : list value) : option (result (list value)) :=
  match more_pages url with
  | None => Some (Ok results)
  | Some u =>
      match fuel with
      | O => None
      | S fuel' =>
          match urlopen n u ("Bearer " ++ token)%string with
          | Page None _ => Some (Raise ValueError)
          | Page (Some page) link_header =>
              get_all_loop fuel' (S n) (next_url link_header) (extend results page)
          | HTTPError code reason => Some (Raise (http_error code reason))
          | URLError reason => Some (Raise (url_error base_url reason))
          | Failure e => Some (Raise e)
          end
      end
  end.

(** Lines 48-79. *)
Definition _get_all (fuel : nat) (path : string)
    : option (result (list value)) :=
  get_all_loop fuel 0 (Some (base_url ++ path)%string) [].

(** The requests from the [n]-th on are answered with [pages], each page
    a JSON body and a [Link] header that leads to the URL of the next
    request; [last] is [url] after the last of them. *)
Fixpoint follows (n : nat) (url : option string)
    (pages : list (value * string)) (last : option string) : Prop :=
  match pages with
  | [] => url = last
  | (body, link_header) :: rest =>
      exists u, more_pages url = Some u /\
        urlopen n u ("Bearer " ++ token)%string = Page (Some body) link_header /\
        follows (S n) (next_url link_header) rest last
  end.

End GetAll.

(** * Reading the banner script back *)

(** Reading a quoted literal from just after its opening quote, as
    AppleScript does for the two escapes [escape] writes: the text up to
    the closing quote, and what follows it. Another escape, or a literal
    left open, is not read. *)
Fixpoint read_literal (s : string) : option (string * string) :=
  match s with
  | EmptyString => None
  | String a s' =>
      if Ascii.eqb a "034"%char then Some (EmptyString, s')
      else if Ascii.eqb a "\"%char then
        match s' with
        | String b s'' =>
            if Ascii.eqb b "034"%char || Ascii.eqb b "\"%char then
              match read_literal s'' with
              | Some (t, rest) => Some (String b t, rest)
              | None => None
              end
            else None
        | EmptyString => None
        end
      else
        match read_literal s' with
        | Some (t, rest) => Some (String a t, rest)
        | None => None
        end
  end.

(** * The rows the user edits: the handlers of homework_tracker.py *)

Section Tracker.

(** [str(v)] for a value of a request body. *)
Variable str : value -> string.

(** Lines 938-945 of homework_tracker.py: the row made from the body of a
    POST, [id] being the identifier drawn from [uuid.uuid4()]. *)
Definition new_assignment (id : string) (data : value) : result row :=
  match data with
  | VDict d =>
      match dict_get "title" d with
      | None => Raise KeyError
      | Some title =>
          match dict_get "course" d with
          | None => Raise KeyError
          | Some course =>
              match dict_get "due_date" d with
              | None => Raise KeyError
              | Some due_date =>
                  Ok [ ("id", VStr id);
                       ("title", VStr (str title));
                       ("course", VStr (str course));
                       ("due_date", VStr (str due_date));
                       ("notifications_sent", VList []);
                       ("completed", VBool false) ]
              end
          end
      end
  | _ => Raise TypeError
  end.

(** Lines 936-951: the status answered and the file afterwards; [body]
    is the request body decoded as JSON, [None] when it is no JSON text.
    Every exception is answered with 400. *)
Definition post_assignment (id : string) (body : option value)
    (store : file_state) : Z * file_state :=
  match body with
  | None => (400%Z, store)
  | Some data =>
      match new_assignment id data with
      | Ok assignment =>
          (200%Z,
           save_assignments (load_assignments store ++ [assignment]) store)
      | Raise _ => (400%Z, store)
      end
  end.

End Tracker.

(** Lines 1005-1006: the update of the row found. *)
Definition patch_row (data : value) (a : row) : result row :=
  match data with
  | VDict d =>
      match dict_get "completed" d with
      | Some v => Ok (dict_set "completed" (VBool (truthy v)) a)
      | None => Ok a
      end
  | VList l =>
      if list_contains (VStr "completed") l then Raise TypeError else Ok a
  | VStr s => if substring_in "completed" s then Raise TypeError else Ok a
  | VNone | VBool _ | VInt _ => Raise TypeError
  end.

(** Lines 1003-1007: the loop, left at the first row whose [id] is
    [aid]. *)
Fixpoint patch_rows (aid : string) (data : value) (rows : list row)
    : result (list row) :=
  match rows with
  | [] => Ok []
  | a :: rest =>
      match dict_get "id" a with
      | None => Raise KeyError
      | Some v =>
          if py_eq v (VStr aid) then
            a' ← patch_row data a; Ok (a' :: rest)
          else
            rest' ← patch_rows aid data rest; Ok (a :: rest')
      end
  end.

(** Lines 1000-1011. *)
Definition patch_assignment (aid : string) (body : option value)
    (store : file_state) : Z * file_state :=
  match body with
  | None => (400%Z, store)
  | Some data =>
      match patch_rows aid data (load_assignments store) with
      | Ok rows => (200%Z, save_assignments rows store)
      | Raise _ => (400%Z, store)
      end
  end.

(** Line 1021: the rows whose [id] is not [aid]. *)
Fixpoint delete_rows (aid : string) (rows : list row) : result (list row) :=
  match rows with
  | [] => Ok []
  | a :: rest =>
      match dict_get "id" a with
      | None => Raise KeyError
      | Some v =>
          rest' ← delete_rows aid rest;
          Ok (if py_eq v (VStr aid) then rest' else a :: rest')
      end
  end.

(** Lines 1019-1023: no exception is caught here. *)
Definition delete_assignment (aid : string) (store : file_state)
    : result Z * file_state :=
  match delete_rows aid (load_assignments store) with
  | Ok rows => (Ok 200%Z, save_assignments rows store)
  | Raise e => (Raise e, store)
  end.

(** The row has [aid] as its [id]. *)
Definition has_id (aid : string) (r : row) : bool :=
  match dict_get "id" r with
  | Some v => py_eq v (VStr aid)
  | None => false
  end.

(** * Further concrete inputs *)

(** [row_essay] once completed; a row without a due date; a row whose due
    date is [null]. *)
Definition row_done : row := mark_completed row_essay.

Definition row_undated : row :=
  [ ("id", VStr "m-2"); ("title", VStr "Someday") ].

Definition row_null_date : row :=
  [ ("id", VStr "m-3"); ("title", VStr "Broken"); ("due_date", VNone) ].

(** A part of a [Link] header, as Canvas writes it. *)
Definition link_to (url rel : string) : string :=
  "<" ++ url ++ ">; rel=" ++ dq ++ rel ++ dq.

Definition page1_url : string := "https://canvas.test/api/v1/courses?per_page=50".

Definition page2_url : string :=
  "https://canvas.test/api/v1/courses?page=2&per_page=50".

Definition link_page1 : string :=
  link_to page1_url "current" ++ "," ++ link_to page2_url "next".

Definition link_page2 : string :=
  link_to page2_url "current" ++ "," ++ link_to page1_url "first".

(** A server with two pages of courses, the second answered by
    [second]. *)
Definition urlopen_pages (second : response) (n : nat) (url auth : string)
    : response :=
  if String.eqb url page1_url then Page (Some (VList [course_eng])) link_page1
  else if String.eqb url page2_url then second
  else URLError "unknown host".

(** A server whose every page names itself as the next one. *)
Definition urlopen_cycle (n : nat) (url auth : string) : response :=
  Page (Some (VList [course_eng])) (link_to url "next").

Definition config_file : json_file :=
  Json (VDict [ ("canvas_url", VStr "https://canvas.test//");
                ("token", VStr "secret") ]).

Definition post_body : value :=
  VDict [ ("title", VStr "Lab report"); ("course", VStr "CHEM");
          ("due_date", VStr "2026-03-12") ].

Definition patch_body : value := VDict [ ("completed", VBool false) ].

(** * Properties *)

(** ** Dicts and keys *)

Lemma key_eqb_eq (a b : key) : key_eqb a b = true <-> a = b.
Proof.
  destruct a, b; simpl; try (split; [discriminate | intro H; inversion H]);
    try tauto.
  - rewrite Z.eqb_eq. split; congruence.
  - rewrite String.eqb_eq. split; congruence.
Qed.

Lemma key_eqb_refl (a : key) : key_eqb a a = true.
Proof. by apply key_eqb_eq. Qed.

Lemma key_eqb_neq (a b : key) : key_eqb a b = false <-> a ≠ b.
Proof.
  rewrite <- key_eqb_eq. destruct (key_eqb a b); split; congruence.
Qed.

Lemma kset_mem_elem_of (k : key) (s : kset) : kset_mem k s = true <-> k ∈ s.
Proof.
  unfold kset_mem. induction s as [|x s IH]; simpl.
  - split; [discriminate | by intros ?%elem_of_nil].
  - rewrite orb_true_iff, IH, elem_of_cons, key_eqb_eq. tauto.
Qed.

Lemma kset_mem_not_elem_of (k : key) (s : kset) : kset_mem k s = false <-> k ∉ s.
Proof.
  rewrite <- kset_mem_elem_of. destruct (kset_mem k s); split; congruence.
Qed.

Lemma dict_get_set (k k' : string) (v : value) (d : sdict) :
  dict_get k (dict_set k' v d) =
  if String.eqb k' k then Some v else dict_get k d.
Proof.
  induction d as [|[k0 v0] d IH]; simpl.
  - done.
  - destruct (String.eqb_spec k0 k') as [->|Hne]; simpl.
    + by destruct (String.eqb_spec k' k).
    + rewrite IH. destruct (String.eqb_spec k0 k) as [->|]; [|done].
      destruct (String.eqb_spec k' k); congruence.
Qed.

Lemma dict_get_set_ne (k k' : string) (v : value) (d : sdict) :
  k' ≠ k -> dict_get k (dict_set k' v d) = dict_get k d.
Proof.
  intros H. rewrite dict_get_set. by destruct (String.eqb_spec k' k).
Qed.

Lemma dict_get_set_eq (k : string) (v : value) (d : sdict) :
  dict_get k (dict_set k v d) = Some v.
Proof. rewrite dict_get_set. by rewrite String.eqb_refl. Qed.

Lemma dict_get_refresh_row (k : string) (r : row) (ca : upcoming) :
  ~ remote_owned k -> dict_get k (refresh_row r ca) = dict_get k r.
Proof.
  intros H. unfold refresh_row, remote_owned in *.
  rewrite !dict_get_set_ne; [done | | | |]; intros ?; subst; tauto.
Qed.

Lemma kdict_get_set {A} (k k' : key) (x : A) (d : kdict A) :
  kdict_get k (kdict_set k' x d) =
  if key_eqb k' k then Some x else kdict_get k d.
Proof.
  induction d as [|[k0 x0] d IH]; simpl.
  - done.
  - destruct (key_eqb k0 k') eqn:E0; simpl.
    + apply key_eqb_eq in E0. subst k0. by destruct (key_eqb k' k).
    + rewrite IH. destruct (key_eqb k0 k) eqn:E1; [|done].
      apply key_eqb_eq in E1. subst k0.
      destruct (key_eqb k' k) eqn:E2; [|done].
      apply key_eqb_eq in E2. subst k'. by rewrite key_eqb_refl in E0.
Qed.

Lemma kdict_set_keys {A} (k : key) (x : A) (d : kdict A) :
  (kdict_set k x d).*1 = d.*1 \/ (kdict_set k x d).*1 = d.*1 ++ [k] /\ k ∉ d.*1.
Proof.
  induction d as [|[k0 x0] d IH]; csimpl.
  - right. split; [done | apply not_elem_of_nil].
  - destruct (key_eqb k0 k) eqn:E; csimpl.
    + by left.
    + destruct IH as [IH|[IH1 IH2]].
      * left. by rewrite IH.
      * right. rewrite IH1. split; [done|].
        rewrite elem_of_cons. apply key_eqb_neq in E.
        intros [?|?]; [by subst | done].
Qed.

Lemma kdict_set_NoDup {A} (k : key) (x : A) (d : kdict A) :
  NoDup d.*1 -> NoDup (kdict_set k x d).*1.
Proof.
  intros H. destruct (kdict_set_keys k x d) as [E|[E Hk]]; rewrite E; [done|].
  apply NoDup_app. split_and!; [done | | apply NoDup_singleton].
  intros y Hy ->%list_elem_of_singleton. done.
Qed.

Lemma kdict_get_Some_elem_of {A} (k : key) (x : A) (d : kdict A) :
  kdict_get k d = Some x -> (k, x) ∈ d.
Proof.
  induction d as [|[k0 x0] d IH]; simpl; [done|].
  destruct (key_eqb k0 k) eqn:E.
  - apply key_eqb_eq in E as ->. intros [= ->]. apply list_elem_of_here.
  - intros H. apply list_elem_of_further. auto.
Qed.

Lemma kdict_elem_of_get {A} (k : key) (x : A) (d : kdict A) :
  NoDup d.*1 -> (k, x) ∈ d -> kdict_get k d = Some x.
Proof.
  induction d as [|[k0 x0] d IH]; simpl.
  - by intros _ ?%elem_of_nil.
  - intros [Hk0 Hd]%NoDup_cons [Heq|Hin]%elem_of_cons.
    + inversion Heq; subst. by rewrite key_eqb_refl.
    + destruct (key_eqb k0 k) eqn:E; [|auto].
      apply key_eqb_eq in E as ->. destruct Hk0.
      apply list_elem_of_fmap. by exists (k, x).
Qed.

(** ** The partition of the local rows *)

Lemma is_manual_row_key (r : row) : is_manual r = true -> row_key r = None.
Proof.
  unfold is_manual, dict_mem, row_key.
  by destruct (dict_get "canvas_id" r).
Qed.

Lemma split_rows_manual i rows manual by_id manual' by_id' :
  split_rows i rows manual by_id = Ok (manual', by_id') ->
  manual' = manual ++ manual_from i rows.
Proof.
  revert i manual by_id.
  induction rows as [|r rows IH]; intros i manual by_id; simpl.
  - intros [= <- <-]. by rewrite app_nil_r.
  - unfold is_manual, dict_mem.
    destruct (dict_get "canvas_id" r) as [v|]; simpl.
    + destruct (hash_key v); [|done]. apply IH.
    + intros H. apply IH in H. by rewrite <- app_assoc in H.
Qed.

Lemma split_rows_NoDup i rows manual by_id manual' by_id' :
  split_rows i rows manual by_id = Ok (manual', by_id') ->
  NoDup by_id.*1 -> NoDup by_id'.*1.
Proof.
  revert i manual by_id.
  induction rows as [|r rows IH]; intros i manual by_id; simpl.
  - by intros [= <- <-].
  - destruct (dict_get "canvas_id" r) as [v|]; [|by eauto].
    destruct (hash_key v); [|done].
    intros H Hnd. eapply IH; [done|]. by apply kdict_set_NoDup.
Qed.

Lemma split_rows_get k i rows manual by_id manual' by_id' :
  split_rows i rows manual by_id = Ok (manual', by_id') ->
  kdict_get k by_id' =
  match last_idx k i rows with
  | Some j => Some j
  | None => kdict_get k by_id
  end.
Proof.
  revert i manual by_id.
  induction rows as [|r rows IH]; intros i manual by_id; simpl.
  - by intros [= <- <-].
  - unfold row_key.
    destruct (dict_get "canvas_id" r) as [v|].
    + destruct (hash_key v) as [k0|]; [|done].
      intros H. rewrite (IH _ _ _ H).
      destruct (last_idx k (S i) rows); [done|].
      rewrite kdict_get_set.
      destruct (key_eqb k0 k) eqn:E.
      * apply key_eqb_eq in E. subst. by rewrite decide_True.
      * apply key_eqb_neq in E. rewrite decide_False; [done | congruence].
    + intros H. rewrite (IH _ _ _ H).
      destruct (last_idx k (S i) rows); [done|].
      by rewrite decide_False.
Qed.

Lemma last_idx_Some k i rows j :
  last_idx k i rows = Some j ->
  exists n r, j = i + n /\ rows !! n = Some r /\ row_key r = Some k.
Proof.
  revert i. induction rows as [|r rows IH]; intros i; simpl; [done|].
  destruct (last_idx k (S i) rows) as [j'|] eqn:E.
  - intros [= ->]. destruct (IH _ E) as (n & r' & -> & ? & ?).
    exists (S n), r'. split_and!; [lia | done | done].
  - destruct (decide (row_key r = Some k)); [|done].
    intros [= <-]. exists 0, r. split_and!; [lia | done | done].
Qed.

Lemma last_idx_None k i rows n r :
  last_idx k i rows = None -> rows !! n = Some r -> row_key r ≠ Some k.
Proof.
  revert i n. induction rows as [|r0 rows IH]; intros i n; simpl; [done|].
  destruct (last_idx k (S i) rows) eqn:E; [done|].
  destruct (decide (row_key r0 = Some k)); [done|].
  intros _. destruct n; simpl.
  - by intros [= <-].
  - by eapply IH.
Qed.

Lemma last_idx_last k i rows n r :
  rows !! n = Some r -> row_key r = Some k ->
  (forall n' r', n < n' -> rows !! n' = Some r' -> row_key r' ≠ Some k) ->
  last_idx k i rows = Some (i + n).
Proof.
  revert i n. induction rows as [|r0 rows IH]; intros i n; simpl; [done|].
  destruct n as [|n]; simpl.
  - intros [= ->] Hk Hlast.
    destruct (last_idx k (S i) rows) as [j|] eqn:E.
    + apply last_idx_Some in E as (m & r' & -> & Hm & Hr').
      destruct (Hlast (S m) r'); [lia | done | done].
    + rewrite decide_True; [|done]. f_equal. lia.
  - intros Hn Hk Hlast.
    rewrite (IH (S i) n); [f_equal; lia | done | done |].
    intros n' r' ? ?. apply (Hlast (S n') r'); [lia | done].
Qed.

Lemma manual_from_lookup (pre rows : list row) :
  (fun j => (pre ++ rows) !! j) <$> manual_from (length pre) rows =
  Some <$> filter (fun r => is_manual r = true) rows.
Proof.
  revert pre. induction rows as [|r rows IH]; intros pre; simpl; [done|].
  specialize (IH (pre ++ [r])).
  rewrite length_app, <- app_assoc in IH. simpl in IH.
  replace (length pre + 1) with (S (length pre)) in IH by lia.
  rewrite filter_cons. destruct (is_manual r) eqn:E.
  - rewrite decide_True; [|done]. csimpl. rewrite IH. f_equal.
    by rewrite list_lookup_middle.
  - rewrite decide_False; [done | congruence].
Qed.

Lemma manual_from_elem_of i rows j :
  j ∈ manual_from i rows ->
  exists n r, j = i + n /\ rows !! n = Some r /\ is_manual r = true.
Proof.
  revert i. induction rows as [|r rows IH]; intros i; simpl.
  - by intros ?%elem_of_nil.
  - destruct (is_manual r) eqn:E.
    + intros [->|Hin]%elem_of_cons.
      * exists 0, r. split_and!; [lia | done | done].
      * destruct (IH _ Hin) as (n & r' & -> & ? & ?).
        exists (S n), r'. split_and!; [lia | done | done].
    + intros Hin. destruct (IH _ Hin) as (n & r' & -> & ? & ?).
      exists (S n), r'. split_and!; [lia | done | done].
Qed.

(** When the local rows have pairwise distinct ids, as the data model
    requires, every row is the last one with its id. *)
Lemma distinct_ids_last (existing : list row) i r k :
  NoDup (omap row_key existing) ->
  existing !! i = Some r -> row_key r = Some k ->
  forall j r', i < j -> existing !! j = Some r' -> row_key r' ≠ Some k.
Proof.
  revert i. induction existing as [|r0 l IH]; intros i Hnd Hi Hk j r' Hlt Hj;
    [done|].
  destruct j as [|j]; [lia|]. simpl in Hj.
  assert (NoDup (omap row_key l)) as Hnd'.
  { csimpl in Hnd. destruct (row_key r0); [|done]. by apply NoDup_cons in Hnd as []. }
  destruct i as [|i]; simpl in Hi.
  - injection Hi as ->. csimpl in Hnd. rewrite Hk in Hnd.
    apply NoDup_cons in Hnd as [Hnin _]. intros Hk'. apply Hnin.
    apply list_elem_of_omap. exists r'. split; [|done].
    by eapply list_elem_of_lookup_2.
  - apply (IH i Hnd' Hi Hk j r'); [lia | done].
Qed.

(** ** The loop over the upcoming assignments *)

Lemma keys_ok_inj by_id h k k' i :
  keys_ok by_id h -> (k, i) ∈ by_id -> (k', i) ∈ by_id -> k = k'.
Proof.
  intros Hok H1 H2.
  destruct (Hok _ _ H1) as (r & Hr & Hk).
  destruct (Hok _ _ H2) as (r' & Hr' & Hk'). congruence.
Qed.

Lemma row_key_refresh_row r ca : row_key (refresh_row r ca) = row_key r.
Proof.
  unfold row_key. rewrite dict_get_refresh_row; [done|].
  unfold remote_owned. intros [?|[?|[?|?]]]; discriminate.
Qed.

Section MergeFacts.

Variable uuid4 : nat -> string.

Lemma upcoming_step_inv by_id st ca st' :
  upcoming_step uuid4 by_id st ca = Ok st' ->
  exists cid, hash_key (u_canvas_id ca) = Some cid /\
    processed_ids st' = cid :: processed_ids st /\
    removed st' = removed st /\
    auto_completed st' = auto_completed st /\
    ((exists i r, kdict_get cid by_id = Some i /\ heap st !! i = Some r /\
        heap st' = <[i := refresh_row r ca]> (heap st) /\
        new_canvas_rows st' = new_canvas_rows st ++ [Ref i]) \/
     (kdict_get cid by_id = None /\ heap st' = heap st /\
        new_canvas_rows st' =
          new_canvas_rows st ++ [New (new_row (uuid4 (uuids st)) ca)])).
Proof.
  unfold upcoming_step.
  destruct (hash_key (u_canvas_id ca)) as [cid|]; [|done].
  destruct (kdict_get cid by_id) as [i|] eqn:Hi.
  - destruct (heap st !! i) as [r|] eqn:Hr; [|done].
    intros [= <-]. exists cid. simpl. split_and!; try done.
    left. by exists i, r.
  - intros [= <-]. exists cid. simpl. split_and!; try done. by right.
Qed.

Lemma upcoming_step_heap by_id st ca st' j r :
  upcoming_step uuid4 by_id st ca = Ok st' ->
  heap st !! j = Some r ->
  exists r', heap st' !! j = Some r' /\
    (forall f, ~ remote_owned f -> dict_get f r' = dict_get f r) /\
    (~ touches by_id ca j -> r' = r).
Proof.
  intros (cid & Hcid & _ & _ & _ & Hcase)%upcoming_step_inv Hj.
  destruct Hcase as [(i & r0 & Hi & Hr0 & -> & _)|(_ & -> & _)].
  - destruct (decide (i = j)) as [->|Hne].
    + exists (refresh_row r0 ca). rewrite list_lookup_insert_eq.
      * assert (r0 = r) as -> by congruence. split_and!; [done | |].
        -- intros f Hf. by apply dict_get_refresh_row.
        -- intros []. by exists cid.
      * by eapply lookup_lt_Some.
    + exists r. by rewrite list_lookup_insert_ne.
  - by exists r.
Qed.

Lemma upcoming_loop_heap by_id ups : forall st st' j r,
  upcoming_loop uuid4 by_id st ups = Ok st' ->
  heap st !! j = Some r ->
  exists r', heap st' !! j = Some r' /\
    (forall f, ~ remote_owned f -> dict_get f r' = dict_get f r) /\
    ((forall ca, ca ∈ ups -> ~ touches by_id ca j) -> r' = r).
Proof.
  induction ups as [|ca ups IH]; intros st st' j r; simpl.
  - intros [= <-] Hj. by exists r.
  - destruct (upcoming_step uuid4 by_id st ca) as [st1|] eqn:Hstep; [|done].
    simpl. intros Hloop Hj.
    destruct (upcoming_step_heap _ _ _ _ _ _ Hstep Hj) as (r1 & Hj1 & Hf1 & Ht1).
    destruct (IH _ _ _ _ Hloop Hj1) as (r' & Hj' & Hf' & Ht').
    exists r'. split_and!; [done | |].
    + intros f Hf. rewrite Hf', Hf1; done.
    + intros Hno. rewrite Ht', Ht1; [done | |].
      * apply Hno, list_elem_of_here.
      * intros ca' Hin. by apply Hno, list_elem_of_further.
Qed.

Lemma upcoming_loop_keys_ok by_id ups st st' :
  upcoming_loop uuid4 by_id st ups = Ok st' ->
  keys_ok by_id (heap st) -> keys_ok by_id (heap st').
Proof.
  intros Hloop Hok k i Hin. destruct (Hok _ _ Hin) as (r & Hr & Hk).
  destruct (upcoming_loop_heap _ _ _ _ _ _ Hloop Hr) as (r' & Hr' & Hf & _).
  exists r'. split; [done|]. unfold row_key in *. rewrite Hf; [done|].
  unfold remote_owned. intros [?|[?|[?|?]]]; discriminate.
Qed.

Lemma upcoming_loop_length by_id ups : forall st st',
  upcoming_loop uuid4 by_id st ups = Ok st' ->
  length (heap st') = length (heap st).
Proof.
  induction ups as [|ca ups IH]; intros st st'; simpl.
  - by intros [= <-].
  - destruct (upcoming_step uuid4 by_id st ca) as [st1|] eqn:Hstep; [|done].
    simpl. intros Hloop. rewrite (IH _ _ Hloop).
    apply upcoming_step_inv in Hstep as (cid & _ & _ & _ & _ & Hcase).
    destruct Hcase as [(i & r0 & _ & _ & -> & _)|(_ & -> & _)]; [|done].
    apply length_insert.
Qed.

Lemma upcoming_loop_processed by_id ups : forall st st' k,
  upcoming_loop uuid4 by_id st ups = Ok st' ->
  k ∈ processed_ids st' <->
  k ∈ processed_ids st \/
  exists ca, ca ∈ ups /\ hash_key (u_canvas_id ca) = Some k.
Proof.
  induction ups as [|ca ups IH]; intros st st' k; simpl.
  - intros [= <-]. split; [by left|].
    intros [?|(ca & []%elem_of_nil & _)]. done.
  - destruct (upcoming_step uuid4 by_id st ca) as [st1|] eqn:Hstep; [|done].
    simpl. intros Hloop. rewrite (IH _ _ _ Hloop).
    apply upcoming_step_inv in Hstep as (cid & Hcid & -> & _).
    rewrite elem_of_cons. split.
    + intros [[->|?]|(ca' & ? & ?)].
      * right. exists ca. split; [apply list_elem_of_here | done].
      * by left.
      * right. exists ca'. split; [by apply list_elem_of_further | done].
    + intros [?|(ca' & [->|?]%elem_of_cons & Hk)].
      * left. by right.
      * left. left. congruence.
      * right. by exists ca'.
Qed.

Lemma upcoming_loop_counters by_id ups : forall st st',
  upcoming_loop uuid4 by_id st ups = Ok st' ->
  removed st' = removed st /\ auto_completed st' = auto_completed st.
Proof.
  induction ups as [|ca ups IH]; intros st st'; simpl.
  - by intros [= <-].
  - destruct (upcoming_step uuid4 by_id st ca) as [st1|] eqn:Hstep; [|done].
    simpl. intros Hloop. destruct (IH _ _ Hloop) as [-> ->].
    by apply upcoming_step_inv in Hstep as (cid & _ & _ & -> & -> & _).
Qed.

Lemma upcoming_loop_slots by_id ups : forall st st',
  upcoming_loop uuid4 by_id st ups = Ok st' ->
  exists slots, new_canvas_rows st' = new_canvas_rows st ++ slots /\
    Forall2 (slot_for by_id) ups slots.
Proof.
  induction ups as [|ca ups IH]; intros st st'; simpl.
  - intros [= <-]. exists []. by rewrite app_nil_r.
  - destruct (upcoming_step uuid4 by_id st ca) as [st1|] eqn:Hstep; [|done].
    simpl. intros Hloop. destruct (IH _ _ Hloop) as (slots & -> & Hall).
    apply upcoming_step_inv in Hstep as (cid & Hcid & _ & _ & _ & Hcase).
    destruct Hcase as [(i & r0 & Hi & _ & _ & ->)|(Hi & _ & ->)].
    + exists (Ref i :: slots). rewrite <- app_assoc. split; [done|].
      constructor; [|done]. exists cid. split; [done|]. left. by exists i.
    + eexists (New _ :: slots). rewrite <- app_assoc. split; [done|].
      constructor; [|done]. exists cid. split; [done|]. right. by eexists.
Qed.

(** A tracked row that is upcoming holds, after the loop, the fields of an
    upcoming entry with its id (the last one). *)
Lemma upcoming_loop_refreshed by_id k i ups : forall st st',
  upcoming_loop uuid4 by_id st ups = Ok st' ->
  keys_ok by_id (heap st) ->
  kdict_get k by_id = Some i ->
  (exists ca, ca ∈ ups /\ hash_key (u_canvas_id ca) = Some k) ->
  exists ca r0, ca ∈ ups /\ hash_key (u_canvas_id ca) = Some k /\
    heap st' !! i = Some (refresh_row r0 ca).
Proof.
  induction ups as [|ca ups IH]; intros st st'; simpl.
  - intros _ _ _ (ca & []%elem_of_nil & _).
  - destruct (upcoming_step uuid4 by_id st ca) as [st1|] eqn:Hstep; [|done].
    simpl. intros Hloop Hok Hi Hex.
    assert (keys_ok by_id (heap st1)) as Hok1.
    { apply (upcoming_loop_keys_ok by_id [ca] st); [|done].
      simpl. by rewrite Hstep. }
    destruct (decide (Exists (fun ca => hash_key (u_canvas_id ca) = Some k) ups))
      as [Hlater|Hnone].
    + apply Exists_exists in Hlater.
      destruct (IH _ _ Hloop Hok1 Hi Hlater) as (ca' & r0 & ? & ? & ?).
      exists ca', r0. split_and!; [by apply list_elem_of_further | done | done].
    + destruct Hex as (ca' & [->|Hin]%elem_of_cons & Hk).
      2:{ destruct Hnone. apply Exists_exists. by exists ca'. }
      pose proof Hstep as Hinv.
      apply upcoming_step_inv in Hinv as (cid & Hcid & _ & _ & _ & Hcase).
      assert (cid = k) as -> by congruence.
      destruct Hcase as [(i' & r0 & Hi' & Hr0 & Hheap & _)|(Hi' & _)];
        [|congruence].
      assert (i' = i) as -> by congruence.
      assert (heap st1 !! i = Some (refresh_row r0 ca)) as H1.
      { rewrite Hheap. apply list_lookup_insert_eq. by eapply lookup_lt_Some. }
      destruct (upcoming_loop_heap _ _ _ _ _ _ Hloop H1) as (r' & Hr' & _ & Hsame).
      exists ca, r0. split_and!; [apply list_elem_of_here | done |].
      rewrite Hr', Hsame; [done|].
      intros ca2 Hin2 (cid2 & Hcid2 & Hget2).
      apply kdict_get_Some_elem_of in Hget2, Hi.
      assert (cid2 = k) as -> by (by eapply keys_ok_inj).
      destruct Hnone. apply Exists_exists. by exists ca2.
Qed.

End MergeFacts.

(** ** The loop over the tracked rows *)

Lemma filter_agree {A} (P Q : A -> Prop) `{!forall x, Decision (P x)}
    `{!forall x, Decision (Q x)} (l : list A) :
  (forall x, x ∈ l -> P x <-> Q x) -> filter P l = filter Q l.
Proof.
  induction l as [|x l IH]; intros Hag; [done|].
  rewrite !filter_cons.
  rewrite IH by (intros y Hy; apply Hag; by apply list_elem_of_further).
  destruct (decide (P x)) as [HP|HP], (decide (Q x)) as [HQ|HQ]; try done.
  - destruct HQ. apply Hag; [apply list_elem_of_here | done].
  - destruct HP. apply Hag; [apply list_elem_of_here | done].
Qed.

Lemma completed_at_insert_ne h i j r :
  i ≠ j -> completed_at (<[i := r]> h) j = completed_at h j.
Proof. intros H. unfold completed_at. by rewrite list_lookup_insert_ne. Qed.

Lemma truthy_mark_completed r :
  truthy (get_or_none "completed" (mark_completed r)) = true.
Proof. unfold get_or_none, mark_completed. by rewrite dict_get_set_eq. Qed.

Lemma dict_get_mark_completed f r :
  f ≠ "completed" -> dict_get f (mark_completed r) = dict_get f r.
Proof. intros H. unfold mark_completed. by rewrite dict_get_set_ne. Qed.

Lemma row_key_mark_completed r : row_key (mark_completed r) = row_key r.
Proof. unfold row_key. by rewrite dict_get_mark_completed. Qed.

Lemma tracked_loop_cons subm st e rest :
  tracked_loop subm st (e :: rest) =
  match tracked_step subm st e with
  | Ok st1 => tracked_loop subm st1 rest
  | Raise x => Raise x
  end.
Proof. done. Qed.

Lemma tracked_step_inv subm st cid i st' :
  tracked_step subm st (cid, i) = Ok st' ->
  let h := heap st in
  let p := processed_ids st in
  processed_ids st' = p /\
  new_canvas_rows st' =
    new_canvas_rows st ++ (if kept p subm h (cid, i) then [Ref i] else []) /\
  auto_completed st' =
    auto_completed st + (if auto_marked p subm h (cid, i) then 1 else 0) /\
  removed st' = removed st + (if dropped p subm h (cid, i) then 1 else 0) /\
  heap st' =
    (if auto_marked p subm h (cid, i)
     then match h !! i with
          | Some r => <[i := mark_completed r]> h
          | None => h
          end
     else h).
Proof.
  unfold tracked_step, kept, auto_marked, dropped, completed_at; simpl.
  destruct (kset_mem cid (processed_ids st)); simpl.
  { intros [= <-]. rewrite app_nil_r, !Nat.add_0_r. done. }
  destruct (heap st !! i) as [r|]; [|done].
  destruct (kset_mem cid subm); simpl.
  - destruct (truthy (get_or_none "completed" r)); simpl;
      intros [= <-]; simpl; rewrite ?Nat.add_0_r; split_and!; try done; lia.
  - destruct (truthy (get_or_none "completed" r)); simpl;
      intros [= <-]; simpl; rewrite ?app_nil_r, ?Nat.add_0_r;
      split_and!; try done; lia.
Qed.

(** The second loop, as a function of the state it starts from. *)
Lemma tracked_loop_spec subm entries : forall st st',
  tracked_loop subm st entries = Ok st' ->
  NoDup entries.*2 ->
  let h := heap st in
  let p := processed_ids st in
  processed_ids st' = p /\
  new_canvas_rows st' =
    new_canvas_rows st ++
    (Ref <$> (filter (fun e => kept p subm h e = true) entries).*2) /\
  auto_completed st' =
    auto_completed st +
    length (filter (fun e => auto_marked p subm h e = true) entries) /\
  removed st' =
    removed st + length (filter (fun e => dropped p subm h e = true) entries) /\
  length (heap st') = length h /\
  forall j r, h !! j = Some r ->
    heap st' !! j =
    Some (if decide (j ∈ auto_marked_rows p subm h entries)
          then mark_completed r else r).
Proof.
  induction entries as [|[cid i] entries IH]; intros st st'.
  - simpl. intros [= <-] _. rewrite app_nil_r, !Nat.add_0_r.
    split_and!; done.
  - rewrite tracked_loop_cons.
    destruct (tracked_step subm st (cid, i)) as [st1|] eqn:Hstep; [|done].
    intros Hloop [Hi Hnd]%NoDup_cons.
    apply tracked_step_inv in Hstep as (Hp1 & Hn1 & Ha1 & Hr1 & Hh1).
    destruct (IH _ _ Hloop Hnd) as (Hp & Hn & Ha & Hr & Hlen & Hh).
    clear IH Hloop. rewrite Hp1 in *.
    set (h := heap st) in *. set (p := processed_ids st) in *.
    assert (forall e, e ∈ entries -> completed_at (heap st1) e.2 = completed_at h e.2)
      as Hsame.
    { intros [k' i'] Hin. simpl. rewrite Hh1.
      destruct (auto_marked p subm h (cid, i)); [|done].
      destruct (h !! i); [|done]. apply completed_at_insert_ne.
      intros ->. apply Hi. apply list_elem_of_fmap. by exists (k', i'). }
    assert (filter (fun e => kept p subm (heap st1) e = true) entries =
            filter (fun e => kept p subm h e = true) entries) as Ek.
    { apply filter_agree. intros e He. unfold kept. by rewrite Hsame. }
    assert (filter (fun e => auto_marked p subm (heap st1) e = true) entries =
            filter (fun e => auto_marked p subm h e = true) entries) as Ea.
    { apply filter_agree. intros e He. unfold auto_marked. by rewrite Hsame. }
    assert (filter (fun e => dropped p subm (heap st1) e = true) entries =
            filter (fun e => dropped p subm h e = true) entries) as Ed.
    { apply filter_agree. intros e He. unfold dropped. by rewrite Hsame. }
    unfold auto_marked_rows in *. rewrite Ek, Ea, Ed in *.
    rewrite !filter_cons.
    split_and!.
    + done.
    + rewrite Hn, Hn1, <- app_assoc. f_equal.
      destruct (kept p subm h (cid, i)); [by rewrite decide_True|].
      by rewrite decide_False.
    + rewrite Ha, Ha1.
      destruct (auto_marked p subm h (cid, i));
        [rewrite decide_True by done | rewrite decide_False by done]; simpl; lia.
    + rewrite Hr, Hr1.
      destruct (dropped p subm h (cid, i));
        [rewrite decide_True by done | rewrite decide_False by done]; simpl; lia.
    + rewrite Hlen, Hh1. destruct (auto_marked p subm h (cid, i)); [|done].
      destruct (h !! i); [apply length_insert | done].
    + intros j r Hj.
      assert (i ∉ (filter (fun e => auto_marked p subm h e = true) entries).*2)
        as Hi'.
      { intros ([k' i'] & ? & [_ ?]%list_elem_of_filter)%list_elem_of_fmap.
        simpl in *; subst. apply Hi. apply list_elem_of_fmap. by exists (k', i'). }
      destruct (auto_marked p subm h (cid, i)) eqn:Hauto.
      * destruct (decide (true = true)) as [_|?]; [|done]. csimpl.
        destruct (decide (j = i)) as [->|Hne].
        -- rewrite Hj in Hh1.
           rewrite (Hh i (mark_completed r)).
           ++ rewrite decide_False by done.
              rewrite decide_True; [done | apply list_elem_of_here].
           ++ rewrite Hh1. apply list_lookup_insert_eq. by eapply lookup_lt_Some.
        -- rewrite (Hh j r).
           ++ destruct (decide (j ∈ _)) as [Hin|Hnin].
              ** rewrite decide_True; [done | by apply list_elem_of_further].
              ** rewrite decide_False; [done|].
                 intros [?|?]%elem_of_cons; done.
           ++ rewrite Hh1. destruct (h !! i); [|done].
              by rewrite list_lookup_insert_ne.
      * destruct (decide (false = true)) as [?|_]; [done|].
        rewrite (Hh j r); [done|].
        by rewrite Hh1.
Qed.

(** ** The merge as a whole *)

Lemma NoDup_snd_of_fst {A B} (l : list (A * B)) :
  NoDup l.*1 ->
  (forall a a' b, (a, b) ∈ l -> (a', b) ∈ l -> a = a') ->
  NoDup l.*2.
Proof.
  induction l as [|[a b] l IH]; csimpl; [constructor|].
  intros [Ha Hnd]%NoDup_cons Hinj. apply NoDup_cons. split.
  - intros ([a' b'] & ? & Hin)%list_elem_of_fmap. simpl in *; subst.
    assert (a = a') as ->.
    { apply (Hinj a a' b'); [apply list_elem_of_here|].
      by apply list_elem_of_further. }
    apply Ha. apply list_elem_of_fmap. by exists (a', b').
  - apply IH; [done|]. intros a1 a2 b0 H1 H2.
    apply (Hinj a1 a2 b0); by apply list_elem_of_further.
Qed.

Lemma NoDup_filter_snd {A B} (P : A * B -> Prop) `{!forall x, Decision (P x)}
    (l : list (A * B)) :
  NoDup l.*2 -> NoDup (filter P l).*2.
Proof.
  induction l as [|[a b] l IH]; csimpl; [done|].
  intros [Hb Hnd]%NoDup_cons. rewrite filter_cons.
  destruct (decide (P (a, b))); csimpl; [|by apply IH].
  apply NoDup_cons. split; [|by apply IH].
  intros ([a' b'] & ? & [_ Hin]%list_elem_of_filter)%list_elem_of_fmap.
  simpl in *; subst. apply Hb. apply list_elem_of_fmap. by exists (a', b').
Qed.

Lemma split_rows_by_id existing manual by_id :
  split_rows 0 existing [] [] = Ok (manual, by_id) ->
  NoDup by_id.*1 /\ keys_ok by_id existing /\ NoDup by_id.*2.
Proof.
  intros H.
  assert (NoDup by_id.*1) as Hnd.
  { eapply split_rows_NoDup; [done | constructor]. }
  assert (keys_ok by_id existing) as Hok.
  { intros k i Hin. apply kdict_elem_of_get in Hin; [|done].
    rewrite (split_rows_get k _ _ _ _ _ _ H) in Hin. simpl in Hin.
    destruct (last_idx k 0 existing) as [j|] eqn:E; [|done].
    injection Hin as ->.
    apply last_idx_Some in E as (n & r & -> & ? & ?). by exists r. }
  split_and!; [done | done |].
  apply NoDup_snd_of_fst; [done|]. intros. by eapply keys_ok_inj.
Qed.

(** The row that [by_canvas_id] holds for a key is the last local row with
    that key. *)
Lemma split_rows_last existing manual by_id i r k :
  split_rows 0 existing [] [] = Ok (manual, by_id) ->
  existing !! i = Some r -> row_key r = Some k ->
  (forall j r', i < j -> existing !! j = Some r' -> row_key r' ≠ Some k) ->
  kdict_get k by_id = Some i.
Proof.
  intros H Hi Hk Hlast.
  rewrite (split_rows_get k _ _ _ _ _ _ H).
  by rewrite (last_idx_last k 0 existing i r).
Qed.

Lemma upcoming_canvas_ids_elem_of ups keys k :
  upcoming_canvas_ids ups = Ok keys ->
  k ∈ keys <-> exists ca, ca ∈ ups /\ hash_key (u_canvas_id ca) = Some k.
Proof.
  revert keys. induction ups as [|ca ups IH]; intros keys; simpl.
  - intros [= <-]. split; [by intros ?%elem_of_nil|].
    by intros (ca & ?%elem_of_nil & _).
  - destruct (hash_key (u_canvas_id ca)) as [k0|] eqn:Hk0; [|done].
    destruct (upcoming_canvas_ids ups) as [s|]; [|done]. simpl.
    intros [= <-]. rewrite elem_of_cons, (IH s eq_refl). split.
    + intros [->|(ca' & ? & ?)].
      * exists ca. split; [apply list_elem_of_here | done].
      * exists ca'. split; [by apply list_elem_of_further | done].
    + intros (ca' & [->|?]%elem_of_cons & ?).
      * left. congruence.
      * right. by exists ca'.
Qed.

Lemma upcoming_canvas_ids_keys ups keys :
  upcoming_canvas_ids ups = Ok keys ->
  Forall2 (fun ca k => hash_key (u_canvas_id ca) = Some k) ups keys.
Proof.
  revert keys. induction ups as [|ca ups IH]; intros keys; simpl.
  - intros [= <-]. constructor.
  - destruct (hash_key (u_canvas_id ca)) as [k0|] eqn:Hk0; [|done].
    destruct (upcoming_canvas_ids ups) as [s|]; [|done]. simpl.
    intros [= <-]. constructor; [done | by apply IH].
Qed.

Section MergeWhole.

Variable uuid4 : nat -> string.

Lemma merge_inv ups subm existing m :
  merge uuid4 ups subm existing = Ok m ->
  exists keys st1,
    split_rows 0 existing [] [] = Ok (m_manual m, m_by_canvas_id m) /\
    upcoming_canvas_ids ups = Ok keys /\
    upcoming_loop uuid4 (m_by_canvas_id m) (merge_init existing) ups = Ok st1 /\
    tracked_loop subm st1 (m_by_canvas_id m) = Ok (m_state m).
Proof.
  unfold merge.
  destruct (split_rows 0 existing [] []) as [[manual by_id]|]; [|done]. simpl.
  destruct (upcoming_canvas_ids ups) as [keys|]; [|done]. simpl.
  fold (merge_init existing).
  destruct (upcoming_loop uuid4 by_id (merge_init existing) ups) as [st1|] eqn:H1;
    [|done]. simpl.
  destruct (tracked_loop subm st1 by_id) as [st2|] eqn:H2; [|done]. simpl.
  intros [= <-]. simpl. by exists keys, st1.
Qed.

(** What the two loops leave, in terms of the inputs of the merge. *)
Lemma merge_spec ups subm existing m keys :
  merge uuid4 ups subm existing = Ok m ->
  upcoming_canvas_ids ups = Ok keys ->
  let by_id := m_by_canvas_id m in
  let st := m_state m in
  exists st1 slots,
    upcoming_loop uuid4 by_id (merge_init existing) ups = Ok st1 /\
    keys_ok by_id (heap st1) /\
    (forall k, k ∈ processed_ids st1 <-> k ∈ keys) /\
    Forall2 (slot_for by_id) ups slots /\
    new_canvas_rows st =
      slots ++ (Ref <$> (filter (fun e => kept keys subm existing e = true) by_id).*2) /\
    auto_completed st = length (auto_marked_rows keys subm existing by_id) /\
    removed st =
      length (filter (fun e => dropped keys subm existing e = true) by_id) /\
    (forall j r, heap st1 !! j = Some r ->
       heap st !! j =
       Some (if decide (j ∈ auto_marked_rows keys subm existing by_id)
             then mark_completed r else r)).
Proof.
  intros Hm Hkeys by_id st.
  destruct (merge_inv _ _ _ _ Hm) as (keys' & st1 & Hsplit & Hkeys' & H1 & H2).
  assert (keys' = keys) as -> by congruence.
  destruct (split_rows_by_id _ _ _ Hsplit) as (Hnd1 & Hok & Hnd2).
  fold by_id in Hsplit, H1, H2, Hnd1, Hok, Hnd2.
  assert (keys_ok by_id (heap st1)) as Hok1.
  { by apply (upcoming_loop_keys_ok _ _ _ _ _ H1). }
  assert (forall k, k ∈ processed_ids st1 <-> k ∈ keys) as Hproc.
  { intros k. rewrite (upcoming_loop_processed _ _ _ _ _ k H1).
    rewrite (upcoming_canvas_ids_elem_of _ _ k Hkeys). simpl.
    split; [intros [?%elem_of_nil|?]; done | by right]. }
  destruct (upcoming_loop_slots _ _ _ _ _ H1) as (slots & Hslots & Hall).
  destruct (upcoming_loop_counters _ _ _ _ _ H1) as [Hrem Hauto].
  simpl in Hslots, Hrem, Hauto.
  destruct (tracked_loop_spec _ _ _ _ H2 Hnd2) as (Hp & Hn & Ha & Hr & _ & Hh).
  fold st in Hp, Hn, Ha, Hr, Hh.
  assert (forall k, kset_mem k (processed_ids st1) = kset_mem k keys) as Hmem.
  { intros k. destruct (kset_mem k keys) eqn:E.
    - apply kset_mem_elem_of. apply Hproc. by apply kset_mem_elem_of.
    - apply kset_mem_not_elem_of. rewrite Hproc.
      by apply kset_mem_not_elem_of. }
  assert (forall e, e ∈ by_id -> kset_mem e.1 keys = false ->
            completed_at (heap st1) e.2 = completed_at existing e.2) as Hcomp.
  { intros [k i] Hin Hk. simpl in *. unfold completed_at.
    destruct (Hok _ _ Hin) as (r & Hr0 & _). rewrite Hr0.
    destruct (upcoming_loop_heap _ _ _ _ _ _ _ H1 Hr0) as (r' & -> & _ & Hsame).
    rewrite Hsame; [done|].
    intros ca Hca (cid & Hcid & Hget).
    apply kdict_get_Some_elem_of in Hget.
    assert (cid = k) as -> by (by eapply keys_ok_inj).
    apply kset_mem_not_elem_of in Hk. apply Hk.
    apply (upcoming_canvas_ids_elem_of _ _ k Hkeys). by exists ca. }
  assert (filter (fun e => kept (processed_ids st1) subm (heap st1) e = true) by_id =
          filter (fun e => kept keys subm existing e = true) by_id) as Ek.
  { apply filter_agree. intros e He. unfold kept. rewrite Hmem.
    destruct (kset_mem e.1 keys) eqn:E; [done|]. by rewrite Hcomp. }
  assert (filter (fun e => auto_marked (processed_ids st1) subm (heap st1) e = true) by_id =
          filter (fun e => auto_marked keys subm existing e = true) by_id) as Ea.
  { apply filter_agree. intros e He. unfold auto_marked. rewrite Hmem.
    destruct (kset_mem e.1 keys) eqn:E; [done|]. by rewrite Hcomp. }
  assert (filter (fun e => dropped (processed_ids st1) subm (heap st1) e = true) by_id =
          filter (fun e => dropped keys subm existing e = true) by_id) as Ed.
  { apply filter_agree. intros e He. unfold dropped. rewrite Hmem.
    destruct (kset_mem e.1 keys) eqn:E; [done|]. by rewrite Hcomp. }
  unfold auto_marked_rows in *. rewrite Ek, Ea, Ed in *.
  exists st1, slots. split_and!; try done.
  - by rewrite Hn, Hslots.
  - rewrite Ha, Hauto. by rewrite length_fmap.
  - by rewrite Hr, Hrem.
Qed.

End MergeWhole.

Section MergeClaims.

Variable uuid4 : nat -> string.

Lemma merge_final_heap ups subm existing m keys j r :
  merge uuid4 ups subm existing = Ok m ->
  upcoming_canvas_ids ups = Ok keys ->
  existing !! j = Some r ->
  exists r1,
    (forall f, ~ remote_owned f -> dict_get f r1 = dict_get f r) /\
    ((forall ca, ca ∈ ups -> ~ touches (m_by_canvas_id m) ca j) -> r1 = r) /\
    heap (m_state m) !! j =
    Some (if decide (j ∈ auto_marked_rows keys subm existing (m_by_canvas_id m))
          then mark_completed r1 else r1).
Proof.
  intros Hm Hkeys Hj.
  destruct (merge_spec _ _ _ _ _ _ Hm Hkeys)
    as (st1 & slots & H1 & _ & _ & _ & _ & _ & _ & Hh).
  destruct (upcoming_loop_heap _ _ _ _ _ _ _ H1 Hj) as (r1 & Hr1 & Hf & Hsame).
  exists r1. split_and!; [done | done | by apply Hh].
Qed.

Lemma merge_keys_ok ups subm existing m :
  merge uuid4 ups subm existing = Ok m ->
  NoDup (m_by_canvas_id m).*1 /\
  keys_ok (m_by_canvas_id m) existing /\
  keys_ok (m_by_canvas_id m) (heap (m_state m)).
Proof.
  intros Hm.
  destruct (merge_inv _ _ _ _ _ Hm) as (keys & st1 & Hsplit & Hkeys & _ & _).
  destruct (split_rows_by_id _ _ _ Hsplit) as (Hnd & Hok & _).
  split_and!; [done | done |].
  intros k i Hin. destruct (Hok _ _ Hin) as (r & Hr & Hk).
  destruct (merge_final_heap _ _ _ _ _ _ _ Hm Hkeys Hr) as (r1 & Hf & _ & ->).
  assert (row_key r1 = Some k) as Hk1.
  { unfold row_key in *. rewrite Hf; [done|].
    unfold remote_owned. intros [?|[?|[?|?]]]; discriminate. }
  eexists. split; [done|].
  destruct (decide _); [by rewrite row_key_mark_completed | done].
Qed.

(** A position that [by_canvas_id] does not reference holds the same row
    after the merge. *)
Lemma merge_frame ups subm existing m j :
  merge uuid4 ups subm existing = Ok m ->
  (forall k, (k, j) ∉ m_by_canvas_id m) ->
  heap (m_state m) !! j = existing !! j.
Proof.
  intros Hm Hj.
  destruct (merge_inv _ _ _ _ _ Hm) as (keys & st1 & Hsplit & Hkeys & H1 & H2).
  destruct (existing !! j) as [r|] eqn:Hr.
  - destruct (merge_final_heap _ _ _ _ _ _ _ Hm Hkeys Hr) as (r1 & _ & Hsame & ->).
    rewrite Hsame.
    + rewrite decide_False; [done|].
      intros ([k j'] & ? & [_ Hin]%list_elem_of_filter)%list_elem_of_fmap.
      simpl in *; subst. by apply (Hj k).
    + intros ca _ (cid & _ & Hget%kdict_get_Some_elem_of). by apply (Hj cid).
  - apply lookup_ge_None. apply lookup_ge_None in Hr.
    destruct (split_rows_by_id _ _ _ Hsplit) as (_ & _ & Hnd2).
    destruct (tracked_loop_spec _ _ _ _ H2 Hnd2) as (_ & _ & _ & _ & -> & _).
    by rewrite (upcoming_loop_length _ _ _ _ _ H1).
Qed.

Lemma slot_for_not_manual by_id h ca s :
  keys_ok by_id h -> slot_for by_id ca s ->
  row_key (deref h s) = hash_key (u_canvas_id ca) /\ is_manual (deref h s) = false.
Proof.
  intros Hok (cid & Hcid & [(i & -> & Hi)|(id & -> & _)]).
  - apply kdict_get_Some_elem_of in Hi.
    destruct (Hok _ _ Hi) as (r & Hr & Hk). simpl. rewrite Hr.
    split; [congruence|]. unfold is_manual, dict_mem, row_key in *.
    by destruct (dict_get "canvas_id" r).
  - done.
Qed.

(** The list [sync] writes: the manual rows of the input, in their order,
    then rows that all have a [canvas_id]. *)
Lemma saved_rows_split ups subm existing m :
  merge uuid4 ups subm existing = Ok m ->
  let canvas_rows :=
    deref (heap (m_state m)) <$> new_canvas_rows (m_state m) in
  saved_rows m = filter (fun r => is_manual r = true) existing ++ canvas_rows /\
  Forall (fun r => is_manual r = false) canvas_rows.
Proof.
  intros Hm canvas_rows.
  destruct (merge_inv _ _ _ _ _ Hm) as (keys & st1 & Hsplit & Hkeys & _ & _).
  destruct (merge_keys_ok _ _ _ _ Hm) as (Hnd & Hok & Hokf).
  split.
  - unfold saved_rows. rewrite map_app. f_equal.
    rewrite (split_rows_manual _ _ _ _ _ _ Hsplit). simpl.
    change (map (deref (heap (m_state m))) (map Ref (manual_from 0 existing)))
      with (deref (heap (m_state m)) <$> (Ref <$> manual_from 0 existing)).
    rewrite <- list_fmap_compose.
    transitivity (default [] <$> ((fun j => existing !! j) <$> manual_from 0 existing)).
    + rewrite <- list_fmap_compose. apply Forall_fmap_ext, Forall_forall.
      intros j (n & r & -> & Hn & Hman)%manual_from_elem_of. simpl.
      rewrite (merge_frame _ _ _ _ _ Hm); [done|].
      intros k Hin. destruct (Hok _ _ Hin) as (r' & Hr' & Hk').
      apply is_manual_row_key in Hman. congruence.
    + pose proof (manual_from_lookup [] existing) as E. simpl in E.
      rewrite E, <- list_fmap_compose.
      simpl. apply list_fmap_id.
  - destruct (merge_spec _ _ _ _ _ _ Hm Hkeys)
      as (_ & slots & _ & _ & _ & Hall & Hnew & _).
    unfold canvas_rows. rewrite Hnew, fmap_app. apply Forall_app. split.
    + apply Forall_fmap, Forall_forall. intros s Hs.
      apply list_elem_of_lookup in Hs as [n Hn].
      destruct (Forall2_lookup_r _ _ _ _ _ Hall Hn) as (ca & _ & Hslot).
      by destruct (slot_for_not_manual _ _ _ _ Hokf Hslot).
    + rewrite <- !list_fmap_compose. apply Forall_fmap, Forall_forall.
      intros [k i] [_ Hin]%list_elem_of_filter. simpl.
      destruct (Hokf _ _ Hin) as (r & -> & Hk).
      unfold is_manual, dict_mem, row_key in *.
      by destruct (dict_get "canvas_id" r).
Qed.

(** The part of C4 on [sync]: a local row whose [completed] is truthy is,
    after the merge, a row whose [completed] is truthy. *)
Lemma merge_keeps_completed ups subm existing m i r :
  merge uuid4 ups subm existing = Ok m ->
  existing !! i = Some r ->
  truthy (get_or_none "completed" r) = true ->
  exists r', heap (m_state m) !! i = Some r' /\
    truthy (get_or_none "completed" r') = true.
Proof.
  intros Hm Hi Hc.
  destruct (merge_inv _ _ _ _ _ Hm) as (keys & _ & _ & Hkeys & _ & _).
  destruct (merge_final_heap _ _ _ _ _ _ _ Hm Hkeys Hi) as (r1 & Hf & _ & ->).
  eexists. split; [done|].
  destruct (decide _); [apply truthy_mark_completed|].
  unfold get_or_none in *. rewrite Hf; [done|].
  unfold remote_owned. intros [?|[?|[?|?]]]; discriminate.
Qed.

Lemma auto_marked_rows_elem_of keys subm existing by_id k i :
  keys_ok by_id existing -> (k, i) ∈ by_id ->
  i ∈ auto_marked_rows keys subm existing by_id <->
  auto_marked keys subm existing (k, i) = true.
Proof.
  intros Hok Hin. unfold auto_marked_rows. rewrite list_elem_of_fmap. split.
  - intros ([k' i'] & ? & [Ha Hin']%list_elem_of_filter). simpl in *; subst.
    by rewrite (keys_ok_inj _ _ _ _ _ Hok Hin Hin').
  - intros Ha. exists (k, i). split; [done|]. by apply list_elem_of_filter.
Qed.

Lemma saved_rows_ref m i r :
  Ref i ∈ new_canvas_rows (m_state m) ->
  heap (m_state m) !! i = Some r ->
  r ∈ saved_rows m.
Proof.
  intros Hin Hr. unfold saved_rows. apply list_elem_of_In, in_map_iff.
  exists (Ref i). simpl. rewrite Hr. split; [done|].
  apply in_or_app. right. by apply list_elem_of_In.
Qed.

(** C5. A tracked row that is no longer upcoming and whose id is in the
    done set stays in the list: unchanged when its [completed] was truthy,
    with [completed] set to [True] otherwise; and it is one of the rows
    [auto_completed] counts exactly when its [completed] was not truthy.
    The row is the one [by_canvas_id] holds for its id: no later local
    row has the same id, which is so for every row when the local ids
    are pairwise distinct as the data model requires
    ([distinct_ids_last]). *)
Theorem done_row_kept_and_completed ups subm existing m keys i r k c :
  merge uuid4 ups subm existing = Ok m ->
  upcoming_canvas_ids ups = Ok keys ->
  existing !! i = Some r ->
  row_key r = Some k ->
  (forall j r', i < j -> existing !! j = Some r' -> row_key r' ≠ Some k) ->
  k ∉ keys ->
  k ∈ subm ->
  let st := m_state m in
  let counted := auto_marked_rows keys subm existing (m_by_canvas_id m) in
  let r' := if truthy (get_or_none "completed" r) then r else mark_completed r in
  Ref i ∈ new_canvas_rows st /\
  heap st !! i = Some r' /\
  r' ∈ saved_rows m /\
  truthy (get_or_none "completed" r') = true /\
  s_auto_completed (merge_summary c m) = length counted /\
  NoDup counted /\
  (i ∈ counted <-> truthy (get_or_none "completed" r) = false).
Proof.
  intros Hm Hkeys Hi Hk Hlast Hup Hdone st counted r'.
  destruct (merge_inv _ _ _ _ _ Hm) as (keys' & _ & Hsplit & Hkeys' & _ & _).
  assert (keys' = keys) as -> by congruence.
  destruct (merge_keys_ok _ _ _ _ Hm) as (Hnd & Hok & _).
  pose proof (split_rows_last _ _ _ _ _ _ Hsplit Hi Hk Hlast) as Hget.
  apply kdict_get_Some_elem_of in Hget as Hin.
  apply kset_mem_not_elem_of in Hup as Hup'.
  apply kset_mem_elem_of in Hdone as Hdone'.
  assert (completed_at existing i = truthy (get_or_none "completed" r)) as Hc.
  { unfold completed_at. by rewrite Hi. }
  assert (i ∈ counted <-> truthy (get_or_none "completed" r) = false) as Hcount.
  { unfold counted. rewrite (auto_marked_rows_elem_of _ _ _ _ k i Hok Hin).
    unfold auto_marked. simpl. rewrite Hup', Hdone', Hc. simpl.
    by destruct (truthy _). }
  destruct (merge_spec _ _ _ _ _ _ Hm Hkeys)
    as (_ & slots & _ & _ & _ & _ & Hnew & Hauto & _).
  assert (Ref i ∈ new_canvas_rows st) as Hkept.
  { unfold st. rewrite Hnew. apply elem_of_app. right.
    apply list_elem_of_fmap. exists i. split; [done|].
    apply list_elem_of_fmap. exists (k, i). split; [done|].
    apply list_elem_of_filter. split; [|done].
    unfold kept. simpl. by rewrite Hup', Hdone'. }
  assert (heap st !! i = Some r') as Hheap.
  { destruct (merge_final_heap _ _ _ _ _ _ _ Hm Hkeys Hi) as (r1 & _ & Hsame & Hfin).
    unfold st. rewrite Hfin, Hsame.
    - unfold r'. fold counted. destruct (decide (i ∈ counted)) as [Hy|Hn].
      + apply Hcount in Hy. by rewrite Hy.
      + destruct (truthy (get_or_none "completed" r)); [done|].
        destruct Hn. by apply Hcount.
    - intros ca Hca (cid & Hcid & Hget2%kdict_get_Some_elem_of).
      assert (cid = k) as -> by (by eapply keys_ok_inj).
      apply Hup. apply (upcoming_canvas_ids_elem_of _ _ k Hkeys). by exists ca. }
  split_and!; [done | done | by eapply saved_rows_ref | | done | | done].
  - unfold r'. destruct (truthy (get_or_none "completed" r)) eqn:E; [done|].
    apply truthy_mark_completed.
  - apply NoDup_filter_snd, NoDup_snd_of_fst; [done|].
    intros. by eapply keys_ok_inj.
Qed.

(** C10. A tracked row whose id is both upcoming and in the done set is
    treated as upcoming: it stays in the list with the title, course and
    due date of an upcoming entry with its id, its [completed] is the one
    it had, and it is not among the rows [auto_completed] counts. As for
    C5 the row is the one [by_canvas_id] holds for its id. *)
Theorem upcoming_takes_precedence ups subm existing m keys i r k c :
  merge uuid4 ups subm existing = Ok m ->
  upcoming_canvas_ids ups = Ok keys ->
  existing !! i = Some r ->
  row_key r = Some k ->
  (forall j r', i < j -> existing !! j = Some r' -> row_key r' ≠ Some k) ->
  k ∈ keys ->
  k ∈ subm ->
  let st := m_state m in
  let counted := auto_marked_rows keys subm existing (m_by_canvas_id m) in
  exists ca r',
    ca ∈ ups /\ hash_key (u_canvas_id ca) = Some k /\
    Ref i ∈ new_canvas_rows st /\
    heap st !! i = Some r' /\
    r' ∈ saved_rows m /\
    dict_get "title" r' = Some (u_title ca) /\
    dict_get "course" r' = Some (u_course ca) /\
    dict_get "due_date" r' = Some (VStr (u_due_date ca)) /\
    dict_get "completed" r' = dict_get "completed" r /\
    s_auto_completed (merge_summary c m) = length counted /\
    NoDup counted /\
    i ∉ counted.
Proof.
  intros Hm Hkeys Hi Hk Hlast Hup Hdone st counted.
  destruct (merge_inv _ _ _ _ _ Hm) as (keys' & _ & Hsplit & Hkeys' & _ & _).
  assert (keys' = keys) as -> by congruence.
  destruct (merge_keys_ok _ _ _ _ Hm) as (Hnd & Hok & _).
  pose proof (split_rows_last _ _ _ _ _ _ Hsplit Hi Hk Hlast) as Hget.
  apply kdict_get_Some_elem_of in Hget as Hin.
  apply kset_mem_elem_of in Hup as Hup'.
  assert (i ∉ counted) as Hcount.
  { unfold counted. rewrite (auto_marked_rows_elem_of _ _ _ _ k i Hok Hin).
    unfold auto_marked. simpl. by rewrite Hup'. }
  destruct (merge_spec _ _ _ _ _ _ Hm Hkeys)
    as (st1 & slots & H1 & _ & _ & Hall & Hnew & Hauto & _ & Hh).
  apply (upcoming_canvas_ids_elem_of _ _ k Hkeys) in Hup as Hex.
  destruct (upcoming_loop_refreshed _ _ _ _ _ _ _ H1 Hok Hget Hex)
    as (ca & r0 & Hca & Hcak & Hr1).
  destruct (upcoming_loop_heap _ _ _ _ _ _ _ H1 Hi) as (r1 & Hr1' & Hf & _).
  simpl in Hr1'. assert (r1 = refresh_row r0 ca) as -> by congruence.
  exists ca, (refresh_row r0 ca).
  assert (heap st !! i = Some (refresh_row r0 ca)) as Hheap.
  { unfold st. rewrite (Hh _ _ Hr1). fold counted. by rewrite decide_False. }
  assert (Ref i ∈ new_canvas_rows st) as Hkept.
  { unfold st. rewrite Hnew. apply elem_of_app. left.
    apply list_elem_of_lookup in Hca as [n Hn].
    destruct (Forall2_lookup_l _ _ _ _ _ Hall Hn) as (s & Hs & Hslot).
    apply list_elem_of_lookup. exists n. rewrite Hs. f_equal.
    destruct Hslot as (cid & Hcid & [(i' & -> & Hi')|(id & _ & Hnone)]);
      congruence. }
  split_and!; try done.
  - by eapply saved_rows_ref.
  - unfold refresh_row. rewrite !dict_get_set_ne by done.
    apply dict_get_set_eq.
  - unfold refresh_row. rewrite !dict_get_set_ne by done.
    apply dict_get_set_eq.
  - unfold refresh_row. rewrite !dict_get_set_ne by done.
    apply dict_get_set_eq.
  - apply Hf. unfold remote_owned. intros [?|[?|[?|?]]]; discriminate.
  - apply NoDup_filter_snd, NoDup_snd_of_fst; [done|].
    intros. by eapply keys_ok_inj.
Qed.

Lemma filter_manual_nil (l : list row) :
  Forall (fun r => is_manual r = false) l ->
  filter (fun r => is_manual r = true) l = [].
Proof.
  induction 1 as [|r l Hr _ IH]; [done|].
  rewrite filter_cons, decide_False; [done | congruence].
Qed.

(** C3. Every local row without [canvas_id] is in the list [sync] writes,
    as it was: the manual rows of the output are the manual rows of the
    input, in the same order and the same number, and they come first. *)
Theorem manual_rows_pass_through ups subm existing m :
  merge uuid4 ups subm existing = Ok m ->
  (forall r, r ∈ existing -> is_manual r = true -> r ∈ saved_rows m) /\
  filter (fun r => is_manual r = true) (saved_rows m) =
    filter (fun r => is_manual r = true) existing /\
  exists canvas_rows,
    saved_rows m = filter (fun r => is_manual r = true) existing ++ canvas_rows /\
    Forall (fun r => is_manual r = false) canvas_rows.
Proof.
  intros Hm. destruct (saved_rows_split _ _ _ _ Hm) as [Hsaved Hcanvas].
  split_and!.
  - intros r Hin Hman. rewrite Hsaved. apply elem_of_app. left.
    by apply list_elem_of_filter.
  - rewrite Hsaved, filter_app, list_filter_filter.
    rewrite (filter_agree _ (fun r => is_manual r = true) existing) by tauto.
    rewrite <- (app_nil_r (filter _ existing)) at 2. f_equal.
    by apply filter_manual_nil.
  - eexists. by split.
Qed.

End MergeClaims.

(** ** When the merge returns, and when the ids it writes are distinct *)

Lemma split_rows_total rows : forall i manual by_id,
  hashable_rows rows ->
  exists manual' by_id', split_rows i rows manual by_id = Ok (manual', by_id').
Proof.
  induction rows as [|r rows IH]; intros i manual by_id Hh; simpl.
  - by eexists _, _.
  - apply Forall_cons in Hh as [Hr Hrows].
    destruct (dict_get "canvas_id" r) as [v|]; [|by apply IH].
    destruct (Hr v eq_refl) as [k ->]. by apply IH.
Qed.

Lemma upcoming_canvas_ids_total ups :
  hashable_upcoming ups -> exists keys, upcoming_canvas_ids ups = Ok keys.
Proof.
  induction 1 as [|ca ups [k Hk] _ [keys IH]]; simpl.
  - by eexists.
  - rewrite Hk, IH. by eexists.
Qed.

Lemma tracked_loop_total subm entries : forall st,
  (forall k i, (k, i) ∈ entries -> i < length (heap st)) ->
  exists st', tracked_loop subm st entries = Ok st'.
Proof.
  induction entries as [|[cid i] entries IH]; intros st Hin.
  - by eexists.
  - rewrite tracked_loop_cons.
    assert (is_Some (heap st !! i)) as [r Hr].
    { apply lookup_lt_is_Some. apply (Hin cid). apply list_elem_of_here. }
    assert (exists st1, tracked_step subm st (cid, i) = Ok st1) as [st1 Hstep].
    { unfold tracked_step. rewrite Hr.
      destruct (kset_mem cid (processed_ids st)); [by eexists|].
      destruct (kset_mem cid subm); [by eexists|].
      destruct (truthy (get_or_none "completed" r)); by eexists. }
    rewrite Hstep. apply IH. intros k j Hj.
    apply tracked_step_inv in Hstep as (_ & _ & _ & _ & ->).
    assert (j < length (heap st)) as Hlt.
    { apply (Hin k). by apply list_elem_of_further. }
    destruct (auto_marked _ _ _ _); [|done].
    rewrite Hr. by rewrite length_insert.
Qed.

Section MergeTotal.

Variable uuid4 : nat -> string.

Lemma upcoming_loop_total by_id ups : forall st,
  keys_ok by_id (heap st) -> hashable_upcoming ups ->
  exists st', upcoming_loop uuid4 by_id st ups = Ok st'.
Proof.
  induction ups as [|ca ups IH]; intros st Hok Hh; simpl.
  - by eexists.
  - apply Forall_cons in Hh as [[cid Hcid] Hups].
    assert (exists st1, upcoming_step uuid4 by_id st ca = Ok st1) as [st1 Hstep].
    { unfold upcoming_step. rewrite Hcid.
      destruct (kdict_get cid by_id) as [i|] eqn:Hi; [|by eexists].
      apply kdict_get_Some_elem_of in Hi.
      destruct (Hok _ _ Hi) as (r & -> & _). by eexists. }
    rewrite Hstep. simpl. apply IH; [|done].
    apply (upcoming_loop_keys_ok uuid4 by_id [ca] st); [|done].
    simpl. by rewrite Hstep.
Qed.

(** The merge returns whenever every id it uses as a key is hashable. *)
Lemma merge_total ups subm existing :
  hashable_rows existing -> hashable_upcoming ups ->
  exists m, merge uuid4 ups subm existing = Ok m.
Proof.
  intros Hrows Hups. unfold merge.
  destruct (split_rows_total existing 0 [] [] Hrows) as (manual & by_id & Hsplit).
  rewrite Hsplit. simpl.
  destruct (upcoming_canvas_ids_total ups Hups) as [keys ->]. simpl.
  destruct (split_rows_by_id _ _ _ Hsplit) as (_ & Hok & _).
  fold (merge_init existing).
  destruct (upcoming_loop_total by_id ups (merge_init existing) Hok Hups)
    as [st1 H1].
  rewrite H1. simpl.
  destruct (tracked_loop_total subm by_id st1) as [st2 ->]; [|by eexists].
  intros k i Hin.
  destruct (upcoming_loop_keys_ok _ _ _ _ _ H1 Hok _ _ Hin) as (r & Hr & _).
  by eapply lookup_lt_Some.
Qed.

Lemma NoDup_filter_fst {A B} (P : A * B -> Prop) `{!forall x, Decision (P x)}
    (l : list (A * B)) :
  NoDup l.*1 -> NoDup (filter P l).*1.
Proof.
  induction l as [|[a b] l IH]; csimpl; [done|].
  intros [Ha Hnd]%NoDup_cons. rewrite filter_cons.
  destruct (decide (P (a, b))); csimpl; [|by apply IH].
  apply NoDup_cons. split; [|by apply IH].
  intros ([a' b'] & ? & [_ Hin]%list_elem_of_filter)%list_elem_of_fmap.
  simpl in *; subst. apply Ha. apply list_elem_of_fmap. by exists (a', b').
Qed.

Lemma omap_row_key_slots (h : list row) (slots : list slot) (keys : list key) :
  Forall2 (fun s k => row_key (deref h s) = Some k) slots keys ->
  omap row_key (deref h <$> slots) = keys.
Proof.
  induction 1 as [|s k slots keys Hs _ IH]; csimpl; [done|].
  by rewrite Hs, IH.
Qed.

Lemma omap_row_key_manual (rows : list row) :
  omap row_key (filter (fun r => is_manual r = true) rows) = [].
Proof.
  induction rows as [|r l IH]; [done|].
  rewrite filter_cons. destruct (decide (is_manual r = true)) as [E|]; [|done].
  csimpl. by rewrite (is_manual_row_key _ E).
Qed.

(** When the upcoming entries have pairwise distinct ids, so have the
    rows [sync] writes. *)
Lemma merge_distinct_ids ups subm existing m keys :
  merge uuid4 ups subm existing = Ok m ->
  upcoming_canvas_ids ups = Ok keys ->
  NoDup keys ->
  NoDup (omap row_key (saved_rows m)).
Proof.
  intros Hm Hkeys Hnd.
  destruct (saved_rows_split _ _ _ _ _ Hm) as [-> _].
  destruct (merge_keys_ok _ _ _ _ _ Hm) as (Hnd1 & _ & Hokf).
  destruct (merge_spec _ _ _ _ _ _ Hm Hkeys)
    as (_ & slots & _ & _ & _ & Hall & -> & _).
  rewrite omap_app.
  replace (omap row_key (filter (fun r => is_manual r = true) existing))
    with (@nil key).
  2:{ symmetry. apply omap_row_key_manual. }
  simpl. rewrite fmap_app, omap_app.
  set (l := filter (fun e => kept keys subm existing e = true) (m_by_canvas_id m)).
  rewrite (omap_row_key_slots _ slots keys).
  2:{ pose proof (upcoming_canvas_ids_keys _ _ Hkeys) as Hk.
      clear -Hall Hk Hokf. revert keys Hk.
      induction Hall as [|ca s ups slots Hs _ IH]; intros keys Hk.
      - inversion Hk. constructor.
      - inversion Hk as [|? k ? keys' Hk0 Hk']; subst. constructor; [|by apply IH].
        destruct (slot_for_not_manual _ _ _ _ Hokf Hs) as [-> _]. done. }
  rewrite (omap_row_key_slots _ (Ref <$> l.*2) l.*1).
  2:{ assert (forall e, e ∈ l -> e ∈ m_by_canvas_id m) as Hsub.
      { intros e [_ ?]%list_elem_of_filter. done. }
      clearbody l. induction l as [|[k i] l IH]; csimpl; constructor.
      - destruct (Hokf k i) as (r & Hr & ?);
          [apply Hsub, list_elem_of_here|].
        simpl. by rewrite Hr.
      - apply IH. intros e He. by apply Hsub, list_elem_of_further. }
  apply NoDup_app. split_and!; [done | | by apply NoDup_filter_fst].
  intros k Hk ([k' i] & ? & [Hkept _]%list_elem_of_filter)%list_elem_of_fmap.
  simpl in *; subst. unfold kept in Hkept. simpl in Hkept.
  apply kset_mem_elem_of in Hk. by rewrite Hk in Hkept.
Qed.

End MergeTotal.

(** ** [sync] as a whole *)

Lemma course_map_set_keys k cid name (m : course_map_t) :
  ((course_map_set k cid name m).*1 = m.*1 /\ k ∈ m.*1) \/
  ((course_map_set k cid name m).*1 = m.*1 ++ [k] /\ k ∉ m.*1).
Proof.
  induction m as [|[k0 [cid0 name0]] m IH]; csimpl.
  - right. split; [done | apply not_elem_of_nil].
  - destruct (key_eqb k0 k) eqn:E; csimpl.
    + left. split; [done|]. apply key_eqb_eq in E as ->. apply list_elem_of_here.
    + apply key_eqb_neq in E. destruct IH as [[IH1 IH2]|[IH1 IH2]].
      * left. rewrite IH1. split; [done | by apply list_elem_of_further].
      * right. rewrite IH1. split; [done|].
        rewrite elem_of_cons. intros [?|?]; [by subst | done].
Qed.

Lemma course_keys_cons c raw :
  course_keys (c :: raw) =
  match c with
  | VDict d =>
      if truthy (get_or_none "id" d) then
        match hash_key (get_or_none "id" d) with
        | Some k => k :: course_keys raw
        | None => course_keys raw
        end
      else course_keys raw
  | _ => course_keys raw
  end.
Proof.
  destruct c as [| | | | |d]; try done. unfold course_keys. csimpl.
  destruct (truthy (get_or_none "id" d)); [|done].
  by destruct (hash_key (get_or_none "id" d)).
Qed.

Lemma course_map_keys raw : forall m0 m,
  course_map raw m0 = Ok m ->
  NoDup m0.*1 ->
  NoDup m.*1 /\ forall k, k ∈ m.*1 <-> k ∈ m0.*1 \/ k ∈ course_keys raw.
Proof.
  induction raw as [|c raw IH]; intros m0 m.
  - simpl. intros [= <-] Hnd. split; [done|]. intros k. unfold course_keys. simpl.
    rewrite elem_of_nil. tauto.
  - rewrite course_keys_cons. destruct c as [| | | | |d]; simpl; try apply IH.
    destruct (truthy (get_or_none "id" d)) eqn:Ht; [|apply IH].
    destruct (hash_key (get_or_none "id" d)) as [k0|] eqn:Hh; [|done].
    intros H Hnd.
    destruct (course_map_set_keys k0 (get_or_none "id" d)
                (py_or (get_or_none "name" d)
                   (py_or (get_or_none "course_code" d)
                      (VStr ("Course " ++ str_of_scalar (get_or_none "id" d)))))
                m0) as [[E Hin]|[E Hnin]].
    + destruct (IH _ _ H) as [? Hk]; [by rewrite E|]. split; [done|].
      intros k. rewrite Hk, E, elem_of_cons.
      split; [tauto|]. intros [?|[->|?]]; tauto.
    + destruct (IH _ _ H) as [? Hk].
      { rewrite E. apply NoDup_app. split_and!; [done | | apply NoDup_singleton].
        intros y Hy ->%list_elem_of_singleton. done. }
      split; [done|].
      intros k. rewrite Hk, E.
      rewrite elem_of_app, !elem_of_cons, elem_of_nil. tauto.
Qed.

Lemma course_map_length raw m :
  course_map raw [] = Ok m -> length m = length (remove_dups (course_keys raw)).
Proof.
  intros H. destruct (course_map_keys _ _ _ H) as [Hnd Hk]; [constructor|].
  rewrite <- (length_fmap fst m). apply Permutation_length.
  apply NoDup_Permutation; [done | apply NoDup_remove_dups |].
  intros k. rewrite Hk, elem_of_remove_dups, elem_of_nil. tauto.
Qed.

Section SyncFacts.

Variable uuid4 : nat -> string.
Variable w : world.

Lemma upcoming_of_course cname raw : forall ups,
  upcoming_of w cname raw = Ok ups ->
  Forall (fun ca => u_course ca = cname) ups.
Proof.
  induction raw as [|a raw IH]; intros ups; simpl.
  - intros [= <-]. constructor.
  - destruct a as [| | | | |d]; try apply IH.
    destruct (parse_due_date w (get_or_none "due_at" d)) as [[due|]|]; simpl;
      [| apply IH | done].
    destruct (String.eqb due ""); [apply IH|].
    destruct (String.ltb due (today_str w)); [apply IH|].
    destruct (dict_get "id" d) as [id|]; [|done].
    destruct (upcoming_of w cname raw) as [more|]; [|done]. simpl.
    intros [= <-]. constructor; [done | by apply IH].
Qed.

Lemma fetch_courses_course url token courses : forall ups0 ids0 ups ids,
  fetch_courses w url token courses ups0 ids0 = Ok (ups, ids) ->
  forall ca, ca ∈ ups -> ca ∈ ups0 \/ u_course ca ∈ (fun e => e.2.2) <$> courses.
Proof.
  induction courses as [|[k [cid cname]] courses IH]; intros ups0 ids0 ups ids; simpl.
  - intros [= <- <-] ca Hca. by left.
  - destruct (or_empty (get_all w url token (assignments_path cid
                "?bucket=upcoming&per_page=100&order_by=due_at")))
      as [raw|]; simpl; [|done].
    destruct (upcoming_of w cname raw) as [ups1|] eqn:Hups; simpl; [|done].
    destruct (or_empty (get_all w url token (assignments_path cid
                "?bucket=submitted&per_page=100")))
      as [sraw|]; simpl; [|done].
    destruct (add_done sraw ids0) as [ids1|]; simpl; [|done].
    destruct (or_empty (get_all w url token (assignments_path cid
                "?bucket=graded&per_page=100")))
      as [graw|]; simpl; [|done].
    destruct (add_done graw ids1) as [ids2|]; simpl; [|done].
    intros H ca Hca.
    destruct (IH _ _ _ _ H ca Hca) as [[?|Hin]%elem_of_app|?].
    + by left.
    + right. apply upcoming_of_course in Hups.
      rewrite Forall_forall in Hups. rewrite (Hups _ Hin).
      apply list_elem_of_here.
    + right. by apply list_elem_of_further.
Qed.

Lemma fetch_inv courses ups ids :
  fetch w = Ok (courses, ups, ids) ->
  exists url token raw_courses,
    load_config w = Ok (url, token) /\
    get_all w url token courses_path = Ok raw_courses /\
    course_map raw_courses [] = Ok courses /\
    fetch_courses w url token courses [] [] = Ok (ups, ids).
Proof.
  unfold fetch.
  destruct (load_config w) as [[url token]|]; [|done]. simpl.
  destruct (get_all w url token courses_path) as [raw|] eqn:E1; [|done]. simpl.
  destruct (course_map raw []) as [cs|] eqn:E2; [|done]. simpl.
  destruct (fetch_courses w url token cs [] []) as [[ups' ids']|] eqn:E3;
    [|done]. simpl.
  intros [= <- <- <-]. by exists url, token, raw.
Qed.

Lemma sync_inv store s store' :
  sync uuid4 w store = (Ok s, store') ->
  exists courses ups ids m,
    fetch w = Ok (courses, ups, ids) /\
    merge uuid4 ups ids (load_assignments store) = Ok m /\
    s = merge_summary (length courses) m /\
    store' = Doc (saved_rows m).
Proof.
  unfold sync, sync_compute.
  destruct (fetch w) as [[[courses ups] ids]|] eqn:E1; [|done]. simpl.
  destruct (merge uuid4 ups ids (load_assignments store)) as [m|] eqn:E2;
    [|done]. simpl.
  intros [= <- <-]. by exists courses, ups, ids, m.
Qed.

(** C2, as the code has it. The field [courses] is the size of
    [course_map]: the number of distinct ids among the fetched courses
    (the objects of the course list with a truthy id), whether or not an
    upcoming entry belongs to them. The course names that occur among the
    upcoming entries are names of those courses, so any duplicate-free
    list of them is at most that long. *)
Theorem courses_counts_fetched_courses store s store' :
  sync uuid4 w store = (Ok s, store') ->
  exists url token raw_courses courses ups ids,
    load_config w = Ok (url, token) /\
    get_all w url token courses_path = Ok raw_courses /\
    fetch w = Ok (courses, ups, ids) /\
    s_courses s = length (remove_dups (course_keys raw_courses)) /\
    forall names : list value,
      NoDup names -> (forall n, n ∈ names -> n ∈ u_course <$> ups) ->
      length names <= s_courses s.
Proof.
  intros (courses & ups & ids & m & Hfetch & _ & -> & _)%sync_inv.
  destruct (fetch_inv _ _ _ Hfetch) as (url & token & raw & Hcfg & Hraw & Hmap & Hfc).
  exists url, token, raw, courses, ups, ids. split_and!; try done.
  - simpl. by apply course_map_length.
  - intros names Hnd Hsub. simpl.
    rewrite <- (length_fmap (fun e : key * (value * value) => e.2.2) courses).
    apply submseteq_length, NoDup_submseteq; [done|].
    intros n Hn. apply Hsub in Hn.
    apply list_elem_of_fmap in Hn as (ca & -> & Hca).
    destruct (fetch_courses_course _ _ _ _ _ _ _ Hfc ca Hca) as [?%elem_of_nil|?];
      done.
Qed.

(** C9. When reading the configuration or the request for the course
    list raises, [sync] raises the same exception and [assignments.json]
    is as it was. And [sync] has two outcomes only. It raises, when the
    fetch or the merge raises, and the file is as it was. Or it returns
    the summary of the merge, and the file is the whole list the merge has
    made of the old one: the manual rows of the old file, in their order,
    followed by the [total_canvas] rows of the Canvas assignments. *)
Theorem failed_fetch_writes_nothing store :
  (forall e,
     load_config w = Raise e \/
     (exists url token, load_config w = Ok (url, token) /\
        get_all w url token courses_path = Raise e) ->
     sync uuid4 w store = (Raise e, store)) /\
  match fetch w with
  | Raise e => sync uuid4 w store = (Raise e, store)
  | Ok (courses, ups, ids) =>
      match merge uuid4 ups ids (load_assignments store) with
      | Raise e => sync uuid4 w store = (Raise e, store)
      | Ok m =>
          sync uuid4 w store =
            (Ok (merge_summary (length courses) m), Doc (saved_rows m)) /\
          exists canvas_rows,
            saved_rows m =
              filter (fun r => is_manual r = true) (load_assignments store) ++
              canvas_rows /\
            length canvas_rows =
              s_total_canvas (merge_summary (length courses) m) /\
            Forall (fun r => is_manual r = false) canvas_rows
      end
  end.
Proof.
  split.
  - intros e [Hcfg|(url & token & Hcfg & Hraw)];
      unfold sync, sync_compute, fetch; rewrite Hcfg; simpl; [done|].
    by rewrite Hraw.
  - unfold sync, sync_compute.
    destruct (fetch w) as [[[courses ups] ids]|e]; [|done]. simpl.
    destruct (merge uuid4 ups ids (load_assignments store)) as [m|e] eqn:Hm;
      [|done]. simpl.
    split; [done|].
    destruct (saved_rows_split uuid4 _ _ _ _ Hm) as [Hsaved Hall].
    eexists. split_and!; [exact Hsaved | | exact Hall].
    by rewrite length_fmap.
Qed.

End SyncFacts.

(** ** The milestone check *)

Lemma list_contains_app x l k :
  list_contains x (l ++ k) = list_contains x l || list_contains x k.
Proof. unfold list_contains. apply existsb_app. Qed.

Lemma list_contains_tag tag : list_contains (VStr tag) [VStr tag] = true.
Proof. unfold list_contains. simpl. by rewrite String.eqb_refl. Qed.

Lemma due_tags_cases days sent :
  due_tags days sent =
  if (days =? 3)%Z && negb (list_contains (VStr "3_days") sent) then ["3_days"]
  else if (days =? 1)%Z && negb (list_contains (VStr "1_day") sent) then ["1_day"]
  else if (days =? 0)%Z && negb (list_contains (VStr "morning") sent) then ["morning"]
  else [].
Proof.
  unfold due_tags, milestones. rewrite !filter_cons, filter_nil. simpl.
  destruct (Z.eqb_spec days 3) as [->|H3]; simpl;
    [|destruct (Z.eqb_spec days 1) as [->|H1]; simpl;
      [|destruct (Z.eqb_spec days 0) as [->|H0]; simpl]];
    repeat (destruct (list_contains _ sent)); simpl;
    repeat case_decide; try done;
    repeat match goal with
           | H : ~ (_ /\ _) |- _ => destruct H; by split
           | H : _ /\ _ |- _ => destruct H
           end; done.
Qed.

Lemma due_tags_elem_of days sent tag :
  tag ∈ due_tags days sent <->
  exists d, (tag, d) ∈ milestones /\ d = days /\ list_contains (VStr tag) sent = false.
Proof.
  unfold due_tags. rewrite list_elem_of_fmap. split.
  - intros ([t d] & -> & [[? ?] ?]%list_elem_of_filter). by exists d.
  - intros (d & Hin & ? & ?). exists (tag, d). split; [done|].
    by apply list_elem_of_filter.
Qed.

(** A tag names one milestone. *)
Lemma milestones_tag tag v d :
  (tag, v) ∈ milestones -> (tag, d) ∈ milestones -> v = d.
Proof.
  unfold milestones. rewrite !elem_of_cons, !elem_of_nil. intros H1 H2.
  destruct H1 as [[= -> ->]|[[= -> ->]|[[= -> ->]|[]]]];
    destruct H2 as [[= <-]|[[= <-]|[[= <-]|[]]]]; try done; discriminate.
Qed.

Lemma dict_set_same k v (d : sdict) : dict_get k d = Some v -> dict_set k v d = d.
Proof.
  induction d as [|[k0 v0] d IH]; simpl; [done|].
  destruct (String.eqb k0 k) eqn:E.
  - by intros [= ->].
  - intros H. by rewrite IH.
Qed.

Lemma sent_of_set v r : sent_of (dict_set "notifications_sent" v r) = v.
Proof. unfold sent_of, get_or. by rewrite dict_get_set_eq. Qed.

Lemma set_sent_twice v r :
  dict_set "notifications_sent" v (dict_set "notifications_sent" v r) =
  dict_set "notifications_sent" v r.
Proof. apply dict_set_same, dict_get_set_eq. Qed.

(** *** The chain of guards *)

Lemma due_now_true d v tag sent :
  due_now d v tag sent = Ok true -> d = v /\ not_in tag sent = Ok true.
Proof.
  unfold due_now. destruct (Z.eqb_spec d v) as [->|]; [done|]. discriminate.
Qed.

(** The chain takes the branch of a milestone only on its day, and only
    when its tag is not in [sent]. *)
Lemma due_tag_Some d sent tag :
  due_tag d sent = Ok (Some tag) ->
  (tag, d) ∈ milestones /\ not_in tag sent = Ok true.
Proof.
  unfold due_tag, milestones.
  destruct (due_now d 3 "3_days" sent) as [[|]|] eqn:E3; [|clear E3|done].
  { intros [= <-]. apply due_now_true in E3 as [-> ?]. split; [|done].
    apply list_elem_of_here. }
  destruct (due_now d 1 "1_day" sent) as [[|]|] eqn:E1; [|clear E1|done].
  { intros [= <-]. apply due_now_true in E1 as [-> ?]. split; [|done].
    apply list_elem_of_further, list_elem_of_here. }
  destruct (due_now d 0 "morning" sent) as [[|]|] eqn:E0; [|done|done].
  intros [= <-]. apply due_now_true in E0 as [-> ?]. split; [|done].
  do 2 apply list_elem_of_further. apply list_elem_of_here.
Qed.

(** On a list the chain takes the branch of the milestone that is due and
    not yet in the list. *)
Lemma due_tag_list d l : due_tag d (VList l) = Ok (head (due_tags d l)).
Proof.
  rewrite due_tags_cases. unfold due_tag, due_now, not_in.
  destruct (Z.eqb_spec d 3) as [->|N3]; simpl;
    [|destruct (Z.eqb_spec d 1) as [->|N1]; simpl;
      [|destruct (Z.eqb_spec d 0) as [->|N0]; simpl]];
    repeat (destruct (list_contains _ l); simpl); done.
Qed.

(** Once the tag of the branch taken is appended, no branch is taken. *)
Lemma due_tag_appended d l tag :
  due_tag d (VList l) = Ok (Some tag) ->
  due_tag d (VList (l ++ [VStr tag])) = Ok None.
Proof.
  rewrite !due_tag_list, !due_tags_cases.
  destruct (Z.eqb_spec d 3) as [->|N3]; simpl;
    [|destruct (Z.eqb_spec d 1) as [->|N1]; simpl;
      [|destruct (Z.eqb_spec d 0) as [->|N0]; simpl]];
    try done;
    destruct (list_contains _ l) eqn:E; simpl; try done;
    intros [= <-]; by rewrite list_contains_app, list_contains_tag, orb_true_r.
Qed.

Section ChecksFacts.

Variable cal : calendar.

Lemma notification_key i tag due t c :
  f_index (notification cal i tag due t c) = i /\
  f_tag (notification cal i tag due t c) = tag.
Proof.
  unfold notification.
  destruct (String.eqb tag "3_days"); [done|].
  by destruct (String.eqb tag "1_day").
Qed.

Lemma reminder_key i r d tag : fired_key (reminder cal i r d tag) = (i, tag).
Proof.
  unfold fired_key, reminder.
  by destruct (notification_key i tag (d + today cal)
                 (get_or "title" (VStr "Assignment") r)
                 (get_or "course" (VStr "") r)) as [-> ->].
Qed.

(** What a branch comes to: the call, then the tag appended. *)
Lemma fire_reminder i tag d r :
  fire cal i tag (d + today cal) r (sent_of r) =
  ([reminder cal i r d tag],
   match deliver cal (reminder cal i r d tag) with
   | Raise x => Raise x
   | Ok _ =>
       match append_tag tag (sent_of r) with
       | Raise x => Raise x
       | Ok sent' => Ok (dict_set "notifications_sent" sent' r, true)
       end
   end).
Proof.
  unfold fire, reminder. simpl. f_equal.
Qed.

(** The iteration, by the due date of the row. *)
Lemma check_row_cases i r :
  match dict_get "due_date" r with
  | None => check_row cal i r = ([], Ok (r, false))
  | Some (VStr _) =>
      match days_until cal r with
      | None => check_row cal i r = ([], Ok (r, false))
      | Some d =>
          if (d <? 0)%Z then check_row cal i r = ([], Ok (r, false))
          else
            check_row cal i r =
            match due_tag d (sent_of r) with
            | Raise x => ([], Raise x)
            | Ok (Some tag) => fire cal i tag (d + today cal) r (sent_of r)
            | Ok None =>
                ([], Ok (dict_set "notifications_sent" (sent_of r) r, false))
            end
      end
  | Some _ => check_row cal i r = ([], Raise TypeError)
  end.
Proof.
  unfold check_row, days_until.
  destruct (dict_get "due_date" r) as [[| | |s| |]|]; try done.
  destruct (fromisoformat cal s) as [due|]; [|done].
  destruct (due - today cal <? 0)%Z; [done|].
  replace (due - today cal + today cal)%Z with due by lia.
  unfold due_tag. fold (sent_of r).
  destruct (due_now (due - today cal) 3 "3_days" (sent_of r)) as [[|]|]; try done.
  destruct (due_now (due - today cal) 1 "1_day" (sent_of r)) as [[|]|]; try done.
  by destruct (due_now (due - today cal) 0 "morning" (sent_of r)) as [[|]|].
Qed.

(** The iteration on a row that is reached and not past due. *)
Lemma check_row_not_past i r d :
  days_until cal r = Some d -> (0 <= d)%Z ->
  check_row cal i r =
  match due_tag d (sent_of r) with
  | Raise x => ([], Raise x)
  | Ok (Some tag) => fire cal i tag (d + today cal) r (sent_of r)
  | Ok None => ([], Ok (dict_set "notifications_sent" (sent_of r) r, false))
  end.
Proof.
  intros Hd Hpos. pose proof (check_row_cases i r) as H.
  assert (exists s, dict_get "due_date" r = Some (VStr s)) as [s Hs].
  { unfold days_until in Hd.
    destruct (dict_get "due_date" r) as [[| | |s| |]|]; try done. by exists s. }
  rewrite Hs, Hd in H. by rewrite (proj2 (Z.ltb_ge d 0) Hpos) in H.
Qed.

(** The iteration on a past-due row: nothing is sent, nothing changes. *)
Lemma check_row_past_due i r d :
  days_until cal r = Some d -> (d < 0)%Z -> check_row cal i r = ([], Ok (r, false)).
Proof.
  unfold days_until, check_row. intros H Hd.
  destruct (dict_get "due_date" r) as [[| | |s| |]|]; try done.
  destruct (fromisoformat cal s) as [due|]; [|done].
  injection H as <-. by rewrite (proj2 (Z.ltb_lt _ _) Hd).
Qed.

(** The iteration makes one call at most, for its own row; with no call
    it leaves [changed] as it is, and after a call it ends normally only
    if the call has returned and the tag is appended to a list. *)
Lemma check_row_calls i r :
  (check_row cal i r).1 = [] /\
  (forall r' c, (check_row cal i r).2 = Ok (r', c) ->
     c = false /\ forall k, k ≠ "notifications_sent" -> dict_get k r' = dict_get k r)
  \/
  exists d tag,
    days_until cal r = Some d /\ (0 <= d)%Z /\
    due_tag d (sent_of r) = Ok (Some tag) /\
    (check_row cal i r).1 = [reminder cal i r d tag] /\
    forall r' c, (check_row cal i r).2 = Ok (r', c) ->
      c = true /\
      deliver cal (reminder cal i r d tag) = Ok tt /\
      exists l, sent_of r = VList l /\
        list_contains (VStr tag) l = false /\
        r' = dict_set "notifications_sent" (VList (l ++ [VStr tag])) r.
Proof.
  pose proof (check_row_cases i r) as H.
  destruct (dict_get "due_date" r) as [[| | |s| |]|];
    try (left; rewrite H; split; [done|]; intros r' c [= <- <-]; done).
  destruct (days_until cal r) as [d|] eqn:Hd;
    [|left; rewrite H; split; [done|]; intros r' c [= <- <-]; done].
  destruct (d <? 0)%Z eqn:Hneg;
    [left; rewrite H; split; [done|]; intros r' c [= <- <-]; done|].
  apply Z.ltb_ge in Hneg. rewrite H. clear H.
  destruct (due_tag d (sent_of r)) as [[tag|]|x] eqn:Htag.
  - right. exists d, tag. rewrite fire_reminder. simpl.
    split_and!; [done | done | done | done |].
    intros r' c. destruct (deliver cal _) as [[]|]; [|done].
    apply due_tag_Some in Htag as [_ Hnot].
    destruct (sent_of r) as [| | | |l|]; simpl; try done.
    intros [= <- <-]. split_and!; [done | done |]. exists l.
    split_and!; [done | | done].
    simpl in Hnot. injection Hnot as Hnot. by apply negb_true_iff.
  - left. split; [done|]. simpl. intros r' c [= <- <-]. split; [done|].
    intros k Hk. by rewrite dict_get_set_ne.
  - left. split; [done|]. simpl. done.
Qed.

(** Every call of an iteration is for the row of that iteration. *)
Lemma check_row_index i r e : e ∈ (check_row cal i r).1 -> f_index e = i.
Proof.
  destruct (check_row_calls i r) as [[-> _]|(d & tag & _ & _ & _ & -> & _)].
  - by intros ?%elem_of_nil.
  - intros ->%list_elem_of_singleton.
    pose proof (reminder_key i r d tag) as H. unfold fired_key in H. congruence.
Qed.

(** An iteration changes no field but [notifications_sent]. *)
Lemma check_row_fields i r f r' c k :
  check_row cal i r = (f, Ok (r', c)) ->
  k ≠ "notifications_sent" -> dict_get k r' = dict_get k r.
Proof.
  intros H Hk.
  destruct (check_row_calls i r) as [[_ Hno]|(d & tag & _ & _ & _ & _ & Hyes)].
  - rewrite H in Hno. destruct (Hno r' c eq_refl) as [_ Hf]. by apply Hf.
  - rewrite H in Hyes. destruct (Hyes r' c eq_refl) as (_ & _ & l & _ & _ & ->).
    by rewrite dict_get_set_ne.
Qed.

(** One iteration makes at most one call, and sets [changed] only when
    it has made one. *)
Lemma check_row_one i r :
  length (check_row cal i r).1 <= 1 /\
  forall r' c, (check_row cal i r).2 = Ok (r', c) ->
    c = true -> (check_row cal i r).1 <> [].
Proof.
  destruct (check_row_calls i r) as [[E Hno]|(d & tag & _ & _ & _ & E & _)].
  - rewrite E. split; [simpl; lia|]. intros r' c Hr Hc.
    destruct (Hno r' c Hr) as [-> _]. discriminate.
  - rewrite E. split; [simpl; lia | done].
Qed.

Lemma days_until_set_sent r v :
  days_until cal (dict_set "notifications_sent" v r) = days_until cal r.
Proof. unfold days_until. by rewrite dict_get_set_ne. Qed.

(** An iteration that has ended normally leaves a row on which a further
    iteration makes no call and changes nothing. *)
Lemma check_row_again i r f r' c :
  check_row cal i r = (f, Ok (r', c)) ->
  check_row cal i r' = ([], Ok (r', false)).
Proof.
  intros H. pose proof (check_row_cases i r) as Hc. rewrite H in Hc.
  pose proof (check_row_cases i r') as Hc'.
  destruct (dict_get "due_date" r) as [v|] eqn:Hv.
  2:{ injection Hc as <- <- <-. by rewrite Hv in Hc'. }
  destruct v as [| | |s| |]; try done.
  destruct (days_until cal r) as [d|] eqn:Hd.
  2:{ injection Hc as <- <- <-. by rewrite Hv, Hd in Hc'. }
  destruct (d <? 0)%Z eqn:Hneg.
  { injection Hc as <- <- <-. by rewrite Hv, Hd, Hneg in Hc'. }
  assert (forall v, r' = dict_set "notifications_sent" v r ->
            due_tag d v = Ok None ->
            check_row cal i r' = ([], Ok (r', false))) as Hgo.
  { intros v -> Hnone.
    rewrite dict_get_set_ne, Hv, days_until_set_sent, Hd, Hneg in Hc' by done.
    by rewrite Hc', sent_of_set, Hnone, set_sent_twice. }
  destruct (due_tag d (sent_of r)) as [[tag|]|x] eqn:Htag; [| |done].
  - rewrite fire_reminder in Hc.
    destruct (deliver cal _) as [[]|]; [|done].
    destruct (sent_of r) as [| | | |l|] eqn:Hs; simpl in Hc; try done.
    injection Hc as -> -> ->. apply (Hgo (VList (l ++ [VStr tag]))); [done|].
    by apply due_tag_appended.
  - injection Hc as -> -> ->. by apply (Hgo (sent_of r)).
Qed.

End ChecksFacts.

Lemma filter_all {A} (P : A -> Prop) `{!forall x, Decision (P x)} (l : list A) :
  Forall P l -> filter P l = l.
Proof.
  induction 1 as [|x l Hx _ IH]; [done|].
  by rewrite filter_cons, decide_True, IH.
Qed.

Lemma filter_none {A} (P : A -> Prop) `{!forall x, Decision (P x)} (l : list A) :
  Forall (fun x => ~ P x) l -> filter P l = [].
Proof.
  induction 1 as [|x l Hx _ IH]; [done|].
  by rewrite filter_cons, decide_False, IH.
Qed.

Section ChecksLoop.

Variable cal : calendar.

Lemma check_rows_cons i r rest :
  check_rows cal i (r :: rest) =
  match check_row cal i r with
  | (f, Raise e) => (f, Raise e)
  | (f, Ok (r', c)) =>
      match check_rows cal (S i) rest with
      | (fs, Raise e) => (f ++ fs, Raise e)
      | (fs, Ok (rest', c')) => (f ++ fs, Ok (r' :: rest', c || c'))
      end
  end.
Proof. done. Qed.

(** Every call of the loop is one of the iteration on its row. *)
Lemma check_rows_fired rows : forall i f res e,
  check_rows cal i rows = (f, res) ->
  e ∈ f ->
  exists n r, rows !! n = Some r /\ f_index e = i + n /\
    e ∈ (check_row cal (i + n) r).1.
Proof.
  induction rows as [|r rows IH]; intros i f res e.
  - simpl. intros [= <- <-] ?%elem_of_nil. done.
  - rewrite check_rows_cons.
    destruct (check_row cal i r) as [f0 [[r' c]|e0]] eqn:Hrow.
    + destruct (check_rows cal (S i) rows) as [fs res'] eqn:Hrest.
      intros H He. assert (f = f0 ++ fs) as ->.
      { destruct res' as [[rest' c']|]; congruence. }
      apply elem_of_app in He as [He|He].
      * exists 0, r. rewrite Nat.add_0_r, Hrow. split_and!; [done | | done].
        apply (check_row_index cal i r). by rewrite Hrow.
      * destruct (IH _ _ _ _ Hrest He) as (n & r0 & Hn & Hidx & Hin).
        exists (S n), r0. replace (i + S n) with (S i + n) by lia. done.
    + intros [= <- <-] He. exists 0, r.
      rewrite Nat.add_0_r, Hrow. split_and!; [done | | done].
      apply (check_row_index cal i r). by rewrite Hrow.
Qed.

(** The loop, when it ends normally: row by row. *)
Lemma check_rows_ok rows : forall i f rows' c,
  check_rows cal i rows = (f, Ok (rows', c)) ->
  length rows' = length rows /\
  forall n r, rows !! n = Some r ->
    exists fn r' cn,
      check_row cal (i + n) r = (fn, Ok (r', cn)) /\
      rows' !! n = Some r' /\
      filter (fun e => f_index e = i + n) f = fn.
Proof.
  induction rows as [|r rows IH]; intros i f rows' c.
  - simpl. intros [= <- <- <-]. done.
  - rewrite check_rows_cons.
    destruct (check_row cal i r) as [f0 [[r' c0]|e0]] eqn:Hrow; [|done].
    destruct (check_rows cal (S i) rows) as [fs [[rest' c']|]] eqn:Hrest; [|done].
    intros [= <- <- <-].
    destruct (IH _ _ _ _ Hrest) as [Hlen Hrows].
    split; [simpl; by rewrite Hlen|].
    assert (Forall (fun e => f_index e = i) f0) as H0.
    { apply Forall_forall. intros e He.
      apply (check_row_index cal i r). by rewrite Hrow. }
    assert (Forall (fun e => S i <= f_index e) fs) as Hs.
    { apply Forall_forall. intros e He.
      destruct (check_rows_fired _ _ _ _ _ Hrest He) as (n & _ & _ & -> & _). lia. }
    intros [|n] r0; simpl.
    + intros [= <-]. exists f0, r', c0. rewrite Nat.add_0_r.
      split_and!; [done | done |].
      rewrite filter_app, (filter_all _ f0 H0), filter_none, app_nil_r; [done|].
      eapply Forall_impl; [exact Hs|]. simpl. lia.
    + intros Hn. destruct (Hrows _ _ Hn) as (fn & r1 & cn & Hr1 & Hl1 & Hf1).
      exists fn, r1, cn. replace (i + S n) with (S i + n) by lia.
      split_and!; [done | done |].
      rewrite filter_app, filter_none, Hf1; [done|].
      eapply Forall_impl; [exact H0|]. simpl. lia.
Qed.

(** The loop over a list in two parts, when the first part ends
    normally. *)
Lemma check_rows_app pre rest : forall i f pre' c,
  check_rows cal i pre = (f, Ok (pre', c)) ->
  check_rows cal i (pre ++ rest) =
  match check_rows cal (i + length pre) rest with
  | (fs, Raise e) => (f ++ fs, Raise e)
  | (fs, Ok (rest', c')) => (f ++ fs, Ok (pre' ++ rest', c || c'))
  end.
Proof.
  induction pre as [|r pre IH]; intros i f pre' c.
  - simpl. intros [= <- <- <-]. rewrite Nat.add_0_r.
    by destruct (check_rows cal i rest) as [fs [[rest' c']|e]].
  - rewrite <- app_comm_cons, !check_rows_cons.
    destruct (check_row cal i r) as [f0 [[r' c0]|e0]]; [|done].
    destruct (check_rows cal (S i) pre) as [f1 [[pre1 c1]|e1]] eqn:Hpre; [|done].
    intros [= <- <- <-]. rewrite (IH _ _ _ _ Hpre).
    replace (S i + length pre) with (i + length (r :: pre)) by (simpl; lia).
    destruct (check_rows cal (i + length (r :: pre)) rest) as [fs [[rest' c']|e]].
    + by rewrite <- app_assoc, orb_assoc.
    + by rewrite <- app_assoc.
Qed.

(** The calls of the loop are for rows of the list, one per row at
    most, in the order of the rows; [changed] is set only after a call. *)
Lemma check_rows_sorted rows : forall i f res,
  check_rows cal i rows = (f, res) ->
  Forall (fun e => i <= f_index e < i + length rows) f /\
  NoDup (f_index <$> f) /\
  (forall rows' c, res = Ok (rows', c) -> c = true -> f <> []).
Proof.
  induction rows as [|r rows IH]; intros i f res.
  - simpl. intros [= <- <-]. split_and!; [apply Forall_nil_2 | apply NoDup_nil_2 |].
    by intros rows' c [= _ <-].
  - rewrite check_rows_cons.
    destruct (check_row_one cal i r) as [Hone Hch].
    pose proof (check_row_index cal i r) as Hidx.
    destruct (check_row cal i r) as [f0 res0]. simpl in *.
    assert (Forall (fun e => i <= f_index e < i + S (length rows)) f0 /\
            NoDup (f_index <$> f0)) as [Hf0 Hnd0].
    { split.
      - apply Forall_forall. intros e He. rewrite (Hidx e He). lia.
      - destruct f0 as [|e [|]]; simpl in *; [apply NoDup_nil_2 | | lia].
        apply NoDup_singleton. }
    destruct res0 as [[r' c0]|e0]; [|by intros [= <- <-]].
    destruct (check_rows cal (S i) rows) as [fs res'] eqn:Hrest.
    destruct (IH _ _ _ Hrest) as (Hfs & Hnds & Hcs).
    intros H. assert (f = f0 ++ fs) as ->.
    { destruct res' as [[rest' c']|]; congruence. }
    split_and!.
    + apply Forall_app. split; [done|].
      eapply Forall_impl; [exact Hfs|]. simpl. intros; lia.
    + rewrite fmap_app. apply NoDup_app. split_and!; [done | | done].
      intros n (e & -> & He)%list_elem_of_fmap (e' & Heq & He')%list_elem_of_fmap.
      rewrite (Hidx e He) in Heq.
      rewrite Forall_forall in Hfs. specialize (Hfs e' He'). lia.
    + intros rows' c Hres Hc. destruct res' as [[rest' c']|]; [|congruence].
      injection H as <-. injection Hres as _ <-.
      apply orb_true_iff in Hc as [->| ->].
      * intros [E _]%app_eq_nil. by eapply Hch.
      * intros [_ E]%app_eq_nil. by eapply Hcs.
Qed.

(** When the loop has ended normally, a second pass over the rows it
    leaves makes no call and changes nothing; and a pass that has left
    [changed] unset has made no call. *)
Lemma check_rows_again rows : forall i f rows' c,
  check_rows cal i rows = (f, Ok (rows', c)) ->
  check_rows cal i rows' = ([], Ok (rows', false)) /\
  (c = false -> f = []).
Proof.
  induction rows as [|r rows IH]; intros i f rows' c.
  - simpl. by intros [= <- <- <-].
  - rewrite check_rows_cons.
    destruct (check_row cal i r) as [f0 [[r' c0]|e0]] eqn:Hrow; [|done].
    destruct (check_rows cal (S i) rows) as [fs [[rest' c']|]] eqn:Hrest; [|done].
    intros [= <- <- <-]. destruct (IH _ _ _ _ Hrest) as [Hagain Hc'].
    split.
    + by rewrite check_rows_cons, (check_row_again cal _ _ _ _ _ Hrow), Hagain.
    + intros [-> ->]%orb_false_elim. rewrite (Hc' eq_refl), app_nil_r.
      destruct (check_row_calls cal i r) as [[E _]|(d & tag & _ & _ & _ & _ & Hyes)].
      * by rewrite Hrow in E.
      * rewrite Hrow in Hyes. by destruct (Hyes r' false eq_refl) as [? _].
Qed.

(** The iteration on a row the loop reaches. *)
Lemma check_rows_reached rows i r f0 pre' c0 :
  rows !! i = Some r ->
  check_rows cal 0 (take i rows) = (f0, Ok (pre', c0)) ->
  check_rows cal 0 rows =
  match check_row cal i r with
  | (fi, Raise e) => (f0 ++ fi, Raise e)
  | (fi, Ok (r', ci)) =>
      match check_rows cal (S i) (drop (S i) rows) with
      | (fs, Raise e) => (f0 ++ fi ++ fs, Raise e)
      | (fs, Ok (rest', c')) =>
          (f0 ++ fi ++ fs, Ok (pre' ++ r' :: rest', c0 || (ci || c')))
      end
  end /\
  Forall (fun e => f_index e < i) f0.
Proof.
  intros Hr Hpre.
  assert (length (take i rows) = i) as Hlen.
  { apply lookup_lt_Some in Hr. rewrite length_take. lia. }
  split.
  - rewrite <- (take_drop i rows) at 1.
    rewrite (check_rows_app _ _ _ _ _ _ Hpre), Hlen. simpl.
    rewrite (drop_S _ _ _ Hr), check_rows_cons.
    destruct (check_row cal i r) as [fi [[r' ci]|e]]; [|done].
    by destruct (check_rows cal (S i) (drop (S i) rows)) as [fs [[rest' c']|e]].
  - destruct (check_rows_sorted _ _ _ _ Hpre) as (Hidx & _).
    rewrite Hlen in Hidx. eapply Forall_impl; [exact Hidx|]. simpl. lia.
Qed.

End ChecksLoop.

Section ChecksClaims.

Variable cal : calendar.

(** What [run_checks] leaves in the file, whatever its outcome: as many
    rows, each with every field but [notifications_sent] as it was. *)
Lemma run_checks_fields writable rows f res store' :
  run_checks cal writable (Doc rows) = (f, res, store') ->
  exists rows', store' = Doc rows' /\ length rows' = length rows /\
    forall i r, rows !! i = Some r ->
      exists r', rows' !! i = Some r' /\
        forall k, k ≠ "notifications_sent" -> dict_get k r' = dict_get k r.
Proof.
  unfold run_checks.
  destruct (check_rows cal 0 rows) as [f0 [[rows1 c]|e]] eqn:Hloop.
  2:{ intros [= <- <- <-]. exists rows. split_and!; [done | done |].
      intros i r Hr. by exists r. }
  intros [= <- <- <-]. destruct (check_rows_ok _ _ _ _ _ _ Hloop) as [Hlen Hrows].
  destruct (c && writable).
  - exists rows1. split_and!; [done | done |].
    intros i r Hr. destruct (Hrows _ _ Hr) as (fn & r' & cn & Hrow & Hr' & _).
    exists r'. split; [done|]. intros k Hk.
    by apply (check_row_fields cal _ _ _ _ _ _ Hrow).
  - exists rows. split_and!; [done | done |]. intros i r Hr. by exists r.
Qed.

(** C8. A row whose due date is before today gets no reminder from
    [run_checks] and is in the file afterwards exactly as it was, whatever
    its [notifications_sent] holds and whatever the outcome of the call. *)
Theorem past_due_rows_are_skipped writable rows i r d f res store' :
  rows !! i = Some r ->
  days_until cal r = Some d ->
  (d < 0)%Z ->
  run_checks cal writable (Doc rows) = (f, res, store') ->
  (forall e, e ∈ f -> f_index e ≠ i) /\
  exists rows', store' = Doc rows' /\ rows' !! i = Some r.
Proof.
  intros Hr Hd Hneg. pose proof (check_row_past_due cal i r d Hd Hneg) as Hrow.
  unfold run_checks.
  destruct (check_rows cal 0 rows) as [f0 res0] eqn:Hloop.
  assert (forall e, e ∈ f0 -> f_index e ≠ i) as Hnone.
  { intros e He Hi.
    destruct (check_rows_fired _ _ _ _ _ _ Hloop He) as (n & r0 & Hn & Hidx & Hin).
    simpl in *. assert (n = i) as -> by lia.
    assert (r0 = r) as -> by congruence.
    rewrite Hrow in Hin. by apply elem_of_nil in Hin. }
  destruct res0 as [[rows1 c]|e0]; intros [= <- <- <-].
  - split; [done|].
    destruct (check_rows_ok _ _ _ _ _ _ Hloop) as [_ Hrows].
    destruct (Hrows _ _ Hr) as (fn & r' & cn & Hrow' & Hr' & _).
    simpl in Hrow'. rewrite Hrow in Hrow'. injection Hrow' as <- <- <-.
    destruct (c && writable); by eexists.
  - split; [done|]. by exists rows.
Qed.

Lemma run_checks_n_S n store :
  run_checks_n cal (S n) store =
  let '(f, _, store') := run_checks cal true store in
  let '(fs, store'') := run_checks_n cal n store' in
  (f ++ fs, store'').
Proof. done. Qed.

Lemma run_checks_n_fixed n store :
  run_checks cal true store = ([], Ok tt, store) ->
  run_checks_n cal n store = ([], store).
Proof.
  intros H. induction n as [|n IH]; [done|].
  by rewrite run_checks_n_S, H, IH.
Qed.

Lemma run_checks_n_stuck f e store : forall n,
  run_checks cal true store = (f, Raise e, store) ->
  run_checks_n cal n store = (concat (replicate n f), store).
Proof.
  intros n H. induction n as [|n IH]; [done|].
  rewrite run_checks_n_S, H, IH. done.
Qed.

(** A run that raises, or that cannot write, leaves the file as it
    was. *)
Lemma run_checks_raises writable store f e store' :
  run_checks cal writable store = (f, Raise e, store') -> store' = store.
Proof.
  unfold run_checks. destruct store as [| |rows]; try by intros [= <- <-].
  destruct (check_rows cal 0 rows) as [f0 [[rows1 c]|e0]]; [done|].
  by intros [= <- <- <-].
Qed.

End ChecksClaims.

(** C4. Neither [sync] nor [run_checks] turns a truthy [completed] into a
    falsy one: a local row whose [completed] is truthy has a truthy
    [completed] after the merge, hence wherever it is written; and
    [run_checks] leaves the [completed] of every row as it is. *)
Theorem completed_is_never_reverted :
  (forall uuid4 ups subm existing m i r,
     merge uuid4 ups subm existing = Ok m ->
     existing !! i = Some r ->
     truthy (get_or_none "completed" r) = true ->
     exists r',
       heap (m_state m) !! i = Some r' /\
       truthy (get_or_none "completed" r') = true /\
       forall s, s ∈ (Ref <$> m_manual m) ++ new_canvas_rows (m_state m) ->
         s = Ref i -> deref (heap (m_state m)) s = r') /\
  (forall cal writable rows f res store',
     run_checks cal writable (Doc rows) = (f, res, store') ->
     exists rows', store' = Doc rows' /\ length rows' = length rows /\
       forall i r, rows !! i = Some r ->
         exists r', rows' !! i = Some r' /\
           get_or_none "completed" r' = get_or_none "completed" r).
Proof.
  split.
  - intros uuid4 ups subm existing m i r Hm Hi Hc.
    destruct (merge_keeps_completed _ _ _ _ _ _ _ Hm Hi Hc) as (r' & Hr' & Hc').
    exists r'. split_and!; [done | done |].
    intros s _ ->. simpl. by rewrite Hr'.
  - intros cal writable rows f res store' Hrun.
    destruct (run_checks_fields _ _ _ _ _ _ Hrun) as (rows' & -> & Hlen & Hrows).
    exists rows'. split_and!; [done | done |].
    intros i r Hr. destruct (Hrows _ _ Hr) as (r' & Hr' & Hk).
    exists r'. split; [done|]. unfold get_or_none. by rewrite Hk.
Qed.

(** ** The scenarios of the specification *)

(** Scenario A: a new upcoming assignment creates one row. *)
Example scenario_A :
  exists m, merge uuid_n [essay] [] [] = Ok m /\
    saved_rows m = [row_essay] /\
    s_added (merge_summary 1 m) = 1 /\ s_removed (merge_summary 1 m) = 0 /\
    s_auto_completed (merge_summary 1 m) = 0.
Proof. eexists. split; [vm_compute; reflexivity|]. by vm_compute. Qed.

(** Scenario B: no longer upcoming, in the done set: kept and completed. *)
Example scenario_B :
  exists m, merge uuid_n [] [KInt 5] [row_essay] = Ok m /\
    saved_rows m = [mark_completed row_essay] /\
    s_auto_completed (merge_summary 1 m) = 1 /\ s_removed (merge_summary 1 m) = 0.
Proof. eexists. split; [vm_compute; reflexivity|]. by vm_compute. Qed.

(** Scenario C: no longer upcoming, not done, not completed: removed. *)
Example scenario_C :
  exists m, merge uuid_n [] [] [row_essay] = Ok m /\
    saved_rows m = [] /\ s_removed (merge_summary 1 m) = 1.
Proof. eexists. split; [vm_compute; reflexivity|]. by vm_compute. Qed.

(** Scenario D: three days before the due date the reminder is sent once. *)
Example scenario_D :
  f_tag <$> (run_checks_n (calendar_on "2026-03-07") 2 (Doc [row_essay])).1
  = ["3_days"].
Proof. by vm_compute. Qed.

(** Scenario E: the day after the due date nothing is sent. *)
Example scenario_E :
  run_checks (calendar_on "2026-03-11") true (Doc [row_essay])
  = ([], Ok tt, Doc [row_essay]).
Proof. by vm_compute. Qed.

(** ** The claims at concrete inputs *)

(** C1 on the code. Canvas returns the assignment 5 twice among the
    upcoming ones of a course: [sync] writes two rows with [canvas_id] 5,
    so the ids of the rows it writes are not pairwise distinct. *)
Theorem duplicate_upcoming_id_written_twice :
  exists s rows,
    sync uuid_n world_duplicate Missing = (Ok s, Doc rows) /\
    omap row_key rows = [KInt 5; KInt 5] /\
    s_added s = 2 /\
    ~ NoDup (omap row_key rows).
Proof.
  eexists _, _. split; [vm_compute; reflexivity|].
  split; [by vm_compute|]. split; [by vm_compute|].
  intros [Hin _]%NoDup_cons. apply Hin. vm_compute. apply list_elem_of_here.
Qed.

(** C2 as the specification words it fails: with two courses fetched and
    upcoming work in one of them, [courses] is 2 and the upcoming entries
    name one course. *)
Lemma courses_is_not_the_upcoming_course_names :
  exists s store' courses ups ids,
    sync uuid_n world_two_courses Missing = (Ok s, store') /\
    fetch world_two_courses = Ok (courses, ups, ids) /\
    s_courses s = 2 /\
    spec_course_count ups = 1 /\
    s_courses s ≠ spec_course_count ups.
Proof.
  eexists _, _, _, _, _. split; [vm_compute; reflexivity|].
  split; [vm_compute; reflexivity|]. by vm_compute.
Qed.

(** C5 as the specification words it fails for a record that is not the
    last one with its id. The file is the one [sync] leaves when Canvas
    has listed the essay twice; at the next [sync] the essay is no longer
    upcoming and is submitted. [by_canvas_id] holds the second row only:
    the first one is not written again, and [removed] does not count
    it. *)
Lemma earlier_done_duplicate_is_not_kept :
  exists s1 courses s2 rows2,
    sync uuid_n world_duplicate Missing = (Ok s1, Doc rows_duplicate) /\
    rows_duplicate !! 0 = Some row_essay /\
    row_key row_essay = Some (KInt 5) /\
    fetch world_submitted = Ok (courses, [], [KInt 5]) /\
    sync uuid_n world_submitted (Doc rows_duplicate) = (Ok s2, Doc rows2) /\
    Forall (fun r' => dict_get "id" r' ≠ dict_get "id" row_essay) rows2 /\
    length rows2 = 1 /\
    s_removed s2 = 0 /\
    s_auto_completed s2 = 1.
Proof.
  eexists _, _, _, _. split; [vm_compute; reflexivity|].
  split; [reflexivity|]. split; [reflexivity|].
  split; [vm_compute; reflexivity|].
  split; [vm_compute; reflexivity|].
  split; [|by vm_compute].
  apply Forall_cons_2; [discriminate | apply Forall_nil_2].
Qed.

(** C10 as the specification words it fails in the same way: with the
    essay both upcoming and submitted, the second of the two rows is
    refreshed and written, the first is not written again. *)
Lemma earlier_upcoming_duplicate_is_not_kept :
  exists courses s rows2,
    rows_duplicate !! 0 = Some row_essay /\
    row_key row_essay = Some (KInt 5) /\
    fetch world_upcoming_and_submitted = Ok (courses, [essay], [KInt 5]) /\
    sync uuid_n world_upcoming_and_submitted (Doc rows_duplicate)
      = (Ok s, Doc rows2) /\
    Forall (fun r' => dict_get "id" r' ≠ dict_get "id" row_essay) rows2 /\
    length rows2 = 1.
Proof.
  eexists _, _, _. split; [reflexivity|]. split; [reflexivity|].
  split; [vm_compute; reflexivity|].
  split; [vm_compute; reflexivity|].
  split; [|by vm_compute].
  apply Forall_cons_2; [discriminate | apply Forall_nil_2].
Qed.

(** C6 on the code. The first row has a title that holds U+0000 and is
    due in three days: [subprocess.run] raises [ValueError] for its
    script, nothing catches it, and the run ends there. The second row
    is due in three days too, with no reminder recorded, and gets none:
    the only call made is the one for the first row, and no tag is added
    to either row. *)
Theorem unsendable_title_ends_the_run :
  days_until (calendar_on "2026-03-07") row_essay = Some 3%Z /\
  sent_of row_essay = VList [] /\
  exists e,
    run_checks (calendar_on "2026-03-07") true (Doc [row_nul; row_essay])
      = ([e], Raise ValueError, Doc [row_nul; row_essay]) /\
    fired_key e = (0, "3_days") /\
    deliver (calendar_on "2026-03-07") e = Raise ValueError.
Proof.
  split; [reflexivity|]. split; [reflexivity|].
  eexists. split; [vm_compute; reflexivity|]. split; reflexivity.
Qed.

(** C7 on the code. The reminder of the first row is delivered, then the
    call for the second row raises and the run ends before the file is
    written: the tag of the first row is not recorded, and the next run
    on the same day delivers its reminder again. *)
Theorem aborted_run_repeats_reminders :
  exists e0 e1,
    run_checks_n (calendar_on "2026-03-07") 2 (Doc [row_essay; row_nul])
      = ([e0; e1; e0; e1], Doc [row_essay; row_nul]) /\
    fired_key e0 = (0, "3_days") /\
    deliver (calendar_on "2026-03-07") e0 = Ok tt /\
    deliver (calendar_on "2026-03-07") e1 = Raise ValueError /\
    ~ NoDup (fired_key <$> [e0; e1; e0; e1]).
Proof.
  eexists _, _. split; [vm_compute; reflexivity|].
  split; [reflexivity|]. split; [reflexivity|]. split; [reflexivity|].
  intros [Hin _]%NoDup_cons. apply Hin. vm_compute.
  apply list_elem_of_further, list_elem_of_here.
Qed.

Lemma manual_rows_pass_through_witness :
  exists m,
    merge uuid_n [essay_moved] [] [row_manual; row_essay] = Ok m /\
    row_manual ∈ saved_rows m /\
    filter (fun r => is_manual r = true) (saved_rows m) = [row_manual].
Proof.
  eexists. split; [vm_compute; reflexivity|].
  destruct (manual_rows_pass_through uuid_n [essay_moved] []
              [row_manual; row_essay] _ eq_refl) as (Hin & Hfilter & _).
  split.
  - apply Hin; [apply list_elem_of_here | reflexivity].
  - etransitivity; [exact Hfilter | reflexivity].
Defined.

Lemma completed_is_never_reverted_witness :
  (exists m r',
     merge uuid_n [] [] [row_manual; mark_completed row_essay] = Ok m /\
     heap (m_state m) !! 1 = Some r' /\
     truthy (get_or_none "completed" r') = true) /\
  (exists rows' r',
     (run_checks (calendar_on "2026-03-06") true (Doc [row_manual])).2 = Doc rows' /\
     rows' !! 0 = Some r' /\
     get_or_none "completed" r' = VBool true).
Proof.
  destruct completed_is_never_reverted as [Hsync Hchecks]. split.
  - eexists.
    destruct (Hsync uuid_n [] [] [row_manual; mark_completed row_essay] _ 1
                (mark_completed row_essay) eq_refl eq_refl eq_refl)
      as (r' & Hr' & Hc & _).
    exists r'. split; [reflexivity|]. by split.
  - destruct (Hchecks (calendar_on "2026-03-06") true [row_manual] _ _ _ eq_refl)
      as (rows' & Hstore & _ & Hrows).
    destruct (Hrows 0 row_manual eq_refl) as (r' & Hr' & Hc).
    exists rows', r'. split_and!; [exact Hstore | exact Hr' | exact Hc].
Defined.

Lemma done_row_kept_and_completed_witness :
  exists m,
    merge uuid_n [] [KInt 5] [row_essay; row_manual] = Ok m /\
    upcoming_canvas_ids [] = Ok [] /\
    [row_essay; row_manual] !! 0 = Some row_essay /\
    row_key row_essay = Some (KInt 5) /\
    (KInt 5 ∉ @nil key) /\
    KInt 5 ∈ [KInt 5] /\
    Ref 0 ∈ new_canvas_rows (m_state m) /\
    mark_completed row_essay ∈ saved_rows m /\
    s_auto_completed (merge_summary 1 m) = 1.
Proof.
  eexists. split; [vm_compute; reflexivity|].
  assert (forall j r', 0 < j -> [row_essay; row_manual] !! j = Some r' ->
            row_key r' ≠ Some (KInt 5)) as Hlast.
  { intros [|[|j]] r' Hj Hr'; [lia | | done].
    injection Hr' as <-. discriminate. }
  destruct (done_row_kept_and_completed uuid_n [] [KInt 5] [row_essay; row_manual]
              _ [] 0 row_essay (KInt 5) 1 eq_refl eq_refl eq_refl eq_refl Hlast
              (not_elem_of_nil _) (list_elem_of_here _ _))
    as (Hkept & _ & Hsaved & _ & Hcount & _ & _).
  split_and!;
    first [ exact Hkept | exact Hsaved
          | etransitivity; [exact Hcount | reflexivity]
          | reflexivity | apply not_elem_of_nil | apply list_elem_of_here ].
Defined.

Lemma upcoming_takes_precedence_witness :
  exists m,
    merge uuid_n [essay_moved] [KInt 5] [row_essay] = Ok m /\
    upcoming_canvas_ids [essay_moved] = Ok [KInt 5] /\
    [row_essay] !! 0 = Some row_essay /\
    row_key row_essay = Some (KInt 5) /\
    KInt 5 ∈ [KInt 5] /\
    exists r',
      heap (m_state m) !! 0 = Some r' /\
      dict_get "title" r' = Some (VStr "Essay (final)") /\
      dict_get "completed" r' = Some (VBool false) /\
      s_auto_completed (merge_summary 1 m) = 0.
Proof.
  eexists. split; [vm_compute; reflexivity|].
  assert (forall j r', 0 < j -> [row_essay] !! j = Some r' ->
            row_key r' ≠ Some (KInt 5)) as Hlast.
  { intros [|j] r' Hj Hr'; [lia | done]. }
  destruct (upcoming_takes_precedence uuid_n [essay_moved] [KInt 5] [row_essay]
              _ [KInt 5] 0 row_essay (KInt 5) 1 eq_refl eq_refl eq_refl eq_refl Hlast
              (list_elem_of_here _ _) (list_elem_of_here _ _))
    as (ca & r' & Hca & _ & _ & Hr' & _ & Ht & _ & _ & Hc & Hcount & _ & _).
  apply list_elem_of_singleton in Hca. subst ca.
  split_and!; [reflexivity | reflexivity | reflexivity | apply list_elem_of_here |].
  exists r'. split_and!; [exact Hr' | exact Ht | exact Hc |].
  etransitivity; [exact Hcount | reflexivity].
Defined.

Lemma courses_counts_fetched_courses_witness :
  exists s store',
    sync uuid_n world_two_courses Missing = (Ok s, store') /\
    s_courses s = length (remove_dups (course_keys [course_eng; course_math])) /\
    s_courses s = 2.
Proof.
  eexists _, _. split; [vm_compute; reflexivity|].
  destruct (courses_counts_fetched_courses uuid_n world_two_courses Missing _ _ eq_refl)
    as (url & token & raw & courses & ups & ids & Hcfg & Hraw & _ & Hcount & _).
  injection Hcfg as <- <-. injection Hraw as <-.
  split; [exact Hcount | reflexivity].
Defined.

Lemma failed_fetch_writes_nothing_witness :
  sync uuid_n world_unreachable (Doc [row_manual])
    = (Raise (RuntimeError "Could not reach Canvas"), Doc [row_manual]) /\
  exists s rows canvas_rows,
    sync uuid_n world_two_courses (Doc [row_manual]) = (Ok s, Doc rows) /\
    rows = [row_manual] ++ canvas_rows /\
    length canvas_rows = s_total_canvas s /\
    s_total_canvas s = 1.
Proof.
  split.
  - destruct (failed_fetch_writes_nothing uuid_n world_unreachable
                (Doc [row_manual])) as [H _].
    apply H. right. exists "https://canvas.test", "secret". split; reflexivity.
  - destruct (failed_fetch_writes_nothing uuid_n world_two_courses
                (Doc [row_manual])) as [_ H].
    assert (fetch world_two_courses =
            Ok ([(KInt 1, (VInt 1, VStr "ENG101"));
                 (KInt 2, (VInt 2, VStr "MATH200"))], [essay], [])) as Hf
      by (vm_compute; reflexivity).
    rewrite Hf in H. cbv beta iota in H.
    destruct (merge uuid_n [essay] [] (load_assignments (Doc [row_manual])))
      as [m|e] eqn:Hm; [|vm_compute in Hm; discriminate Hm].
    destruct H as (Hsync & canvas_rows & Hsaved & Hlen & _).
    exists (merge_summary 2 m), (saved_rows m), canvas_rows.
    split_and!; [exact Hsync | exact Hsaved | exact Hlen |].
    vm_compute in Hm. injection Hm as <-. reflexivity.
Defined.

Lemma past_due_rows_are_skipped_witness :
  [row_manual; row_essay] !! 0 = Some row_manual /\
  days_until (calendar_on "2026-03-10") row_manual = Some (-1)%Z /\
  exists f res rows',
    run_checks (calendar_on "2026-03-10") true (Doc [row_manual; row_essay])
      = (f, res, Doc rows') /\
    (forall e, e ∈ f -> f_index e ≠ 0) /\
    rows' !! 0 = Some row_manual.
Proof.
  split; [reflexivity|]. split; [reflexivity|].
  destruct (past_due_rows_are_skipped (calendar_on "2026-03-10") true
              [row_manual; row_essay] 0 row_manual (-1)%Z _ _ _
              eq_refl eq_refl eq_refl eq_refl)
    as (Hnone & rows' & Hstore & Hrow).
  eexists _, _, rows'. split_and!; [|exact Hnone | exact Hrow].
  rewrite <- Hstore. reflexivity.
Defined.

(** * Further properties of the merge *)

Lemma last_idx_max k i rows l :
  last_idx k i rows = Some l ->
  forall n r, l < i + n -> rows !! n = Some r -> row_key r ≠ Some k.
Proof.
  revert i. induction rows as [|r0 rows IH]; intros i; simpl; [done|].
  destruct (last_idx k (S i) rows) as [j|] eqn:E.
  - intros [= ->] [|n] r Hlt Hn.
    + apply last_idx_Some in E as (m & _ & -> & _). lia.
    + simpl in Hn. apply (IH (S i) E n r); [lia | done].
  - destruct (decide (row_key r0 = Some k)); [|done].
    intros [= <-] [|n] r Hlt Hn; [lia|].
    simpl in Hn. by eapply last_idx_None.
Qed.

Lemma tracked_true existing k :
  tracked existing k = true <-> exists r, r ∈ existing /\ row_key r = Some k.
Proof.
  unfold tracked. rewrite existsb_exists. split.
  - intros (r & Hin & Hk). exists r. split; [by apply list_elem_of_In|].
    by apply bool_decide_eq_true in Hk.
  - intros (r & Hin & Hk). exists r. split; [by apply list_elem_of_In|].
    by apply bool_decide_eq_true.
Qed.

Lemma split_rows_untracked existing manual by_id k :
  split_rows 0 existing [] [] = Ok (manual, by_id) ->
  kdict_get k by_id = None <-> tracked existing k = false.
Proof.
  intros H. rewrite (split_rows_get k _ _ _ _ _ _ H). simpl.
  destruct (last_idx k 0 existing) as [l|] eqn:E.
  - split; [done|]. intros Hf.
    apply last_idx_Some in E as (n & r & _ & Hn & Hk).
    assert (tracked existing k = true) as Ht; [|congruence].
    apply tracked_true. exists r. split; [by eapply list_elem_of_lookup_2 | done].
  - split; [|done]. intros _.
    destruct (tracked existing k) eqn:Ht; [|done].
    apply tracked_true in Ht as (r & [n Hn]%list_elem_of_lookup & Hk).
    by destruct (last_idx_None _ _ _ _ _ E Hn).
Qed.

Section MergeMore.

Variable uuid4 : nat -> string.

(** Which references the first loop appends. *)
Lemma slot_ref_elem_of by_id ups slots i :
  Forall2 (slot_for by_id) ups slots ->
  Ref i ∈ slots <->
  exists ca k, ca ∈ ups /\ hash_key (u_canvas_id ca) = Some k /\
    kdict_get k by_id = Some i.
Proof.
  induction 1 as [|ca s ups slots Hs _ IH].
  - split; [by intros ?%elem_of_nil|]. by intros (ca & k & ?%elem_of_nil & _).
  - rewrite elem_of_cons, IH. split.
    + intros [Heq|(ca' & k & Hin & Hk & Hget)].
      * destruct Hs as (cid & Hcid & [(j & -> & Hj)|(id & -> & _)]); [|done].
        injection Heq as ->. exists ca, cid.
        split_and!; [apply list_elem_of_here | done | done].
      * exists ca', k. split_and!; [by apply list_elem_of_further | done | done].
    + intros (ca' & k & [->|Hin]%elem_of_cons & Hk & Hget).
      * left. destruct Hs as (cid & Hcid & [(j & -> & Hj)|(id & _ & Hnone)]);
          congruence.
      * right. by exists ca', k.
Qed.

(** X1. [total_canvas] is the number of rows with a [canvas_id] in the list
    written, and the list is the manual rows of the input plus those. *)
Theorem total_canvas_counts_written_rows ups subm existing m c :
  merge uuid4 ups subm existing = Ok m ->
  s_total_canvas (merge_summary c m) =
    length (filter (fun r => is_manual r = false) (saved_rows m)) /\
  length (saved_rows m) =
    length (filter (fun r => is_manual r = true) existing) +
    s_total_canvas (merge_summary c m).
Proof.
  intros Hm. destruct (saved_rows_split uuid4 _ _ _ _ Hm) as [Hsaved Hcanvas].
  rewrite Hsaved, filter_app, !length_app. simpl.
  rewrite (filter_none (fun r => is_manual r = false)
             (filter (fun r => is_manual r = true) existing)).
  2:{ apply Forall_forall. intros r [Hr _]%list_elem_of_filter. congruence. }
  rewrite (filter_all _ _ Hcanvas), !length_fmap. simpl. done.
Qed.

(** X2. A tracked row is in the list written exactly when its id is
    upcoming, or in the done set, or its [completed] is truthy; otherwise
    it is one of the rows [removed] counts. The row is the one
    [by_canvas_id] holds for its id. *)
Theorem tracked_row_written_iff ups subm existing m keys i r k c :
  merge uuid4 ups subm existing = Ok m ->
  upcoming_canvas_ids ups = Ok keys ->
  existing !! i = Some r ->
  row_key r = Some k ->
  (forall j r', i < j -> existing !! j = Some r' -> row_key r' ≠ Some k) ->
  let stays := k ∈ keys \/ k ∈ subm \/ truthy (get_or_none "completed" r) = true in
  let gone := dropped_rows keys subm existing (m_by_canvas_id m) in
  (Ref i ∈ new_canvas_rows (m_state m) <-> stays) /\
  s_removed (merge_summary c m) = length gone /\
  NoDup gone /\
  (i ∈ gone <-> ~ stays).
Proof.
  intros Hm Hkeys Hi Hk Hlast stays gone.
  destruct (merge_inv uuid4 _ _ _ _ Hm) as (keys' & _ & Hsplit & Hkeys' & _ & _).
  assert (keys' = keys) as -> by congruence.
  destruct (merge_keys_ok uuid4 _ _ _ _ Hm) as (Hnd & Hok & _).
  pose proof (split_rows_last _ _ _ _ _ _ Hsplit Hi Hk Hlast) as Hget.
  apply kdict_get_Some_elem_of in Hget as Hin.
  destruct (merge_spec uuid4 _ _ _ _ _ Hm Hkeys)
    as (_ & slots & _ & _ & _ & Hall & Hnew & _ & Hrem & _).
  assert (completed_at existing i = truthy (get_or_none "completed" r)) as Hc.
  { unfold completed_at. by rewrite Hi. }
  assert (forall P : key * nat -> bool,
            i ∈ (filter (fun e => P e = true) (m_by_canvas_id m)).*2 <->
            P (k, i) = true) as Hfilter.
  { intros P. rewrite list_elem_of_fmap. split.
    - intros ([k' i'] & ? & [HP Hin']%list_elem_of_filter). simpl in *; subst.
      by rewrite (keys_ok_inj _ _ _ _ _ Hok Hin Hin').
    - intros HP. exists (k, i). split; [done|]. by apply list_elem_of_filter. }
  assert (kset_mem k keys = true <-> k ∈ keys) as Hmk by apply kset_mem_elem_of.
  assert (kset_mem k subm = true <-> k ∈ subm) as Hms by apply kset_mem_elem_of.
  split_and!.
  - rewrite Hnew, elem_of_app, (slot_ref_elem_of _ _ _ i Hall).
    assert (Ref i ∈ Ref <$> (filter (fun e => kept keys subm existing e = true)
                               (m_by_canvas_id m)).*2 <->
            kept keys subm existing (k, i) = true) as ->.
    { rewrite <- Hfilter, list_elem_of_fmap. split.
      - by intros (j & [= ->] & ?).
      - intros ?. by exists i. }
    unfold kept, stays. simpl. rewrite Hc. split.
    + intros [(ca & k' & Hca & Hk' & Hget')|Hkept].
      * left. apply kdict_get_Some_elem_of in Hget'.
        rewrite (keys_ok_inj _ _ _ _ _ Hok Hin Hget').
        apply (upcoming_canvas_ids_elem_of _ _ k' Hkeys). by exists ca.
      * apply andb_true_iff in Hkept as [_ [?|?]%orb_true_iff]; tauto.
    + intros Hstay. destruct (decide (k ∈ keys)) as [Hup|Hup].
      * left. apply (upcoming_canvas_ids_elem_of _ _ k Hkeys) in Hup as (ca & ? & ?).
        by exists ca, k.
      * right. rewrite (proj2 (kset_mem_not_elem_of k keys) Hup). simpl.
        destruct Hstay as [?|[Hs|Hs]]; [done | |].
        -- apply Hms in Hs. by rewrite Hs.
        -- rewrite Hs. by rewrite orb_true_r.
  - unfold gone, dropped_rows. simpl. by rewrite Hrem, length_fmap.
  - unfold gone, dropped_rows. apply NoDup_filter_snd, NoDup_snd_of_fst; [done|].
    intros. by eapply keys_ok_inj.
  - unfold gone, dropped_rows. rewrite Hfilter. unfold dropped, stays. simpl.
    rewrite Hc, <- Hmk, <- Hms.
    destruct (kset_mem k keys), (kset_mem k subm),
      (truthy (get_or_none "completed" r)); simpl; split; try done;
      try (intros []; tauto); intros _ [?|[?|?]]; done.
Qed.

(** X3. A tracked row that is no longer upcoming and whose [completed] is
    truthy is written as it was, whether or not its id is in the done
    set. *)
Theorem completed_row_kept_unchanged ups subm existing m keys i r k :
  merge uuid4 ups subm existing = Ok m ->
  upcoming_canvas_ids ups = Ok keys ->
  existing !! i = Some r ->
  row_key r = Some k ->
  (forall j r', i < j -> existing !! j = Some r' -> row_key r' ≠ Some k) ->
  k ∉ keys ->
  truthy (get_or_none "completed" r) = true ->
  Ref i ∈ new_canvas_rows (m_state m) /\
  heap (m_state m) !! i = Some r /\
  r ∈ saved_rows m.
Proof.
  intros Hm Hkeys Hi Hk Hlast Hup Hc.
  destruct (merge_inv uuid4 _ _ _ _ Hm) as (keys' & _ & Hsplit & Hkeys' & _ & _).
  assert (keys' = keys) as -> by congruence.
  destruct (merge_keys_ok uuid4 _ _ _ _ Hm) as (Hnd & Hok & _).
  pose proof (split_rows_last _ _ _ _ _ _ Hsplit Hi Hk Hlast) as Hget.
  apply kdict_get_Some_elem_of in Hget as Hin.
  apply kset_mem_not_elem_of in Hup as Hup'.
  assert (completed_at existing i = true) as Hc'.
  { unfold completed_at. by rewrite Hi. }
  destruct (merge_spec uuid4 _ _ _ _ _ Hm Hkeys)
    as (_ & slots & _ & _ & _ & _ & Hnew & _).
  assert (Ref i ∈ new_canvas_rows (m_state m)) as Hkept.
  { rewrite Hnew. apply elem_of_app. right.
    apply list_elem_of_fmap. exists i. split; [done|].
    apply list_elem_of_fmap. exists (k, i). split; [done|].
    apply list_elem_of_filter. split; [|done].
    unfold kept. simpl. by rewrite Hup', Hc', orb_true_r. }
  assert (heap (m_state m) !! i = Some r) as Hheap.
  { destruct (merge_final_heap uuid4 _ _ _ _ _ _ _ Hm Hkeys Hi)
      as (r1 & _ & Hsame & Hfin).
    rewrite Hfin, Hsame.
    - rewrite decide_False; [done|].
      rewrite (auto_marked_rows_elem_of _ _ _ _ k i Hok Hin).
      unfold auto_marked. simpl. by rewrite Hc', andb_false_r.
    - intros ca Hca (cid & Hcid & Hget2%kdict_get_Some_elem_of).
      assert (cid = k) as -> by (by eapply keys_ok_inj).
      apply Hup. apply (upcoming_canvas_ids_elem_of _ _ k Hkeys). by exists ca. }
  split_and!; [done | done | by eapply saved_rows_ref].
Qed.

(** X4. When two local rows carry the same id, the earlier one is neither
    written nor counted: [by_canvas_id] holds the later one only. *)
Theorem earlier_duplicate_is_dropped ups subm existing m i j r r' k :
  merge uuid4 ups subm existing = Ok m ->
  existing !! i = Some r ->
  existing !! j = Some r' ->
  i < j ->
  row_key r = Some k ->
  row_key r' = Some k ->
  (Ref i ∉ (Ref <$> m_manual m) ++ new_canvas_rows (m_state m)) /\
  i ∉ (m_by_canvas_id m).*2.
Proof.
  intros Hm Hi Hj Hlt Hk Hk'.
  destruct (merge_inv uuid4 _ _ _ _ Hm) as (keys & _ & Hsplit & Hkeys & _ & _).
  destruct (merge_keys_ok uuid4 _ _ _ _ Hm) as (Hnd & Hok & _).
  assert (i ∉ (m_by_canvas_id m).*2) as Hnot.
  { intros ([k0 i0] & ? & Hin)%list_elem_of_fmap. simpl in *; subst i0.
    destruct (Hok _ _ Hin) as (r0 & Hr0 & Hk0).
    assert (k0 = k) as -> by congruence.
    apply kdict_elem_of_get in Hin; [|done].
    rewrite (split_rows_get k _ _ _ _ _ _ Hsplit) in Hin. simpl in Hin.
    destruct (last_idx k 0 existing) as [l|] eqn:E; [|done].
    injection Hin as ->.
    by destruct (last_idx_max _ _ _ _ E j r' Hlt Hj). }
  split; [|done].
  destruct (merge_spec uuid4 _ _ _ _ _ Hm Hkeys)
    as (_ & slots & _ & _ & _ & Hall & Hnew & _).
  rewrite Hnew, !elem_of_app. intros [Hman|[Hslot|Hkept]].
  - apply list_elem_of_fmap in Hman as (i' & [= <-] & Hman).
    rewrite (split_rows_manual _ _ _ _ _ _ Hsplit) in Hman. simpl in Hman.
    apply manual_from_elem_of in Hman as (n & r0 & Hn & Hr0 & Hman).
    simpl in Hn. subst n. assert (r0 = r) as -> by congruence.
    apply is_manual_row_key in Hman. congruence.
  - apply (slot_ref_elem_of _ _ _ i Hall) in Hslot as (ca & k0 & _ & _ & Hget).
    apply kdict_get_Some_elem_of in Hget. apply Hnot.
    apply list_elem_of_fmap. by exists (k0, i).
  - apply list_elem_of_fmap in Hkept as (i' & [= <-] & Hkept).
    apply list_elem_of_fmap in Hkept as ([k0 i0] & ? & [_ Hin]%list_elem_of_filter).
    simpl in *; subst i0. apply Hnot. apply list_elem_of_fmap. by exists (k0, i).
Qed.

End MergeMore.

Section MergeCounts.

Variable uuid4 : nat -> string.

Lemma upcoming_step_added by_id st ca st' :
  upcoming_step uuid4 by_id st ca = Ok st' ->
  let n := if untracked by_id ca then 1 else 0 in
  added st' = added st + n /\
  uuids st' = uuids st + n /\
  omap created_id (new_canvas_rows st') =
    omap created_id (new_canvas_rows st) ++
    (if untracked by_id ca then [VStr (uuid4 (uuids st))] else []) /\
  updated st' = updated st + (if changed_in by_id (heap st) ca then 1 else 0).
Proof.
  unfold upcoming_step, untracked, changed_in.
  destruct (hash_key (u_canvas_id ca)) as [cid|]; [|done].
  destruct (kdict_get cid by_id) as [i|] eqn:Hget.
  - destruct (heap st !! i) as [r|]; [|done]. intros [= <-]. simpl.
    rewrite omap_app. simpl. rewrite !app_nil_r.
    split_and!; [lia | lia | done |]. destruct (row_changed r ca); simpl; lia.
  - intros [= <-]. simpl. rewrite omap_app. simpl.
    split_and!; [lia | lia | done | lia].
Qed.

Lemma untracked_step_slot by_id st ca st' :
  upcoming_step uuid4 by_id st ca = Ok st' ->
  untracked by_id ca = true ->
  New (new_row (uuid4 (uuids st)) ca) ∈ new_canvas_rows st'.
Proof.
  unfold upcoming_step, untracked.
  destruct (hash_key (u_canvas_id ca)) as [cid|]; [|done].
  intros H Hun%bool_decide_eq_true. rewrite Hun in H.
  injection H as <-. simpl. apply elem_of_app. right. apply list_elem_of_here.
Qed.

Lemma upcoming_loop_added by_id ups : forall st st',
  upcoming_loop uuid4 by_id st ups = Ok st' ->
  let n := length (filter (fun ca => untracked by_id ca = true) ups) in
  added st' = added st + n /\
  uuids st' = uuids st + n /\
  omap created_id (new_canvas_rows st') =
    omap created_id (new_canvas_rows st) ++
    ((fun j => VStr (uuid4 j)) <$> seq (uuids st) n) /\
  forall ca, ca ∈ ups -> untracked by_id ca = true ->
    exists j, uuids st <= j < uuids st' /\
      New (new_row (uuid4 j) ca) ∈ new_canvas_rows st'.
Proof.
  induction ups as [|ca ups IH]; intros st st'; simpl.
  - intros [= <-]. rewrite app_nil_r.
    split_and!; [lia | lia | done |]. by intros ca ?%elem_of_nil.
  - destruct (upcoming_step uuid4 by_id st ca) as [st1|] eqn:Hstep; [|done].
    simpl. intros Hloop.
    destruct (upcoming_step_added _ _ _ _ Hstep) as (Ha & Hu & Hc & _).
    destruct (IH _ _ Hloop) as (Ha' & Hu' & Hc' & Hnew).
    destruct (upcoming_loop_slots uuid4 _ _ _ _ Hloop) as (slots & Hslots & _).
    rewrite filter_cons.
    destruct (decide (untracked by_id ca = true)) as [E|E].
    + rewrite E in *. simpl. split_and!; [lia | lia | |].
      * rewrite Hc', Hc, <- app_assoc. f_equal. simpl. f_equal.
        by replace (uuids st1) with (S (uuids st)) by lia.
      * intros ca' [->|Hin]%elem_of_cons Hun.
        -- exists (uuids st). split; [lia|].
           rewrite Hslots. apply elem_of_app. left.
           by apply (untracked_step_slot by_id).
        -- destruct (Hnew _ Hin Hun) as (j & ? & ?). exists j. split; [lia|done].
    + apply not_true_is_false in E. rewrite E in *. simpl.
      rewrite Nat.add_0_r in Ha, Hu. rewrite app_nil_r in Hc.
      split_and!; [lia | lia | |].
      * rewrite Hc', Hc. by rewrite Hu.
      * intros ca' [->|Hin]%elem_of_cons Hun; [congruence|].
        destruct (Hnew _ Hin Hun) as (j & ? & ?). exists j. split; [lia|done].
Qed.

Lemma tracked_loop_added subm entries : forall st st',
  tracked_loop subm st entries = Ok st' ->
  added st' = added st /\ uuids st' = uuids st /\ updated st' = updated st.
Proof.
  induction entries as [|[k i] entries IH]; intros st st'.
  - by intros [= <-].
  - rewrite tracked_loop_cons.
    destruct (tracked_step subm st (k, i)) as [st1|] eqn:Hstep; [|done].
    simpl. intros (-> & -> & ->)%IH. revert Hstep. unfold tracked_step.
    destruct (kset_mem k (processed_ids st)); [by intros [= <-]|].
    destruct (heap st !! i) as [r|]; [|done].
    destruct (kset_mem k subm); [by intros [= <-]|].
    destruct (truthy (get_or_none "completed" r)); by intros [= <-].
Qed.

Lemma untracked_is_new existing manual by_id ca :
  split_rows 0 existing [] [] = Ok (manual, by_id) ->
  untracked by_id ca = is_new existing ca.
Proof.
  intros Hsplit. unfold untracked, is_new.
  destruct (hash_key (u_canvas_id ca)) as [k|]; [|done].
  pose proof (split_rows_untracked _ _ _ k Hsplit) as Hiff.
  destruct (tracked existing k).
  - apply bool_decide_eq_false. intros H%Hiff. done.
  - apply bool_decide_eq_true. by apply Hiff.
Qed.

Lemma omap_created_id_ref (l : list nat) : omap created_id (Ref <$> l) = [].
Proof. induction l as [|i l IH]; [done|]. by simpl. Qed.

(** X5. [added] is the number of upcoming entries whose id no local row
    carries, each occurrence counted; the rows created take the
    identifiers drawn from [uuid4], in order. *)
Theorem added_counts_untracked_entries ups subm existing m c :
  merge uuid4 ups subm existing = Ok m ->
  s_added (merge_summary c m) =
    length (filter (fun ca => is_new existing ca = true) ups) /\
  omap created_id (new_canvas_rows (m_state m)) =
    (fun j => VStr (uuid4 j)) <$> seq 0 (s_added (merge_summary c m)).
Proof.
  intros Hm.
  destruct (merge_inv uuid4 _ _ _ _ Hm) as (keys & st1 & Hsplit & Hkeys & H1 & H2).
  destruct (upcoming_loop_added _ _ _ _ H1) as (Ha & Hu & Hc & _).
  destruct (tracked_loop_added _ _ _ _ H2) as (Ha2 & _ & _).
  destruct (split_rows_by_id _ _ _ Hsplit) as (_ & _ & Hnd).
  destruct (tracked_loop_spec _ _ _ _ H2 Hnd) as (_ & Hnew & _).
  assert (filter (fun ca => untracked (m_by_canvas_id m) ca = true) ups =
          filter (fun ca => is_new existing ca = true) ups) as Hf.
  { apply filter_agree. intros ca.
    by rewrite (untracked_is_new _ _ _ ca Hsplit). }
  rewrite Hf in *. simpl in *. rewrite Ha2, Ha. split; [done|].
  by rewrite Hnew, omap_app, omap_created_id_ref, app_nil_r, Hc.
Qed.

Lemma merge_fresh_row ups subm existing m ca :
  merge uuid4 ups subm existing = Ok m ->
  ca ∈ ups ->
  is_new existing ca = true ->
  exists j, j < added (m_state m) /\
    new_row (uuid4 j) ca ∈ saved_rows m.
Proof.
  intros Hm Hca Hnew.
  destruct (merge_inv uuid4 _ _ _ _ Hm) as (keys & st1 & Hsplit & Hkeys & H1 & H2).
  destruct (upcoming_loop_added _ _ _ _ H1) as (Ha & Hu & _ & Hrows).
  destruct (tracked_loop_added _ _ _ _ H2) as (Ha2 & _ & _).
  destruct (split_rows_by_id _ _ _ Hsplit) as (_ & _ & Hnd).
  destruct (tracked_loop_spec _ _ _ _ H2 Hnd) as (_ & Hnew2 & _).
  rewrite <- (untracked_is_new _ _ _ ca Hsplit) in Hnew.
  destruct (Hrows _ Hca Hnew) as (j & Hj & Hin). simpl in *.
  exists j. split; [lia|].
  unfold saved_rows. apply list_elem_of_In, in_map_iff.
  exists (New (new_row (uuid4 j) ca)). split; [done|].
  apply in_or_app. right. apply list_elem_of_In.
  rewrite Hnew2. apply elem_of_app. by left.
Qed.

(** X6. Every upcoming entry whose id no local row carries is written as
    a fresh row, uncompleted and with no reminder recorded, under one
    of the identifiers drawn in this pass; it is a row with a
    [canvas_id], so never one of the manual rows. *)
Theorem untracked_upcoming_gets_fresh_row ups subm existing m ca c :
  merge uuid4 ups subm existing = Ok m ->
  ca ∈ ups ->
  is_new existing ca = true ->
  exists j r,
    j < s_added (merge_summary c m) /\
    r = new_row (uuid4 j) ca /\
    r ∈ saved_rows m /\
    is_manual r = false /\
    truthy (get_or_none "completed" r) = false /\
    sent_list r = [].
Proof.
  intros Hm Hca Hnew.
  destruct (merge_fresh_row _ _ _ _ _ Hm Hca Hnew) as (j & Hj & Hin).
  exists j, (new_row (uuid4 j) ca). by split_and!.
Qed.

End MergeCounts.

Section MergeShape.

Variable uuid4 : nat -> string.

Lemma split_rows_hashable rows : forall i manual by_id p,
  split_rows i rows manual by_id = Ok p -> hashable_rows rows.
Proof.
  induction rows as [|r rows IH]; intros i manual by_id p; simpl.
  - intros _. apply Forall_nil_2.
  - destruct (dict_get "canvas_id" r) as [v|] eqn:Hv.
    + destruct (hash_key v) as [k|] eqn:Hk; [|done].
      intros H%IH. apply Forall_cons_2; [|done].
      intros v' Hv'. rewrite Hv in Hv'. injection Hv' as <-. by rewrite Hk.
    + intros H%IH. apply Forall_cons_2; [|done].
      intros v' Hv'. by rewrite Hv in Hv'.
Qed.

Lemma split_rows_raises rows : forall i manual by_id e,
  split_rows i rows manual by_id = Raise e -> e = TypeError.
Proof.
  induction rows as [|r rows IH]; intros i manual by_id e; simpl; [done|].
  destruct (dict_get "canvas_id" r) as [v|]; [|apply IH].
  destruct (hash_key v); [apply IH | by intros [= <-]].
Qed.

Lemma upcoming_canvas_ids_hashable ups keys :
  upcoming_canvas_ids ups = Ok keys -> hashable_upcoming ups.
Proof.
  revert keys. induction ups as [|ca ups IH]; intros keys; simpl.
  - intros _. apply Forall_nil_2.
  - destruct (hash_key (u_canvas_id ca)) as [k|] eqn:Hk; [|done].
    destruct (upcoming_canvas_ids ups) as [s|]; [|done].
    intros _. apply Forall_cons_2; [by rewrite Hk | by eapply IH].
Qed.

Lemma upcoming_canvas_ids_raises ups e :
  upcoming_canvas_ids ups = Raise e -> e = TypeError.
Proof.
  induction ups as [|ca ups IH]; simpl; [done|].
  destruct (hash_key (u_canvas_id ca)); [|by intros [= <-]].
  destruct (upcoming_canvas_ids ups) as [s|e']; [done|].
  simpl. intros [= <-]. by apply IH.
Qed.

Lemma merge_raises_type_error ups subm existing e :
  merge uuid4 ups subm existing = Raise e -> e = TypeError.
Proof.
  unfold merge.
  destruct (split_rows 0 existing [] []) as [[manual by_id]|e1] eqn:Hsplit.
  2:{ simpl. intros [= <-]. by eapply split_rows_raises. }
  destruct (upcoming_canvas_ids ups) as [keys|e2] eqn:Hkeys.
  2:{ simpl. intros [= <-]. by eapply upcoming_canvas_ids_raises. }
  intros Hm.
  destruct (merge_total uuid4 ups subm existing) as (m & Hm').
  - by eapply split_rows_hashable.
  - by eapply upcoming_canvas_ids_hashable.
  - unfold merge in Hm'. rewrite Hsplit, Hkeys in Hm'. congruence.
Qed.

(** X7. The merge returns exactly when every [canvas_id] it uses as a key
    is hashable; otherwise it raises [TypeError], before anything is
    written. *)
Theorem merge_fails_only_on_unhashable_id ups subm existing :
  match merge uuid4 ups subm existing with
  | Ok _ => hashable_rows existing /\ hashable_upcoming ups
  | Raise e =>
      e = TypeError /\ ~ (hashable_rows existing /\ hashable_upcoming ups)
  end.
Proof.
  destruct (merge uuid4 ups subm existing) as [m|e] eqn:Hm.
  - destruct (merge_inv uuid4 _ _ _ _ Hm) as (keys & _ & Hsplit & Hkeys & _).
    split; [by eapply split_rows_hashable | by eapply upcoming_canvas_ids_hashable].
  - split; [by eapply merge_raises_type_error|].
    intros [H1 H2].
    destruct (merge_total uuid4 ups subm existing H1 H2) as (m & Hm').
    congruence.
Qed.

(** X8. The ids of the rows written are those of the upcoming entries,
    in order, followed by those of the tracked rows kept; so they are
    pairwise distinct exactly when the ids of the upcoming entries are. *)
Theorem written_ids_upcoming_then_kept ups subm existing m keys :
  merge uuid4 ups subm existing = Ok m ->
  upcoming_canvas_ids ups = Ok keys ->
  omap row_key (saved_rows m) =
    keys ++ (filter (fun e => kept keys subm existing e = true)
               (m_by_canvas_id m)).*1 /\
  (NoDup (omap row_key (saved_rows m)) <-> NoDup keys).
Proof.
  intros Hm Hkeys.
  destruct (saved_rows_split uuid4 _ _ _ _ Hm) as [Hsaved _].
  destruct (merge_keys_ok uuid4 _ _ _ _ Hm) as (Hnd1 & _ & Hokf).
  destruct (merge_spec uuid4 _ _ _ _ _ Hm Hkeys)
    as (_ & slots & _ & _ & _ & Hall & Hnew & _).
  set (l := filter (fun e => kept keys subm existing e = true) (m_by_canvas_id m)).
  assert (omap row_key (saved_rows m) = keys ++ l.*1) as Hids.
  { rewrite Hsaved, Hnew, omap_app, omap_row_key_manual. simpl.
    rewrite fmap_app, omap_app. fold l.
    rewrite (omap_row_key_slots _ slots keys).
    2:{ pose proof (upcoming_canvas_ids_keys _ _ Hkeys) as Hk.
        clear -Hall Hk Hokf. revert keys Hk.
        induction Hall as [|ca s ups slots Hs _ IH]; intros keys Hk.
        - inversion Hk. constructor.
        - inversion Hk as [|? k ? keys' Hk0 Hk']; subst.
          constructor; [|by apply IH].
          destruct (slot_for_not_manual _ _ _ _ Hokf Hs) as [-> _]. done. }
    rewrite (omap_row_key_slots _ (Ref <$> l.*2) l.*1); [done|].
    assert (forall e, e ∈ l -> e ∈ m_by_canvas_id m) as Hsub.
    { intros e [_ ?]%list_elem_of_filter. done. }
    clearbody l. induction l as [|[k i] l IH]; csimpl; constructor.
    - destruct (Hokf k i) as (r & Hr & ?); [apply Hsub, list_elem_of_here|].
      simpl. by rewrite Hr.
    - apply IH. intros e He. by apply Hsub, list_elem_of_further. }
  split; [done|]. rewrite Hids. split.
  - by intros (? & _)%NoDup_app.
  - intros Hnd. apply NoDup_app. split_and!; [done | | by apply NoDup_filter_fst].
    intros k Hk ([k' i] & ? & [Hkept _]%list_elem_of_filter)%list_elem_of_fmap.
    simpl in *; subst. unfold kept in Hkept. simpl in Hkept.
    apply kset_mem_elem_of in Hk. by rewrite Hk in Hkept.
Qed.

Lemma changed_in_step by_id st ca st' k (ca' : upcoming) k' :
  keys_ok by_id (heap st) ->
  upcoming_step uuid4 by_id st ca = Ok st' ->
  hash_key (u_canvas_id ca) = Some k ->
  hash_key (u_canvas_id ca') = Some k' ->
  k ≠ k' ->
  changed_in by_id (heap st') ca' = changed_in by_id (heap st) ca'.
Proof.
  intros Hok Hstep Hk Hk' Hne. unfold changed_in. rewrite Hk'.
  destruct (kdict_get k' by_id) as [i'|] eqn:Hget; [|done].
  apply kdict_get_Some_elem_of in Hget as Hin.
  destruct (Hok _ _ Hin) as (r & Hr & _).
  destruct (upcoming_step_heap uuid4 _ _ _ _ _ _ Hstep Hr) as (r' & Hr' & _ & Hsame).
  rewrite Hr, Hr', Hsame; [done|].
  intros (cid & Hcid & Hget2%kdict_get_Some_elem_of).
  assert (cid = k) as -> by congruence.
  apply Hne. by eapply keys_ok_inj.
Qed.

Lemma upcoming_loop_updated by_id ups : forall keys st st',
  keys_ok by_id (heap st) ->
  upcoming_canvas_ids ups = Ok keys ->
  NoDup keys ->
  upcoming_loop uuid4 by_id st ups = Ok st' ->
  updated st' =
    updated st +
    length (filter (fun ca => changed_in by_id (heap st) ca = true) ups).
Proof.
  induction ups as [|ca ups IH]; intros keys st st' Hok; simpl.
  - intros _ _ [= <-]. lia.
  - destruct (hash_key (u_canvas_id ca)) as [k|] eqn:Hk; [|done].
    destruct (upcoming_canvas_ids ups) as [s|] eqn:Hs; [|done]. simpl.
    intros [= <-] [Hnotin Hnd]%NoDup_cons.
    destruct (upcoming_step uuid4 by_id st ca) as [st1|] eqn:Hstep; [|done].
    simpl. intros Hloop.
    destruct (upcoming_step_added uuid4 _ _ _ _ Hstep) as (_ & _ & _ & Hu).
    assert (keys_ok by_id (heap st1)) as Hok1.
    { apply (upcoming_loop_keys_ok uuid4 by_id [ca] st); [|done].
      simpl. by rewrite Hstep. }
    rewrite (IH s st1 st' Hok1 eq_refl Hnd Hloop), Hu, filter_cons.
    rewrite (filter_agree
               (fun ca0 => changed_in by_id (heap st1) ca0 = true)
               (fun ca0 => changed_in by_id (heap st) ca0 = true) ups).
    2:{ intros ca' Hca'.
        destruct (hash_key (u_canvas_id ca')) as [k'|] eqn:Hk'.
        - rewrite (changed_in_step _ _ _ _ k ca' k' Hok Hstep Hk Hk'); [done|].
          intros ->. apply Hnotin.
          apply (upcoming_canvas_ids_elem_of _ _ k' Hs). by exists ca'.
        - unfold changed_in. by rewrite Hk'. }
    destruct (decide (changed_in by_id (heap st) ca = true)) as [E|E].
    + rewrite E. simpl. lia.
    + apply not_true_is_false in E. rewrite E. simpl. lia.
Qed.

(** X9. When the upcoming entries have pairwise distinct ids, [updated]
    is the number of them whose tracked row differs from the entry in
    [title], [course] or [due_date]. *)
Theorem updated_counts_changed_rows ups subm existing m keys c :
  merge uuid4 ups subm existing = Ok m ->
  upcoming_canvas_ids ups = Ok keys ->
  NoDup keys ->
  s_updated (merge_summary c m) =
    length (filter (fun ca => differs existing ca = true) ups).
Proof.
  intros Hm Hkeys Hnd.
  destruct (merge_inv uuid4 _ _ _ _ Hm) as (keys' & st1 & Hsplit & _ & H1 & H2).
  destruct (merge_keys_ok uuid4 _ _ _ _ Hm) as (_ & Hok & _).
  destruct (tracked_loop_added _ _ _ _ H2) as (_ & _ & Hu).
  simpl. rewrite Hu.
  rewrite (upcoming_loop_updated _ _ keys (merge_init existing) _ Hok Hkeys Hnd H1).
  simpl.
  f_equal. apply filter_agree. intros ca _.
  unfold changed_in, differs.
  destruct (hash_key (u_canvas_id ca)) as [k|]; [|done].
  rewrite (split_rows_get k _ _ _ _ _ _ Hsplit). simpl.
  by destruct (last_idx k 0 existing).
Qed.

End MergeShape.

(** ** Further properties of [sync] *)

Section SyncMore.

Variable uuid4 : nat -> string.
Variable w : world.

Lemma upcoming_of_not_past cname raw : forall ups,
  upcoming_of w cname raw = Ok ups -> Forall (not_past w) ups.
Proof.
  induction raw as [|a raw IH]; intros ups; simpl.
  - intros [= <-]. apply Forall_nil_2.
  - destruct a as [| | | | |d]; try apply IH.
    unfold parse_due_date.
    destruct (truthy (get_or_none "due_at" d)); simpl; [|apply IH].
    destruct (get_or_none "due_at" d) as [| | |s| |]; simpl; try done.
    destruct (local_date w s) as [due|] eqn:Hdue; [|apply IH].
    destruct (String.eqb due "") eqn:Hne; [apply IH|].
    destruct (String.ltb due (today_str w)) eqn:Hlt; [apply IH|].
    destruct (dict_get "id" d) as [id|]; [|done].
    destruct (upcoming_of w cname raw) as [more|]; [|done]. simpl.
    intros [= <-]. apply Forall_cons_2; [|by apply IH].
    split_and!; simpl; [by apply String.eqb_neq | done | by exists s].
Qed.

Lemma fetch_courses_not_past url token courses : forall ups0 ids0 ups ids,
  fetch_courses w url token courses ups0 ids0 = Ok (ups, ids) ->
  Forall (not_past w) ups0 -> Forall (not_past w) ups.
Proof.
  induction courses as [|[k [cid cname]] courses IH]; intros ups0 ids0 ups ids;
    simpl.
  - by intros [= <- <-].
  - destruct (or_empty (get_all w url token (assignments_path cid
                "?bucket=upcoming&per_page=100&order_by=due_at")))
      as [raw|]; simpl; [|done].
    destruct (upcoming_of w cname raw) as [ups1|] eqn:Hups; simpl; [|done].
    destruct (or_empty (get_all w url token (assignments_path cid
                "?bucket=submitted&per_page=100")))
      as [sraw|]; simpl; [|done].
    destruct (add_done sraw ids0) as [ids1|]; simpl; [|done].
    destruct (or_empty (get_all w url token (assignments_path cid
                "?bucket=graded&per_page=100")))
      as [graw|]; simpl; [|done].
    destruct (add_done graw ids1) as [ids2|]; simpl; [|done].
    intros H H0. apply (IH _ _ _ _ H). apply Forall_app. split; [done|].
    by eapply upcoming_of_not_past.
Qed.

Lemma upcoming_of_raises cname raw e :
  upcoming_of w cname raw = Raise e -> e = AttributeError \/ e = KeyError.
Proof.
  induction raw as [|a raw IH]; simpl; [done|].
  destruct a as [| | | | |d]; try apply IH.
  unfold parse_due_date.
  destruct (truthy (get_or_none "due_at" d)); simpl; [|apply IH].
  destruct (get_or_none "due_at" d) as [| | |s| |]; simpl;
    try (intros [= <-]; by left).
  destruct (local_date w s) as [due|]; [|apply IH].
  destruct (String.eqb due ""); [apply IH|].
  destruct (String.ltb due (today_str w)); [apply IH|].
  destruct (dict_get "id" d) as [id|]; [|intros [= <-]; by right].
  destruct (upcoming_of w cname raw) as [more|e']; [done|]. simpl.
  intros [= <-]. by apply IH.
Qed.

Lemma add_done_raises raw : forall ids e,
  add_done raw ids = Raise e -> e = TypeError.
Proof.
  induction raw as [|a raw IH]; intros ids e; simpl; [done|].
  destruct a as [| | | | |d]; try apply IH.
  destruct (truthy (get_or_none "id" d)); [|apply IH].
  destruct (hash_key (get_or_none "id" d)); [apply IH | by intros [= <-]].
Qed.

Lemma course_map_raises raw : forall m e,
  course_map raw m = Raise e -> e = TypeError.
Proof.
  induction raw as [|a raw IH]; intros m e; simpl; [done|].
  destruct a as [| | | | |d]; try apply IH.
  destruct (truthy (get_or_none "id" d)); [|apply IH].
  destruct (hash_key (get_or_none "id" d)); [apply IH | by intros [= <-]].
Qed.

Lemma or_empty_raises r e :
  or_empty r = Raise e -> forall msg, e <> RuntimeError msg.
Proof. intros H msg. destruct r as [l|[m| | | | |]]; simpl in H; congruence. Qed.

Lemma fetch_courses_raises url token courses : forall ups0 ids0 e,
  fetch_courses w url token courses ups0 ids0 = Raise e ->
  forall msg, e <> RuntimeError msg.
Proof.
  induction courses as [|[k [cid cname]] courses IH]; intros ups0 ids0 e;
    simpl; [done|].
  destruct (or_empty (get_all w url token (assignments_path cid
              "?bucket=upcoming&per_page=100&order_by=due_at")))
    as [raw|e1] eqn:E1; simpl.
  2:{ intros [= <-]. by eapply or_empty_raises. }
  destruct (upcoming_of w cname raw) as [ups1|e2] eqn:Hups; simpl.
  2:{ intros [= <-] msg. by destruct (upcoming_of_raises _ _ _ Hups) as [->| ->]. }
  destruct (or_empty (get_all w url token (assignments_path cid
              "?bucket=submitted&per_page=100")))
    as [sraw|e3] eqn:E3; simpl.
  2:{ intros [= <-]. by eapply or_empty_raises. }
  destruct (add_done sraw ids0) as [ids1|e4] eqn:E4; simpl.
  2:{ intros [= <-] msg. by rewrite (add_done_raises _ _ _ E4). }
  destruct (or_empty (get_all w url token (assignments_path cid
              "?bucket=graded&per_page=100")))
    as [graw|e5] eqn:E5; simpl.
  2:{ intros [= <-]. by eapply or_empty_raises. }
  destruct (add_done graw ids1) as [ids2|e6] eqn:E6; simpl.
  2:{ intros [= <-] msg. by rewrite (add_done_raises _ _ _ E6). }
  apply IH.
Qed.

Lemma merge_raises ups subm existing e :
  merge uuid4 ups subm existing = Raise e -> forall msg, e <> RuntimeError msg.
Proof.
  intros Hm msg.
  pose proof (merge_raises_type_error uuid4 ups subm existing e Hm) as ->. done.
Qed.

(** X10. Every upcoming entry [sync] merges has a due date that is not
    empty, not before today in the order of strings, and is the local
    date of some [due_at] the server sent. *)
Theorem fetched_entries_are_not_past courses ups ids :
  fetch w = Ok (courses, ups, ids) ->
  Forall (not_past w) ups.
Proof.
  intros (url & token & raw & _ & _ & _ & Hfc)%fetch_inv.
  apply (fetch_courses_not_past _ _ _ _ _ _ _ Hfc). apply Forall_nil_2.
Qed.

(** X11. [sync] raises a [RuntimeError] only for the configuration or the
    course list: a request for a bucket of a course that raises one is
    answered with the empty list, and nothing else in [sync] raises
    one. *)
Theorem runtime_error_only_from_course_list store msg store' :
  sync uuid4 w store = (Raise (RuntimeError msg), store') ->
  store' = store /\
  (load_config w = Raise (RuntimeError msg) \/
   exists url token,
     load_config w = Ok (url, token) /\
     get_all w url token courses_path = Raise (RuntimeError msg)).
Proof.
  unfold sync, sync_compute, fetch.
  destruct (load_config w) as [[url token]|e0]; simpl.
  2:{ intros [= -> <-]. split; [done | by left]. }
  destruct (get_all w url token courses_path) as [raw|e1] eqn:E1; simpl.
  2:{ intros [= -> <-]. split; [done|]. right. by exists url, token. }
  destruct (course_map raw []) as [cs|e2] eqn:E2; simpl.
  2:{ intros [= -> <-]. by apply course_map_raises in E2. }
  destruct (fetch_courses w url token cs [] []) as [[ups ids]|e3] eqn:E3; simpl.
  2:{ intros [= -> <-]. by destruct (fetch_courses_raises _ _ _ _ _ _ E3 msg). }
  destruct (merge uuid4 ups ids (load_assignments store)) as [m|e4] eqn:E4; simpl.
  - done.
  - intros [= -> <-]. by destruct (merge_raises _ _ _ _ E4 msg).
Qed.

End SyncMore.

(** ** Further properties of [run_checks] *)

Section ChecksMore.

Variable cal : calendar.

(** X12. A run sends at most one reminder for a row, whatever the rows
    hold, and the reminders are for rows of the file. *)
Theorem one_reminder_per_row_per_run writable store f res store' :
  run_checks cal writable store = (f, res, store') ->
  NoDup (f_index <$> f) /\
  Forall (fun e => f_index e < length (load_assignments store)) f.
Proof.
  unfold run_checks. destruct store as [| |rows].
  - intros [= <- <- <-]. split; [apply NoDup_nil_2 | apply Forall_nil_2].
  - intros [= <- <- <-]. split; [apply NoDup_nil_2 | apply Forall_nil_2].
  - destruct (check_rows cal 0 rows) as [f0 res0] eqn:Hloop.
    destruct (check_rows_sorted cal _ _ _ _ Hloop) as (Hidx & Hnd & _).
    intros H. assert (f = f0) as ->.
    { destruct res0 as [[rows1 c]|]; congruence. }
    split; [done|]. eapply Forall_impl; [exact Hidx|]. simpl. intros; lia.
Qed.

(** X13. The file is rewritten only by a run that has sent a reminder and
    has come to its end; a run that sends nothing, fails, or cannot
    write leaves the file as it was. *)
Theorem file_changes_only_with_a_reminder writable store f res store' :
  run_checks cal writable store = (f, res, store') ->
  store' = store \/
  (f <> [] /\ writable = true /\ res = Ok tt /\
   exists rows', store' = Doc rows' /\
     length rows' = length (load_assignments store)).
Proof.
  unfold run_checks. destruct store as [| |rows].
  - intros [= <- <- <-]. by left.
  - intros [= <- <- <-]. by left.
  - destruct (check_rows cal 0 rows) as [f0 [[rows1 c]|e]] eqn:Hloop.
    2:{ intros [= <- <- <-]. by left. }
    destruct (check_rows_sorted cal _ _ _ _ Hloop) as (_ & _ & Hc).
    destruct (check_rows_ok _ _ _ _ _ _ Hloop) as [Hlen _].
    intros [= <- <- <-]. destruct c, writable; simpl; try by left.
    right. split_and!; [by eapply Hc | done | done |]. by exists rows1.
Qed.

(** X14. A row without a [due_date], or with one that is a string but no
    ISO date, is skipped: no reminder is sent for it and it is left as
    it was. *)
Theorem malformed_rows_are_skipped writable rows i r f res store' :
  rows !! i = Some r ->
  days_until cal r = None ->
  (forall v, dict_get "due_date" r = Some v -> exists s, v = VStr s) ->
  run_checks cal writable (Doc rows) = (f, res, store') ->
  (forall e, e ∈ f -> f_index e ≠ i) /\
  exists rows', store' = Doc rows' /\ rows' !! i = Some r.
Proof.
  intros Hr Hd Hstr.
  assert (check_row cal i r = ([], Ok (r, false))) as Hrow.
  { revert Hd Hstr. unfold days_until, check_row.
    destruct (dict_get "due_date" r) as [v|]; [|done].
    intros Hd Hstr. destruct (Hstr v eq_refl) as [s ->].
    by destruct (fromisoformat cal s). }
  unfold run_checks.
  destruct (check_rows cal 0 rows) as [f0 res0] eqn:Hloop.
  assert (forall e, e ∈ f0 -> f_index e ≠ i) as Hnone.
  { intros e He Hi.
    destruct (check_rows_fired _ _ _ _ _ _ Hloop He) as (n & r0 & Hn & Hidx & Hin).
    simpl in *. assert (n = i) as -> by lia.
    assert (r0 = r) as -> by congruence.
    rewrite Hrow in Hin. by apply elem_of_nil in Hin. }
  destruct res0 as [[rows1 c]|e0]; intros [= <- <- <-].
  - split; [done|].
    destruct (check_rows_ok _ _ _ _ _ _ Hloop) as [_ Hrows].
    destruct (Hrows _ _ Hr) as (fn & r' & cn & Hrow' & Hr' & _).
    simpl in Hrow'. rewrite Hrow in Hrow'. injection Hrow' as <- <- <-.
    destruct (c && writable); by eexists.
  - split; [done|]. by exists rows.
Qed.

Lemma check_rows_app_raise pre rest : forall i f e,
  check_rows cal i pre = (f, Raise e) ->
  check_rows cal i (pre ++ rest) = (f, Raise e).
Proof.
  induction pre as [|r pre IH]; intros i f e; [done|].
  rewrite <- app_comm_cons, !check_rows_cons.
  destruct (check_row cal i r) as [f0 [[r' c0]|e0]]; [|done].
  destruct (check_rows cal (S i) pre) as [f1 [[pre1 c1]|e1]] eqn:Hpre; [done|].
  intros [= <- <-]. by rewrite (IH _ _ _ Hpre).
Qed.

Lemma run_checks_doc writable rows :
  run_checks cal writable (Doc rows) =
  match check_rows cal 0 rows with
  | (f, Raise e) => (f, Raise e, Doc rows)
  | (f, Ok (rows', changed)) =>
      (f, Ok tt, if changed && writable then Doc rows' else Doc rows)
  end.
Proof. done. Qed.

(** X15. No run gets past a row whose [due_date] is not a string. When
    the rows before it are checked without an exception, the run ends
    at that row with [TypeError]: their calls have been made, nothing
    is written, and every later run makes the same calls again. When a
    row before it raises, the run ends there as it does without the
    row. *)
Theorem untyped_due_date_aborts_run pre r post v writable :
  dict_get "due_date" r = Some v ->
  (forall s, v <> VStr s) ->
  let store := Doc (pre ++ r :: post) in
  match run_checks cal writable (Doc pre) with
  | (f, Ok _, _) =>
      run_checks cal writable store = (f, Raise TypeError, store) /\
      forall n, run_checks_n cal n store = (concat (replicate n f), store)
  | (f, Raise e, _) =>
      run_checks cal writable store = (f, Raise e, store)
  end.
Proof.
  intros Hv Hns store.
  assert (check_row cal (0 + length pre) r = ([], Raise TypeError)) as Hrow.
  { unfold check_row. rewrite Hv. destruct v; try done. by destruct (Hns s). }
  unfold store. rewrite !run_checks_doc.
  destruct (check_rows cal 0 pre) as [f [[pre' c]|e]] eqn:Hloop.
  - assert (forall wr, run_checks cal wr (Doc (pre ++ r :: post)) =
              (f, Raise TypeError, Doc (pre ++ r :: post))) as Hrun.
    { intros wr. rewrite run_checks_doc.
      rewrite (check_rows_app _ _ _ _ _ _ _ Hloop), check_rows_cons, Hrow.
      by rewrite app_nil_r. }
    rewrite <- run_checks_doc. split; [apply Hrun|].
    intros n. by apply (run_checks_n_stuck cal f TypeError).
  - by rewrite (check_rows_app_raise _ _ _ _ _ Hloop).
Qed.

Lemma due_tags_short d l :
  due_tags d l = [] \/ exists tag, due_tags d l = [tag].
Proof.
  rewrite due_tags_cases.
  repeat (destruct (_ && _); [right; by eexists|]). by left.
Qed.

(** The iteration on a row that is reached, is not past due and has a
    list of tags. *)
Lemma check_row_listed i r d l :
  days_until cal r = Some d -> (0 <= d)%Z -> sent_of r = VList l ->
  check_row cal i r =
  match due_tags d l with
  | [] => ([], Ok (dict_set "notifications_sent" (VList l) r, false))
  | tag :: _ =>
      ([reminder cal i r d tag],
       match deliver cal (reminder cal i r d tag) with
       | Raise x => Raise x
       | Ok _ =>
           Ok (dict_set "notifications_sent" (VList (l ++ [VStr tag])) r, true)
       end)
  end.
Proof.
  intros Hd Hpos Hs.
  rewrite (check_row_not_past cal i r d Hd Hpos), Hs, due_tag_list.
  destruct (due_tags d l) as [|tag tags]; [done|]. simpl.
  rewrite <- Hs, fire_reminder, Hs. done.
Qed.

(** The calls of a run for a row the run reaches are those of the
    iteration on that row. *)
Lemma check_rows_filter rows i r f0 pre' c0 f res :
  rows !! i = Some r ->
  check_rows cal 0 (take i rows) = (f0, Ok (pre', c0)) ->
  check_rows cal 0 rows = (f, res) ->
  filter (fun e => f_index e = i) f = (check_row cal i r).1.
Proof.
  intros Hr Hpre Hloop.
  destruct (check_rows_reached cal _ _ _ _ _ _ Hr Hpre) as [Heq Hlt].
  rewrite Hloop in Heq.
  assert (filter (fun e => f_index e = i) f0 = []) as E0.
  { apply filter_none. eapply Forall_impl; [exact Hlt|]. simpl. lia. }
  pose proof (check_row_index cal i r) as Hidx.
  destruct (check_row cal i r) as [fi resi]. simpl in *.
  assert (filter (fun e => f_index e = i) fi = fi) as Ei.
  { apply filter_all, Forall_forall. exact Hidx. }
  destruct resi as [[r' ci]|e].
  - destruct (check_rows cal (S i) (drop (S i) rows)) as [fs ress] eqn:Hrest.
    assert (filter (fun e => f_index e = i) fs = []) as Es.
    { apply filter_none.
      destruct (check_rows_sorted cal _ _ _ _ Hrest) as (Hs & _).
      eapply Forall_impl; [exact Hs|]. simpl. lia. }
    assert (f = f0 ++ fi ++ fs) as ->.
    { destruct ress as [[rest' c']|]; congruence. }
    by rewrite !filter_app, E0, Ei, Es, app_nil_r.
  - injection Heq as -> _. by rewrite filter_app, E0, Ei.
Qed.

(** X29. A row the run reaches, not past due and with a list of tags,
    gets exactly the calls of the milestones that are due and not yet in
    its list, which is one call at most. When the call raises, the run
    ends with its exception just after it and nothing is written. When
    it returns, the tag is appended to the list of the row, and the row
    is written so when the run comes to its end and can write. With no
    milestone due the row keeps its list. *)
Theorem reached_row_gets_its_due_reminder
    writable rows i r d l f0 store0 f res store' :
  rows !! i = Some r ->
  days_until cal r = Some d ->
  (0 <= d)%Z ->
  sent_of r = VList l ->
  run_checks cal writable (Doc (take i rows)) = (f0, Ok tt, store0) ->
  run_checks cal writable (Doc rows) = (f, res, store') ->
  filter (fun e => f_index e = i) f = reminder cal i r d <$> due_tags d l /\
  length (due_tags d l) <= 1 /\
  (forall tag v, (tag, v) ∈ milestones ->
     (exists e, e ∈ f /\ fired_key e = (i, tag)) <->
     v = d /\ list_contains (VStr tag) l = false) /\
  (forall tag, tag ∈ due_tags d l ->
     match deliver cal (reminder cal i r d tag) with
     | Raise x =>
         f = f0 ++ [reminder cal i r d tag] /\ res = Raise x /\
         store' = Doc rows
     | Ok _ =>
         (check_row cal i r).2 =
           Ok (dict_set "notifications_sent" (VList (l ++ [VStr tag])) r, true) /\
         (res = Ok tt -> writable = true ->
          exists rows', store' = Doc rows' /\
            rows' !! i =
              Some (dict_set "notifications_sent" (VList (l ++ [VStr tag])) r))
     end) /\
  (due_tags d l = [] ->
   (check_row cal i r).2 =
     Ok (dict_set "notifications_sent" (VList l) r, false)).
Proof.
  intros Hr Hd Hpos Hs Hrun0 Hrun.
  rewrite run_checks_doc in Hrun0, Hrun.
  destruct (check_rows cal 0 (take i rows)) as [f0' [[pre' c0]|]] eqn:Hpre;
    [|done].
  injection Hrun0 as -> _.
  destruct (check_rows cal 0 rows) as [f1 res1] eqn:Hloop.
  assert (f = f1) as ->.
  { destruct res1 as [[rows1 c]|]; congruence. }
  pose proof (check_rows_filter _ _ _ _ _ _ _ _ Hr Hpre Hloop) as Hfilter.
  pose proof (check_row_listed i r d l Hd Hpos Hs) as Hrow.
  destruct (check_rows_reached cal _ _ _ _ _ _ Hr Hpre) as [Heq _].
  rewrite Hloop in Heq.
  assert (length pre' = i) as Hlen.
  { destruct (check_rows_ok cal _ _ _ _ _ Hpre) as [-> _].
    apply lookup_lt_Some in Hr. rewrite length_take. lia. }
  assert (filter (fun e => f_index e = i) f1 = reminder cal i r d <$> due_tags d l)
    as Hmine.
  { rewrite Hfilter, Hrow.
    by destruct (due_tags_short d l) as [->|[tag ->]]. }
  split; [done|]. split.
  { destruct (due_tags_short d l) as [->|[tag ->]]; simpl; lia. }
  split.
  { intros tag v Hm.
    assert ((exists e, e ∈ f1 /\ fired_key e = (i, tag)) <-> tag ∈ due_tags d l)
      as ->.
    { split.
      - intros (e & He & Hk).
        assert (e ∈ filter (fun e => f_index e = i) f1) as Hin.
        { apply list_elem_of_filter. split; [|done].
          unfold fired_key in Hk. congruence. }
        rewrite Hmine in Hin. apply list_elem_of_fmap in Hin as (t & -> & Ht).
        rewrite reminder_key in Hk. by injection Hk as <-.
      - intros Ht. exists (reminder cal i r d tag). split; [|apply reminder_key].
        assert (reminder cal i r d tag ∈ filter (fun e => f_index e = i) f1) as Hin.
        { rewrite Hmine. apply list_elem_of_fmap. by exists tag. }
        by apply list_elem_of_filter in Hin as [_ ?]. }
    rewrite due_tags_elem_of. split.
    - intros (d' & Hm' & -> & Hlc). split; [|done]. by eapply milestones_tag.
    - intros [-> Hlc]. by exists d. }
  split.
  - intros tag Ht.
    destruct (due_tags_short d l) as [E|[tag' E]]; rewrite E in Ht, Hrow.
    { by apply elem_of_nil in Ht. }
    apply list_elem_of_singleton in Ht as ->. rewrite Hrow in Heq.
    destruct (deliver cal (reminder cal i r d tag')) as [[]|x].
    + split; [by rewrite Hrow|]. intros -> ->.
      destruct (check_rows cal (S i) (drop (S i) rows)) as [fs [[rest' c']|e]];
        injection Heq as -> ->; [|done].
      rewrite orb_true_r in Hrun. simpl in Hrun.
      injection Hrun as <-. eexists. split; [done|].
      rewrite lookup_app_r by lia. by rewrite Hlen, Nat.sub_diag.
    + injection Heq as -> ->. by injection Hrun as <- <-.
  - intros E. by rewrite Hrow, E.
Qed.

Lemma NoDup_fired_key f : NoDup (f_index <$> f) -> NoDup (fired_key <$> f).
Proof.
  intros H. apply (NoDup_fmap_1 fst). by rewrite <- list_fmap_compose.
Qed.

(** X30. After a run that has come to its end and has written what it
    had to, a further run on the same day makes no call and leaves the
    file as it is, however often it is repeated. The calls of the first
    run have all returned, no two of them are for the same row, and
    each has put its tag, which was not in the list of its row, at the
    end of that list in the file. *)
Theorem clean_run_is_not_repeated store f store' :
  run_checks cal true store = (f, Ok tt, store') ->
  run_checks cal true store' = ([], Ok tt, store') /\
  (forall n, run_checks_n cal (S n) store = (f, store')) /\
  NoDup (fired_key <$> f) /\
  forall e, e ∈ f ->
    deliver cal e = Ok tt /\
    exists r l,
      load_assignments store !! f_index e = Some r /\
      sent_of r = VList l /\
      list_contains (VStr (f_tag e)) l = false /\
      load_assignments store' !! f_index e =
        Some (dict_set "notifications_sent" (VList (l ++ [VStr (f_tag e)])) r).
Proof.
  intros Hrun.
  assert (run_checks cal true store' = ([], Ok tt, store') /\
          NoDup (fired_key <$> f) /\
          forall e, e ∈ f ->
            deliver cal e = Ok tt /\
            exists r l,
              load_assignments store !! f_index e = Some r /\
              sent_of r = VList l /\
              list_contains (VStr (f_tag e)) l = false /\
              load_assignments store' !! f_index e =
                Some (dict_set "notifications_sent"
                        (VList (l ++ [VStr (f_tag e)])) r)) as (Hfix & Hnd & Hcalls).
  { destruct store as [| |rows].
    - injection Hrun as <- <-.
      split_and!; [done | apply NoDup_nil_2 | by intros e ?%elem_of_nil].
    - injection Hrun as <- <-.
      split_and!; [done | apply NoDup_nil_2 | by intros e ?%elem_of_nil].
    - rewrite run_checks_doc in Hrun.
      destruct (check_rows cal 0 rows) as [f1 [[rows1 c]|]] eqn:Hloop; [|done].
      injection Hrun as -> <-.
      destruct (check_rows_again cal _ _ _ _ _ Hloop) as [Hagain Hc].
      destruct (check_rows_sorted cal _ _ _ _ Hloop) as (_ & Hnd & _).
      destruct (check_rows_ok cal _ _ _ _ _ Hloop) as [_ Hrows].
      split_and!.
      + destruct c; cbn [andb].
        * by rewrite run_checks_doc, Hagain.
        * by rewrite run_checks_doc, Hloop, (Hc eq_refl).
      + by apply NoDup_fired_key.
      + intros e He.
        assert (c = true) as ->.
        { destruct c; [done|]. rewrite (Hc eq_refl) in He.
          by apply elem_of_nil in He. }
        destruct (check_rows_fired cal _ _ _ _ _ Hloop He)
          as (n & r & Hn & Hidx & Hin).
        simpl in Hidx, Hin. rewrite Hidx.
        destruct (Hrows _ _ Hn) as (fn & r' & cn & Hrow & Hr' & _).
        simpl in Hrow.
        destruct (check_row_calls cal n r)
          as [[E _]|(d & tag & _ & _ & _ & E & Hyes)].
        { rewrite E in Hin. by apply elem_of_nil in Hin. }
        rewrite E in Hin. apply list_elem_of_singleton in Hin as ->.
        rewrite Hrow in Hyes.
        destruct (Hyes r' cn eq_refl) as (_ & Hdel & l & Hs & Hlc & ->).
        pose proof (reminder_key cal n r d tag) as Hk.
        unfold fired_key in Hk. injection Hk as _ Htag. rewrite Htag.
        split; [done|]. by exists r, l. }
  split_and!; [done | | done | done].
  intros n. rewrite run_checks_n_S, Hrun.
  by rewrite (run_checks_n_fixed cal n store' Hfix), app_nil_r.
Qed.

End ChecksMore.

(** ** Strings *)

Lemma sapp_cons x (a b : string) : (String x a ++ b)%string = String x (a ++ b)%string.
Proof. reflexivity. Qed.

Lemma sapp_nil_l (b : string) : ("" ++ b)%string = b.
Proof. reflexivity. Qed.

Lemma sapp_assoc (a b c : string) : ((a ++ b) ++ c)%string = (a ++ (b ++ c))%string.
Proof. induction a as [|x a IH]; sapp; [done | by f_equal]. Qed.

Lemma sapp_nil_r (a : string) : (a ++ "")%string = a.
Proof. induction a as [|x a IH]; sapp; [done | by f_equal]. Qed.

Lemma prefix_app (p s : string) : String.prefix p (p ++ s) = true.
Proof.
  induction p as [|a p IH]; sapp; simpl; [by destruct s|].
  by destruct (ascii_dec a a).
Qed.

Lemma prefix_inv (p s : string) :
  String.prefix p s = true -> exists b, s = (p ++ b)%string.
Proof.
  revert s. induction p as [|a p IH]; intros s; simpl.
  - intros _. by exists s.
  - destruct s as [|b s]; [done|]. simpl.
    destruct (ascii_dec a b) as [->|]; [|done].
    intros [t ->]%IH. by exists t.
Qed.

Lemma substring_in_cons p x s :
  substring_in p (String x s) = String.prefix p (String x s) || substring_in p s.
Proof. reflexivity. Qed.

Lemma substring_in_app (p a b : string) :
  substring_in p (a ++ p ++ b) = true.
Proof.
  induction a as [|x a IH]; sapp.
  - destruct (p ++ b)%string eqn:E.
    + destruct p; [done | discriminate].
    + rewrite substring_in_cons, <- E, prefix_app. done.
  - rewrite substring_in_cons, IH. apply orb_true_r.
Qed.

Lemma substring_in_inv (p s : string) :
  substring_in p s = true -> exists a b, s = (a ++ p ++ b)%string.
Proof.
  induction s as [|x s IH].
  - destruct p; [|done]. intros _. by exists ""%string, ""%string.
  - rewrite substring_in_cons.
    intros [[b ->]%prefix_inv|(a & b & ->)%IH]%orb_true_iff.
    + by exists ""%string, b.
    + by exists (String x a), b.
Qed.

Lemma lstrip_by_suffix p s : exists a, s = (a ++ lstrip_by p s)%string.
Proof.
  induction s as [|x s [a IH]]; simpl.
  - by exists ""%string.
  - destruct (p x).
    + exists (String x a). sapp. by f_equal.
    + by exists ""%string.
Qed.

Lemma rstrip_by_prefix p s : exists b, s = (rstrip_by p s ++ b)%string.
Proof.
  induction s as [|x s [b IH]]; simpl.
  - by exists ""%string.
  - destruct (rstrip_by p s) as [|y t] eqn:E.
    + destruct (p x).
      * by exists (String x s).
      * exists s. done.
    + exists b. sapp. f_equal. by rewrite sapp_cons in IH.
Qed.

Lemma strip_by_inside p s : exists a b, s = (a ++ strip_by p s ++ b)%string.
Proof.
  destruct (lstrip_by_suffix p s) as [a Ha].
  destruct (rstrip_by_prefix p (lstrip_by p s)) as [b Hb].
  exists a, b. unfold strip_by. by rewrite <- Hb.
Qed.

Lemma split_on_nonempty c s : split_on c s <> [].
Proof.
  destruct s as [|a s]; simpl; [done|].
  destruct (Ascii.eqb a c); [done|]. by destruct (split_on c s).
Qed.

Lemma split_on_app c (b s : string) :
  split_on c (b ++ String c s) = split_on c b ++ split_on c s.
Proof.
  induction b as [|a b IH]; sapp; simpl.
  - by rewrite Ascii.eqb_refl.
  - destruct (Ascii.eqb a c); [by rewrite IH|].
    rewrite IH. pose proof (split_on_nonempty c b).
    by destruct (split_on c b).
Qed.

Lemma split_on_absent c (s : string) :
  ~ In c (list_ascii_of_string s) -> split_on c s = [s].
Proof.
  induction s as [|a s IH]; simpl; [done|].
  intros H. destruct (Ascii.eqb_spec a c) as [->|_]; [tauto|].
  rewrite IH; [done | tauto].
Qed.

Lemma split_on_head c s p0 ps :
  split_on c s = p0 :: ps -> exists b, s = (p0 ++ b)%string.
Proof.
  revert p0 ps. induction s as [|x s IH]; intros p0 ps; simpl.
  - intros [= <- <-]. by exists ""%string.
  - destruct (Ascii.eqb x c).
    + intros [= <- <-]. by exists (String x s).
    + pose proof (split_on_nonempty c s) as Hne.
      destruct (split_on c s) as [|q qs]; [done|].
      intros [= <- <-]. destruct (IH q qs eq_refl) as [b Hb]. exists b.
      sapp. by f_equal.
Qed.

Lemma split_on_inside c s part :
  part ∈ split_on c s -> exists a b, s = (a ++ part ++ b)%string.
Proof.
  revert part. induction s as [|x s IH]; intros part; simpl.
  - intros ->%list_elem_of_singleton. by exists ""%string, ""%string.
  - destruct (Ascii.eqb x c).
    + intros [->|(a & b & ->)%IH]%elem_of_cons.
      * by exists ""%string, (String x s).
      * by exists (String x a), b.
    + pose proof (split_on_nonempty c s) as Hne.
      destruct (split_on c s) as [|p0 ps] eqn:E; [done|].
      intros [->|Hin]%elem_of_cons.
      * destruct (split_on_head c s p0 ps E) as [b Hb].
        exists ""%string, b. sapp. by f_equal.
      * destruct (IH part) as (a & b & ->); [by apply list_elem_of_further|].
        by exists (String x a), b.
Qed.

Lemma chars_app (a b : string) :
  list_ascii_of_string (a ++ b) = list_ascii_of_string a ++ list_ascii_of_string b.
Proof. induction a as [|x a IH]; sapp; simpl; [done | by f_equal]. Qed.

Lemma rstrip_by_snoc_keep p s a :
  p a = false -> rstrip_by p (s ++ String a "") = (s ++ String a "")%string.
Proof.
  intros Ha. induction s as [|x s IH]; sapp; simpl.
  - by rewrite Ha.
  - rewrite IH. by destruct s.
Qed.

Lemma rstrip_by_snoc_drop p s a :
  p a = true -> rstrip_by p (s ++ String a "") = rstrip_by p s.
Proof.
  intros Ha. induction s as [|x s IH]; sapp; simpl.
  - by rewrite Ha.
  - by rewrite IH.
Qed.

Lemma strip_by_keep p x s y :
  p x = false -> p y = false ->
  strip_by p (String x (s ++ String y "")) = String x (s ++ String y "").
Proof.
  intros Hx Hy. unfold strip_by. simpl lstrip_by. rewrite Hx.
  by rewrite <- sapp_cons, rstrip_by_snoc_keep.
Qed.

Lemma strip_by_snoc_drop p s a :
  p a = true -> strip_by p (s ++ String a "") = strip_by p s.
Proof.
  intros Ha. unfold strip_by. induction s as [|x s IH]; sapp; simpl.
  - by rewrite Ha.
  - destruct (p x); [done|]. by rewrite <- sapp_cons, rstrip_by_snoc_drop.
Qed.

Lemma first_next_skip parts rest :
  (forall part, part ∈ parts ->
     substring_in rel_next (strip_by is_space part) = false) ->
  first_next (parts ++ rest) = first_next rest.
Proof.
  induction parts as [|part parts IH]; intros H; simpl; [done|].
  rewrite (H part); [|apply list_elem_of_here].
  apply IH. intros q Hq. apply H. by apply list_elem_of_further.
Qed.

Lemma parts_without_next c s part :
  substring_in rel_next s = false ->
  part ∈ split_on c s ->
  substring_in rel_next (strip_by is_space part) = false.
Proof.
  intros Hs Hpart. apply not_true_is_false.
  intros (a & b & E)%substring_in_inv.
  destruct (strip_by_inside is_space part) as (a1 & b1 & E1).
  destruct (split_on_inside c s part Hpart) as (a2 & b2 & E2).
  rewrite E in E1. rewrite E1 in E2.
  assert (s = ((a2 ++ a1 ++ a) ++ rel_next ++ (b ++ b1 ++ b2))%string) as ->.
  { rewrite E2. by rewrite !sapp_assoc. }
  by rewrite substring_in_app in Hs.
Qed.

(** The [Link] part Canvas sends for the next page. *)
Lemma next_part_reads u :
  ~ In ";"%char (list_ascii_of_string u) ->
  strip_by (in_chars "<>") u = u ->
  forall rest,
    first_next (("<" ++ u ++ ">; " ++ rel_next)%string :: rest) = Some u.
Proof.
  intros Hsemi Hu rest.
  set (X := ("<" ++ u ++ ">; " ++ rel_next)%string).
  assert (strip_by is_space X = X) as HX.
  { unfold X, rel_next, dq.
    replace ("<" ++ u ++ ">; " ++ "rel=" ++ String "034" "" ++ "next" ++ String "034" "")%string
      with (String "<" ((u ++ ">; rel=" ++ String "034" "" ++ "next") ++ String "034" ""))%string.
    - by apply strip_by_keep.
    - sapp. f_equal. rewrite sapp_assoc. f_equal. }
  assert (substring_in rel_next X = true) as Hin.
  { unfold X.
    replace ("<" ++ u ++ ">; " ++ rel_next)%string
      with (("<" ++ u ++ ">; ") ++ rel_next ++ "")%string.
    - apply substring_in_app.
    - rewrite sapp_nil_r. sapp. f_equal. by rewrite sapp_assoc. }
  assert (split_on ";" X = ("<" ++ u ++ ">")%string :: split_on ";" (" " ++ rel_next)) as Hsplit.
  { unfold X.
    replace ("<" ++ u ++ ">; " ++ rel_next)%string
      with (("<" ++ u ++ ">") ++ String ";" (" " ++ rel_next))%string.
    - rewrite split_on_app, split_on_absent; [done|].
      rewrite !chars_app. simpl. intros [?|[?|[?|[]]]%in_app_or]; done.
    - sapp. f_equal. by rewrite sapp_assoc. }
  simpl. fold X. rewrite HX, Hin, Hsplit. f_equal.
  replace ("<" ++ u ++ ">")%string with (String "<" (u ++ String ">" "")) by done.
  rewrite strip_by_keep by done.
  rewrite <- sapp_cons, strip_by_snoc_drop by done.
  unfold strip_by. simpl. exact Hu.
Qed.

(** X16. A [Link] header that does not hold [rel="next"] names no next
    page, whatever else it holds; and [next_url] reads the URL of the next
    page from a header as Canvas writes it, whatever parts come before
    and after, provided the URL holds no comma and no semicolon and no
    angle bracket at its ends. *)
Theorem next_url_reads_the_next_link header before u after :
  (substring_in rel_next header = false -> next_url header = None) /\
  (substring_in rel_next before = false ->
   before = ""%string \/ (exists b, before = (b ++ ",")%string) ->
   after = ""%string \/ (exists a, after = ("," ++ a)%string) ->
   ~ In ","%char (list_ascii_of_string u) ->
   ~ In ";"%char (list_ascii_of_string u) ->
   strip_by (in_chars "<>") u = u ->
   next_url (before ++ "<" ++ u ++ ">; " ++ rel_next ++ after) = Some u).
Proof.
  assert (forall h, substring_in rel_next h = false -> next_url h = None) as Hnone.
  { intros h Hh. unfold next_url. rewrite <- (app_nil_r (split_on "," h)).
    rewrite first_next_skip; [done|].
    intros part. by apply parts_without_next. }
  split; [apply Hnone|].
  intros Hbefore Hb Ha Hcomma Hsemi Hu.
  set (X := ("<" ++ u ++ ">; " ++ rel_next)%string).
  assert (~ In ","%char (list_ascii_of_string X)) as HX.
  { unfold X, rel_next, dq. rewrite !chars_app. simpl.
    intros [?|[?|H]%in_app_or]; [done | done |].
    repeat (destruct H as [?|H]; [done|]). done. }
  assert (exists rest, split_on "," (X ++ after) = X :: rest) as [rest Hrest].
  { destruct Ha as [->|[a ->]].
    - exists []. by rewrite sapp_nil_r, split_on_absent.
    - exists (split_on "," a).
      replace ("," ++ a)%string with (String "," a) by done.
      by rewrite split_on_app, split_on_absent. }
  assert (("<" ++ u ++ ">; " ++ rel_next ++ after)%string = (X ++ after)%string) as ->.
  { unfold X. sapp. f_equal. by rewrite !sapp_assoc. }
  unfold next_url. destruct Hb as [->|[b ->]].
  - sapp. rewrite Hrest. by apply next_part_reads.
  - replace ((b ++ ",") ++ X ++ after)%string with (b ++ String "," (X ++ after))%string.
    2:{ by rewrite sapp_assoc. }
    rewrite split_on_app, Hrest, first_next_skip; [by apply next_part_reads|].
    intros part Hpart. apply (parts_without_next "," (b ++ ",")); [done|].
    replace (b ++ ",")%string with (b ++ String "," "")%string by done.
    rewrite split_on_app. apply elem_of_app. by left.
Qed.

(** ** [_load_config] *)

Lemma rstrip_by_spec p s :
  exists t, s = (rstrip_by p s ++ t)%string /\
    Forall (fun a => p a = true) (list_ascii_of_string t) /\
    forall v a, rstrip_by p s = (v ++ String a "")%string -> p a = false.
Proof.
  induction s as [|x s (t & Hs & Ht & Hlast)]; simpl.
  - exists ""%string. split_and!; [done | apply Forall_nil_2 |].
    intros [|y v] a; sapp; discriminate.
  - destruct (rstrip_by p s) as [|y r] eqn:E.
    + destruct (p x) eqn:Hx.
      * exists (String x t). sapp. split_and!.
        -- f_equal. by rewrite sapp_nil_l in Hs.
        -- simpl. by apply Forall_cons_2.
        -- intros [|z v] a; sapp; discriminate.
      * exists t. sapp. split_and!; [by f_equal | done |].
        intros [|z v] a; sapp.
        -- by intros [= <-].
        -- intros [= _ H]. destruct v; discriminate.
    + exists t. sapp. split_and!; [by f_equal | done |].
      intros [|z v] a; sapp.
      * discriminate.
      * intros [= _ H]. by apply (Hlast v a).
Qed.

(** X17. [_load_config] returns the URL of the configuration without its
    trailing slashes, so that a path appended to it starts at a single
    slash; it fails when the file or one of the two keys is missing. *)
Theorem load_config_strips_trailing_slashes f url token :
  _load_config f = Ok (url, token) ->
  exists cfg u slashes,
    f = Json (VDict cfg) /\
    dict_get "canvas_url" cfg = Some (VStr u) /\
    dict_get "token" cfg = Some token /\
    u = (url ++ slashes)%string /\
    Forall (fun a => a = "/"%char) (list_ascii_of_string slashes) /\
    forall v, url <> (v ++ "/")%string.
Proof.
  unfold _load_config. destruct f as [| |[| | | | |cfg]]; try done.
  destruct (dict_get "canvas_url" cfg) as [[| | |u| |]|] eqn:Hu; try done.
  destruct (dict_get "token" cfg) as [t|] eqn:Ht; [|done].
  intros [= <- <-].
  destruct (rstrip_by_spec (Ascii.eqb "/"%char) u) as (sl & Hs & Hsl & Hlast).
  exists cfg, u, sl. split_and!; try done.
  - eapply Forall_impl; [exact Hsl|]. simpl. intros a Ha.
    symmetry. by apply Ascii.eqb_eq.
  - intros v Hv. specialize (Hlast v "/"%char Hv). by rewrite Ascii.eqb_refl in Hlast.
Qed.

(** ** [_get_all] *)

Section GetAllFacts.

Variable urlopen : nat -> string -> string -> response.
Variable base_url : string.
Variable token : string.

(** A call that ends within [fuel] requests ends the same way with any
    more: the bound is no part of the outcome. *)
Lemma get_all_loop_fuel fuel : forall n url results r fuel',
  get_all_loop urlopen base_url token fuel n url results = Some r ->
  fuel <= fuel' ->
  get_all_loop urlopen base_url token fuel' n url results = Some r.
Proof.
  induction fuel as [|fuel IH]; intros n url results r fuel'.
  - simpl. destruct (more_pages url) eqn:E; [done|].
    intros H _. destruct fuel'; simpl; by rewrite E.
  - intros H Hle. destruct fuel' as [|fuel']; [lia|].
    simpl in *. destruct (more_pages url); [|done].
    destruct (urlopen n s ("Bearer " ++ token)%string) as [[page|] link| | |];
      try done.
    apply IH; [done | lia].
Qed.

Lemma get_all_loop_follows pages : forall n url results last fuel,
  follows urlopen token n url pages last ->
  get_all_loop urlopen base_url token (length pages + fuel) n url results =
  get_all_loop urlopen base_url token fuel (n + length pages) last
    (results ++ concat (extend [] <$> pages.*1)).
Proof.
  induction pages as [|[body link] pages IH]; intros n url results last fuel.
  - simpl. intros ->. by rewrite Nat.add_0_r, app_nil_r.
  - simpl. intros (u & -> & -> & Hrest).
    rewrite (IH _ _ _ _ _ Hrest).
    replace (S n + length pages) with (n + S (length pages)) by lia.
    f_equal. destruct body; simpl; rewrite ?app_nil_r; try done.
    by rewrite app_assoc.
Qed.

(** X18. When the pages are linked one to the next and the last one names
    no next page, [_get_all] returns the items of all of them, in
    order; a page that is no list adds nothing. *)
Theorem get_all_returns_every_page path pages last fuel :
  follows urlopen token 0 (Some (base_url ++ path)%string) pages last ->
  more_pages last = None ->
  length pages <= fuel ->
  _get_all urlopen base_url token fuel path =
    Some (Ok (concat (extend [] <$> pages.*1))).
Proof.
  intros Hpages Hlast Hfuel. unfold _get_all.
  replace fuel with (length pages + (fuel - length pages)) by lia.
  rewrite (get_all_loop_follows _ _ _ _ _ _ Hpages). simpl.
  destruct (fuel - length pages); simpl; by rewrite Hlast.
Qed.

Lemma get_all_after_pages path pages u fuel :
  follows urlopen token 0 (Some (base_url ++ path)%string) pages (Some u) ->
  u <> ""%string ->
  length pages < fuel ->
  _get_all urlopen base_url token fuel path =
    match urlopen (length pages) u ("Bearer " ++ token)%string with
    | Page (Some page) link_header =>
        get_all_loop urlopen base_url token (fuel - S (length pages))
          (S (length pages)) (next_url link_header)
          (concat (extend [] <$> pages.*1) ++ extend [] page)
    | Page None _ => Some (Raise ValueError)
    | HTTPError code reason => Some (Raise (http_error code reason))
    | URLError reason => Some (Raise (url_error base_url reason))
    | Failure e => Some (Raise e)
    end.
Proof.
  intros Hpages Hu Hfuel. unfold _get_all.
  replace fuel with (length pages + S (fuel - S (length pages))) at 1 by lia.
  rewrite (get_all_loop_follows _ _ _ _ _ _ Hpages). simpl.
  destruct u as [|a u]; [done|]. simpl.
  destruct (urlopen (length pages) (String a u) ("Bearer " ++ token)%string)
    as [[page|] link| | |]; try done.
  f_equal. by destruct page; simpl; rewrite ?app_nil_r.
Qed.

(** X19. A request that fails after some pages were read is the outcome
    of the whole call, and the items of those pages are not returned:
    an [HTTPError] and a [URLError] are raised as [RuntimeError], with
    the message for an expired token when the code is 401; a body that
    is no JSON raises [ValueError]; any other exception goes through. *)
Theorem get_all_error_discards_pages path pages u fuel :
  follows urlopen token 0 (Some (base_url ++ path)%string) pages (Some u) ->
  u <> ""%string ->
  length pages < fuel ->
  let answer := urlopen (length pages) u ("Bearer " ++ token)%string in
  let outcome := _get_all urlopen base_url token fuel path in
  (forall code reason, answer = HTTPError code reason ->
     outcome = Some (Raise (http_error code reason)) /\
     exists msg, http_error code reason = RuntimeError msg) /\
  (forall reason, answer = URLError reason ->
     outcome = Some (Raise (url_error base_url reason))) /\
  (forall link_header, answer = Page None link_header ->
     outcome = Some (Raise ValueError)) /\
  (forall e, answer = Failure e -> outcome = Some (Raise e)).
Proof.
  intros Hpages Hu Hfuel answer outcome.
  pose proof (get_all_after_pages _ _ _ _ Hpages Hu Hfuel) as H.
  fold answer outcome in H.
  split_and!.
  - intros code reason E. rewrite E in H. split; [done|].
    unfold http_error. destruct (code =? 401)%Z; by eexists.
  - intros reason E. by rewrite E in H.
  - intros link_header E. by rewrite E in H.
  - intros e E. by rewrite E in H.
Qed.

(** X20. [_get_all] has no bound on the pages it follows: when every
    request for a URL is answered with a page that names that URL as
    the next one, no number of requests ends the call. *)
Theorem get_all_follows_a_cycle_forever path body link_header u :
  (base_url ++ path)%string = u ->
  u <> ""%string ->
  (forall n, urlopen n u ("Bearer " ++ token)%string = Page (Some body) link_header) ->
  next_url link_header = Some u ->
  forall fuel, _get_all urlopen base_url token fuel path = None.
Proof.
  intros Hstart Hu Hpage Hnext fuel. unfold _get_all. rewrite Hstart.
  generalize (@nil value) 0.
  induction fuel as [|fuel IH]; intros results n; destruct u as [|a u]; try done.
  simpl. rewrite Hpage, Hnext. apply IH.
Qed.

End GetAllFacts.

(** ** The banner *)

Lemma replace_char_app old new (a b : string) :
  replace_char old new (a ++ b) =
  (replace_char old new a ++ replace_char old new b)%string.
Proof.
  induction a as [|x a IH]; sapp; simpl; [done|].
  destruct (Ascii.eqb x old); rewrite IH; [by rewrite sapp_assoc | done].
Qed.

Lemma escape_cons a s :
  escape (String a s) =
  if Ascii.eqb a "\"%char then ("\\" ++ escape s)%string
  else if Ascii.eqb a "034"%char then ("\" ++ dq ++ escape s)%string
  else String a (escape s).
Proof.
  unfold escape. simpl.
  destruct (Ascii.eqb_spec a "\"%char) as [->|Hb].
  - by rewrite replace_char_app.
  - simpl. destruct (Ascii.eqb_spec a "034"%char) as [->|Hq]; [|done].
    by rewrite sapp_assoc.
Qed.

Lemma escape_reads_back s rest :
  read_literal (escape s ++ dq ++ rest) = Some (s, rest).
Proof.
  induction s as [|a s IH].
  - done.
  - rewrite escape_cons.
    destruct (Ascii.eqb_spec a "\"%char) as [->|Hb].
    + rewrite sapp_assoc. sapp. simpl. by rewrite IH.
    + destruct (Ascii.eqb_spec a "034"%char) as [->|Hq].
      * rewrite !sapp_assoc. unfold dq at 1. sapp. simpl. by rewrite IH.
      * sapp. simpl.
        apply Ascii.eqb_neq in Hb, Hq. rewrite Hb, Hq. by rewrite IH.
Qed.

(** X21. The script [send_mac_notification] runs holds the message and the
    title as two quoted literals that read back as the message and the
    title, whatever quotes and backslashes these contain: no text of a
    reminder can end its literal. *)
Theorem mac_script_quotes_its_texts title message :
  exists after_message after_title,
    mac_script title message =
      ("display notification " ++ dq ++ after_message)%string /\
    read_literal after_message =
      Some (message, (" with title " ++ dq ++ after_title)%string) /\
    read_literal after_title =
      Some (title, (" sound name " ++ dq ++ "Default" ++ dq)%string).
Proof.
  exists (escape message ++ dq ++ " with title " ++ dq ++
          escape title ++ dq ++ " sound name " ++ dq ++ "Default" ++ dq)%string,
         (escape title ++ dq ++ " sound name " ++ dq ++ "Default" ++ dq)%string.
  split_and!; [reflexivity | apply escape_reads_back | apply escape_reads_back].
Qed.

(** ** The handlers of the tracker *)

Lemma new_assignment_row str id data a :
  new_assignment str id data = Ok a ->
  is_manual a = true /\ well_typed a /\ dict_get "id" a = Some (VStr id) /\
  dict_get "completed" a = Some (VBool false).
Proof.
  unfold new_assignment. destruct data as [| | | | |d]; try done.
  destruct (dict_get "title" d); [|done].
  destruct (dict_get "course" d); [|done].
  destruct (dict_get "due_date" d); [|done].
  intros [= <-]. split_and!; try done.
  split; intros w Hw; simpl in Hw; injection Hw as <-; by eexists.
Qed.

(** X22. A POST either is refused, and the file is as it was, or appends
    one row made from the body, a manual row typed as the data model has
    it; the next merge writes it unchanged, after the manual rows that
    were there and before every Canvas row. *)
Theorem posted_row_is_kept_by_sync str id body store status store' :
  post_assignment str id body store = (status, store') ->
  (status = 400%Z /\ store' = store) \/
  (status = 200%Z /\
   exists data a,
     body = Some data /\
     new_assignment str id data = Ok a /\
     store' = Doc (load_assignments store ++ [a]) /\
     is_manual a = true /\ well_typed a /\
     forall uuid4 ups subm m,
       merge uuid4 ups subm (load_assignments store') = Ok m ->
       exists canvas_rows,
         saved_rows m =
           filter (fun r => is_manual r = true) (load_assignments store) ++
           a :: canvas_rows /\
         Forall (fun r => is_manual r = false) canvas_rows).
Proof.
  unfold post_assignment. destruct body as [data|]; [|intros [= <- <-]; by left].
  destruct (new_assignment str id data) as [a|e] eqn:Ha;
    [|intros [= <- <-]; by left].
  intros [= <- <-]. right. split; [done|].
  destruct (new_assignment_row _ _ _ _ Ha) as (Hman & Hwt & _).
  exists data, a. split_and!; try done.
  intros uuid4 ups subm m Hm. simpl in Hm.
  destruct (saved_rows_split uuid4 _ _ _ _ Hm) as [Hsaved Hcanvas].
  eexists. split; [|exact Hcanvas].
  rewrite Hsaved, filter_app, <- app_assoc. f_equal.
  rewrite filter_cons, decide_True by done. done.
Qed.

Lemma patch_row_fields data a a' k :
  patch_row data a = Ok a' -> k ≠ "completed" -> dict_get k a' = dict_get k a.
Proof.
  unfold patch_row. destruct data as [| | |s|l|d]; try done.
  - destruct (substring_in "completed" s); [done|]. by intros [= <-].
  - destruct (list_contains (VStr "completed") l); [done|]. by intros [= <-].
  - destruct (dict_get "completed" d) as [v|]; intros [= <-] Hk; [|done].
    by apply dict_get_set_ne.
Qed.

Lemma patch_row_cases data a a' :
  patch_row data a = Ok a' ->
  a' = a \/
  exists d v, data = VDict d /\ dict_get "completed" d = Some v /\
    a' = dict_set "completed" (VBool (truthy v)) a.
Proof.
  unfold patch_row. destruct data as [| | |s|l|d]; try done.
  - destruct (substring_in "completed" s); [done|]. intros [= <-]. by left.
  - destruct (list_contains (VStr "completed") l); [done|]. intros [= <-]. by left.
  - destruct (dict_get "completed" d) as [v|] eqn:E; intros [= <-]; [|by left].
    right. by exists d, v.
Qed.

(** X23. A PATCH changes at most one row, the first whose [id] is the one
    asked for, and of that row only [completed], set to the truth value
    of the [completed] of the body; every other row and field, the
    number of rows and their order are as they were. *)
Theorem patch_changes_only_completed aid data rows rows' :
  patch_rows aid data rows = Ok rows' ->
  length rows' = length rows /\
  forall i a, rows !! i = Some a ->
    exists a', rows' !! i = Some a' /\
      (forall k, k ≠ "completed" -> dict_get k a' = dict_get k a) /\
      (a' = a \/
       (has_id aid a = true /\
        (forall j b, j < i -> rows !! j = Some b -> has_id aid b = false) /\
        exists d v, data = VDict d /\ dict_get "completed" d = Some v /\
          a' = dict_set "completed" (VBool (truthy v)) a)).
Proof.
  revert rows'. induction rows as [|r rows IH]; intros rows'; simpl.
  - intros [= <-]. split; [done|]. intros i a. by rewrite lookup_nil.
  - destruct (dict_get "id" r) as [v|] eqn:Hid; [|done].
    destruct (py_eq v (VStr aid)) eqn:Heq.
    + destruct (patch_row data r) as [r'|] eqn:Hrow; [|done]. simpl.
      intros [= <-]. split; [done|]. intros [|i] a Ha; simpl in *.
      * injection Ha as <-. exists r'. split_and!; [done | |].
        -- intros k Hk. by eapply patch_row_fields.
        -- destruct (patch_row_cases _ _ _ Hrow) as [->|Hset]; [by left|].
           right. split_and!; [|intros j b Hj; lia|done].
           unfold has_id. by rewrite Hid.
      * exists a. split_and!; [done | done | by left].
    + destruct (patch_rows aid data rows) as [rest'|] eqn:Hrest; [|done]. simpl.
      intros [= <-]. destruct (IH rest' eq_refl) as [Hlen Hrows].
      split; [simpl; by rewrite Hlen|]. intros [|i] a Ha; simpl in *.
      * injection Ha as <-. exists r. split_and!; [done | done | by left].
      * destruct (Hrows i a Ha) as (a' & Ha' & Hf & Hcase).
        exists a'. split_and!; [done | done |].
        destruct Hcase as [->|(Hh & Hfirst & Hset)]; [by left|].
        right. split_and!; [done | | done].
        intros [|j] b Hj Hb; simpl in Hb.
        -- injection Hb as <-. unfold has_id. by rewrite Hid.
        -- apply (Hfirst j b); [lia | done].
Qed.

Lemma delete_rows_filter aid rows rows' :
  delete_rows aid rows = Ok rows' ->
  rows' = filter (fun a => has_id aid a = false) rows /\
  Forall (fun a => is_Some (dict_get "id" a)) rows.
Proof.
  revert rows'. induction rows as [|r rows IH]; intros rows'; simpl.
  - intros [= <-]. split; [done | apply Forall_nil_2].
  - destruct (dict_get "id" r) as [v|] eqn:Hid; [|done].
    destruct (delete_rows aid rows) as [rest'|]; [|done]. simpl.
    intros [= <-]. destruct (IH rest' eq_refl) as [-> Hall].
    split; [|apply Forall_cons_2; [by rewrite Hid | done]].
    assert (has_id aid r = py_eq v (VStr aid)) as Hh.
    { unfold has_id. by rewrite Hid. }
    rewrite filter_cons. destruct (py_eq v (VStr aid)).
    + rewrite decide_False; [done|]. by rewrite Hh.
    + rewrite decide_True; [done|]. by rewrite Hh.
Qed.

Lemma delete_rows_total aid rows :
  Forall (fun a => is_Some (dict_get "id" a)) rows ->
  exists rows', delete_rows aid rows = Ok rows'.
Proof.
  induction 1 as [|r rows [v Hv] _ [rest' IH]]; simpl; [by eexists|].
  rewrite Hv, IH. simpl. by eexists.
Qed.

Lemma delete_rows_raises aid rows e :
  delete_rows aid rows = Raise e -> e = KeyError.
Proof.
  induction rows as [|r rows IH]; simpl; [done|].
  destruct (dict_get "id" r); [|by intros [= <-]].
  destruct (delete_rows aid rows); [done|]. simpl. intros [= <-]. by apply IH.
Qed.

(** X24. A DELETE has two outcomes. When every row has an [id], it writes
    the rows whose [id] is not the one asked for, in their order, and a
    second DELETE of the same id changes nothing more. When some row has
    no [id], it fails with [KeyError] and the file is as it was. *)
Theorem delete_removes_rows_with_id aid store :
  let rows := load_assignments store in
  let rest := filter (fun a => has_id aid a = false) rows in
  (Forall (fun a => is_Some (dict_get "id" a)) rows /\
   delete_assignment aid store = (Ok 200%Z, Doc rest) /\
   delete_assignment aid (Doc rest) = (Ok 200%Z, Doc rest)) \/
  (Exists (fun a => dict_get "id" a = None) rows /\
   delete_assignment aid store = (Raise KeyError, store)).
Proof.
  intros rows rest. unfold delete_assignment. fold rows.
  destruct (delete_rows aid rows) as [rows'|e] eqn:Hdel.
  - left. destruct (delete_rows_filter _ _ _ Hdel) as [Hrows Hall].
    fold rest in Hrows. subst rows'. split_and!; [done | done |].
    assert (Forall (fun a => is_Some (dict_get "id" a)) rest) as Hall'.
    { apply Forall_forall. intros a [_ Ha]%list_elem_of_filter.
      rewrite Forall_forall in Hall. by apply Hall. }
    destruct (delete_rows_total aid _ Hall') as [rows'' Hdel'].
    destruct (delete_rows_filter _ _ _ Hdel') as [Hrows'' _].
    assert (rows'' = rest) as ->.
    { rewrite Hrows''. apply filter_all.
      apply Forall_forall. by intros a [? _]%list_elem_of_filter. }
    simpl. by rewrite Hdel'.
  - right. rewrite (delete_rows_raises _ _ _ Hdel). split; [|done].
    destruct (decide (Forall (fun a => is_Some (dict_get "id" a)) rows))
      as [Hall|Hnot].
    + destruct (delete_rows_total aid _ Hall) as [rows' Hok]. congruence.
    + apply not_Forall_Exists in Hnot; [|apply _].
      eapply Exists_impl; [exact Hnot|]. simpl. intros a Hnone.
      destruct (dict_get "id" a) as [v|]; [|done].
      destruct Hnone. by exists v.
Qed.

(** X25. Deleting the row of a Canvas assignment that is still upcoming
    does not last: the next merge writes a fresh row for it, under a new
    identifier, uncompleted and with no reminder recorded. *)
Theorem deleted_upcoming_row_comes_back uuid4 aid store store' ups subm m ca k :
  delete_assignment aid store = (Ok 200%Z, store') ->
  (forall r, r ∈ load_assignments store -> row_key r = Some k ->
     has_id aid r = true) ->
  ca ∈ ups ->
  hash_key (u_canvas_id ca) = Some k ->
  merge uuid4 ups subm (load_assignments store') = Ok m ->
  exists j r,
    r = new_row (uuid4 j) ca /\
    r ∈ saved_rows m /\
    truthy (get_or_none "completed" r) = false /\
    sent_list r = [].
Proof.
  unfold delete_assignment.
  destruct (delete_rows aid (load_assignments store)) as [rows'|e] eqn:Hdel; [|done].
  intros [= <-] Hall Hca Hk Hm. simpl in Hm.
  destruct (delete_rows_filter _ _ _ Hdel) as [Hrows _].
  assert (is_new rows' ca = true) as Hnew.
  { unfold is_new. rewrite Hk. apply negb_true_iff, not_true_is_false.
    intros (r & Hr & Hkey)%tracked_true.
    rewrite Hrows in Hr. apply list_elem_of_filter in Hr as [Hno Hr].
    by rewrite (Hall r Hr Hkey) in Hno. }
  destruct (merge_fresh_row uuid4 _ _ _ _ _ Hm Hca Hnew) as (j & _ & Hin).
  exists j, (new_row (uuid4 j) ca). by split_and!.
Qed.

(** ** The courses and the done set *)

Lemma course_name_truthy c : truthy (course_name c) = true.
Proof.
  unfold course_name, py_or.
  destruct (truthy (get_or_none "name" c)) eqn:E1; [done|].
  destruct (truthy (get_or_none "course_code" c)) eqn:E2; [done|].
  done.
Qed.

Lemma course_map_set_entries k cid name (m : course_map_t) e :
  e ∈ course_map_set k cid name m ->
  e.2.2 = name \/ e ∈ m.
Proof.
  induction m as [|[k0 [cid0 name0]] m IH]; simpl.
  - intros ->%list_elem_of_singleton. by left.
  - destruct (key_eqb k0 k).
    + intros [->|?]%elem_of_cons; [by left|]. right. by apply list_elem_of_further.
    + intros [->|[?|?]%IH]%elem_of_cons.
      * right. apply list_elem_of_here.
      * by left.
      * right. by apply list_elem_of_further.
Qed.

Lemma course_map_names raw : forall m0 m e,
  course_map raw m0 = Ok m ->
  e ∈ m ->
  e ∈ m0 \/ exists c, VDict c ∈ raw /\ truthy (get_or_none "id" c) = true /\
    e.2.2 = course_name c.
Proof.
  induction raw as [|a raw IH]; intros m0 m e; simpl.
  - intros [= <-] He. by left.
  - assert (forall m1, course_map raw m1 = Ok m -> e ∈ m ->
              (e ∈ m1 \/ exists c, VDict c ∈ a :: raw /\
                 truthy (get_or_none "id" c) = true /\ e.2.2 = course_name c))
      as Hskip.
    { intros m1 H1 He. destruct (IH _ _ _ H1 He) as [?|(c & Hc & ?)]; [by left|].
      right. exists c. split; [by apply list_elem_of_further | done]. }
    destruct a as [| | | | |d]; try (intros H He; by apply Hskip).
    destruct (truthy (get_or_none "id" d)) eqn:Ht; [|intros H He; by apply Hskip].
    destruct (hash_key (get_or_none "id" d)) as [k|]; [|done].
    intros H He. destruct (Hskip _ H He) as [Hin|?]; [|by right].
    apply course_map_set_entries in Hin as [Hname|?]; [|by left].
    right. exists d. split_and!; [apply list_elem_of_here | done | done].
Qed.

Lemma add_done_elem_of raw : forall ids ids' k,
  add_done raw ids = Ok ids' ->
  k ∈ ids' <->
  k ∈ ids \/ exists a, VDict a ∈ raw /\ truthy (get_or_none "id" a) = true /\
    hash_key (get_or_none "id" a) = Some k.
Proof.
  induction raw as [|x raw IH]; intros ids ids' k; simpl.
  - intros [= <-]. split; [by left|]. intros [?|(a & ?%elem_of_nil & _)]; done.
  - assert (forall ids1,
              add_done raw ids1 = Ok ids' ->
              (k ∈ ids1 <-> k ∈ ids \/ exists a, x = VDict a /\
                 truthy (get_or_none "id" a) = true /\
                 hash_key (get_or_none "id" a) = Some k) ->
              k ∈ ids' <->
              k ∈ ids \/ exists a, VDict a ∈ x :: raw /\
                truthy (get_or_none "id" a) = true /\
                hash_key (get_or_none "id" a) = Some k) as Hgo.
    { intros ids1 H1 Hiff. rewrite (IH _ _ k H1), Hiff. split.
      - intros [[?|(a & -> & ?)]|(a & Ha & ?)]; [by left | |].
        + right. exists a. split; [apply list_elem_of_here | done].
        + right. exists a. split; [by apply list_elem_of_further | done].
      - intros [?|(a & [Hx|Ha]%elem_of_cons & ?)].
        + left. by left.
        + left. right. by exists a.
        + right. by exists a. }
    destruct x as [| | | | |d];
      try (intros H; apply (Hgo _ H); split; [by left|];
           intros [?|(a & ? & _)]; [done | discriminate]).
    destruct (truthy (get_or_none "id" d)) eqn:Ht.
    + destruct (hash_key (get_or_none "id" d)) as [k0|] eqn:Hk; [|done].
      intros H. apply (Hgo _ H). rewrite elem_of_cons. split.
      * intros [->|?]; [|by left]. right. by exists d.
      * intros [?|(a & [= <-] & _ & Hk')]; [by right|]. left. congruence.
    + intros H. apply (Hgo _ H). split; [by left|].
      intros [?|(a & [= <-] & Ht' & _)]; [done | congruence].
Qed.

Lemma or_empty_elem_of r raw x :
  or_empty r = Ok raw -> x ∈ raw -> r = Ok raw.
Proof.
  destruct r as [l|[msg| | | | |]]; simpl; try done.
  intros [= <-] ?%elem_of_nil. done.
Qed.

Section Done.

Variable w : world.

Lemma fetch_courses_done url token courses : forall ups0 ids0 ups ids k,
  fetch_courses w url token courses ups0 ids0 = Ok (ups, ids) ->
  k ∈ ids <-> k ∈ ids0 \/ done_on_canvas w url token courses k.
Proof.
  induction courses as [|[k0 [cid cname]] courses IH];
    intros ups0 ids0 ups ids k; simpl.
  - intros [= <- <-]. split; [by left|].
    intros [?|(e & ? & ? & ? & ?%elem_of_nil & _)]; done.
  - destruct (or_empty (get_all w url token (assignments_path cid
                "?bucket=upcoming&per_page=100&order_by=due_at")))
      as [raw|]; simpl; [|done].
    destruct (upcoming_of w cname raw) as [ups1|]; simpl; [|done].
    destruct (or_empty (get_all w url token (assignments_path cid
                "?bucket=submitted&per_page=100")))
      as [sraw|] eqn:Es; simpl; [|done].
    destruct (add_done sraw ids0) as [ids1|] eqn:E1; simpl; [|done].
    destruct (or_empty (get_all w url token (assignments_path cid
                "?bucket=graded&per_page=100")))
      as [graw|] eqn:Eg; simpl; [|done].
    destruct (add_done graw ids1) as [ids2|] eqn:E2; simpl; [|done].
    intros H. rewrite (IH _ _ _ _ k H).
    rewrite (add_done_elem_of _ _ _ k E2), (add_done_elem_of _ _ _ k E1).
    split.
    + intros [[[?|(a & Ha & Ht & Hk)]|(a & Ha & Ht & Hk)]|Hrest].
      * by left.
      * right. exists (k0, (cid, cname)), "?bucket=submitted&per_page=100", sraw, a.
        split_and!; try done; [apply list_elem_of_here | apply list_elem_of_here |].
        by apply (or_empty_elem_of _ _ (VDict a) Es).
      * right. exists (k0, (cid, cname)), "?bucket=graded&per_page=100", graw, a.
        split_and!; try done;
          [apply list_elem_of_here
          | apply list_elem_of_further, list_elem_of_here |].
        by apply (or_empty_elem_of _ _ (VDict a) Eg).
      * destruct Hrest as (e & q & raw' & a & He & ?). right.
        exists e, q, raw', a. split; [by apply list_elem_of_further | done].
    + intros [?|(e & q & raw' & a & [->|He]%elem_of_cons & Hq & Hget & Ha & Ht & Hk)].
      * left. left. by left.
      * simpl in Hget. unfold done_queries in Hq.
        apply elem_of_cons in Hq as [->|Hq].
        -- left. left. right. exists a. rewrite Hget in Es. simpl in Es.
           injection Es as <-. done.
        -- apply list_elem_of_singleton in Hq as ->.
           left. right. exists a. rewrite Hget in Eg. simpl in Eg.
           injection Eg as <-. done.
      * right. by exists e, q, raw', a.
Qed.

(** X26. The done set [sync] merges with holds exactly the truthy ids
    listed in the submitted or the graded bucket of one of the courses
    fetched, a bucket that cannot be read counting as empty. *)
Theorem done_set_is_submitted_or_graded courses ups ids :
  fetch w = Ok (courses, ups, ids) ->
  exists url token,
    load_config w = Ok (url, token) /\
    forall k, k ∈ ids <-> done_on_canvas w url token courses k.
Proof.
  intros (url & token & raw & Hcfg & _ & _ & Hfc)%fetch_inv.
  exists url, token. split; [done|]. intros k.
  rewrite (fetch_courses_done _ _ _ _ _ _ _ k Hfc). split.
  - intros [?%elem_of_nil|?]; done.
  - by right.
Qed.

(** X27. Every course of [course_map] carries a name that is truthy, the
    [name] of a course of the list fetched, else its [course_code],
    else [Course] and its id; and every upcoming entry carries the name
    of such a course. *)
Theorem course_names_are_never_empty courses ups ids :
  fetch w = Ok (courses, ups, ids) ->
  exists url token raw_courses,
    load_config w = Ok (url, token) /\
    get_all w url token courses_path = Ok raw_courses /\
    (forall e, e ∈ courses ->
       truthy e.2.2 = true /\
       exists c, VDict c ∈ raw_courses /\
         truthy (get_or_none "id" c) = true /\ e.2.2 = course_name c) /\
    Forall (fun ca =>
              truthy (u_course ca) = true /\
              exists e, e ∈ courses /\ u_course ca = e.2.2) ups.
Proof.
  intros (url & token & raw & Hcfg & Hraw & Hmap & Hfc)%fetch_inv.
  exists url, token, raw. split_and!; [done | done | |].
  - intros e He.
    destruct (course_map_names _ _ _ e Hmap He) as [?%elem_of_nil|(c & Hc & Ht & ->)];
      [done|].
    split; [apply course_name_truthy|]. by exists c.
  - apply Forall_forall. intros ca Hca.
    destruct (fetch_courses_course w _ _ _ _ _ _ _ Hfc ca Hca)
      as [?%elem_of_nil|Hin]; [done|].
    apply list_elem_of_fmap in Hin as (e & -> & He).
    split; [|by exists e].
    destruct (course_map_names _ _ _ e Hmap He) as [?%elem_of_nil|(c & _ & _ & ->)];
      [done|].
    apply course_name_truthy.
Qed.

End Done.

(** ** A second pass over the same answers *)

Lemma dict_get_refreshed r ca :
  dict_get "title" (refresh_row r ca) = Some (u_title ca) /\
  dict_get "course" (refresh_row r ca) = Some (u_course ca) /\
  dict_get "due_date" (refresh_row r ca) = Some (VStr (u_due_date ca)) /\
  dict_get "source" (refresh_row r ca) = Some (VStr "canvas").
Proof.
  unfold refresh_row. split_and!; rewrite !dict_get_set; reflexivity.
Qed.

Lemma refresh_row_same r ca :
  dict_get "title" r = Some (u_title ca) ->
  dict_get "course" r = Some (u_course ca) ->
  dict_get "due_date" r = Some (VStr (u_due_date ca)) ->
  dict_get "source" r = Some (VStr "canvas") ->
  refresh_row r ca = r.
Proof.
  intros H1 H2 H3 H4. unfold refresh_row.
  by rewrite (dict_set_same _ _ _ H1), (dict_set_same _ _ _ H2),
    (dict_set_same _ _ _ H3), (dict_set_same _ _ _ H4).
Qed.

Lemma refresh_row_fixed r ca :
  refresh_row (refresh_row r ca) ca = refresh_row r ca.
Proof.
  destruct (dict_get_refreshed r ca) as (H1 & H2 & H3 & H4).
  by apply refresh_row_same.
Qed.

Lemma refresh_row_new_row id ca : refresh_row (new_row id ca) ca = new_row id ca.
Proof. reflexivity. Qed.

Lemma kdict_set_fresh {A} (k : key) (x : A) (d : kdict A) :
  k ∉ d.*1 -> kdict_set k x d = d ++ [(k, x)].
Proof.
  induction d as [|[k0 y] d IH]; csimpl; [done|].
  intros Hnot. destruct (key_eqb k0 k) eqn:E.
  - apply key_eqb_eq in E as ->. destruct Hnot. apply list_elem_of_here.
  - rewrite IH; [done|]. intros ?. apply Hnot. by apply list_elem_of_further.
Qed.

(** With no id twice, [by_canvas_id] holds the rows that have an id, in
    their order. *)
Lemma split_rows_entries rows : forall (pre : list row) manual by_id manual' by_id',
  split_rows (length pre) rows manual by_id = Ok (manual', by_id') ->
  NoDup (by_id.*1 ++ omap row_key rows) ->
  exists new, by_id' = by_id ++ new /\
    Forall2 (fun e r => (pre ++ rows) !! e.2 = Some r /\ row_key r = Some e.1)
      new (filter (fun r => is_manual r = false) rows).
Proof.
  induction rows as [|r rows IH]; intros pre manual by_id manual' by_id'; simpl.
  - intros [= <- <-] _. exists []. by rewrite app_nil_r.
  - intros Hsplit Hnd. revert Hsplit. rewrite filter_cons. csimpl in Hnd.
    destruct (dict_get "canvas_id" r) as [v|] eqn:Hv.
    + destruct (hash_key v) as [k|] eqn:Hk; [|done].
      intros Hsplit.
      assert (row_key r = Some k) as Hkey by (unfold row_key; by rewrite Hv).
      assert (is_manual r = false) as Hman.
      { unfold is_manual, dict_mem. by rewrite Hv. }
      rewrite Hkey in Hnd.
      assert (k ∉ by_id.*1) as Hfresh.
      { apply NoDup_app in Hnd as (_ & Hdis & _). intros Hin.
        apply (Hdis k Hin). apply list_elem_of_here. }
      rewrite (kdict_set_fresh _ _ _ Hfresh) in Hsplit.
      replace (S (length pre)) with (length (pre ++ [r])) in Hsplit
        by (rewrite length_app; simpl; lia).
      destruct (IH _ _ _ _ _ Hsplit) as (new & -> & Hall).
      { rewrite fmap_app. csimpl. by rewrite <- app_assoc. }
      exists ((k, length pre) :: new). split; [by rewrite <- app_assoc|].
      rewrite decide_True by done. constructor.
      * split; [|done]. simpl. by rewrite list_lookup_middle.
      * eapply Forall2_impl; [exact Hall|]. simpl. intros e r0.
        by rewrite <- app_assoc.
    + intros Hsplit.
      assert (row_key r = None) as Hkey by (unfold row_key; by rewrite Hv).
      assert (is_manual r = true) as Hman.
      { unfold is_manual, dict_mem. by rewrite Hv. }
      rewrite Hkey in Hnd.
      replace (S (length pre)) with (length (pre ++ [r])) in Hsplit
        by (rewrite length_app; simpl; lia).
      destruct (IH _ _ _ _ _ Hsplit Hnd) as (new & -> & Hall).
      exists new. split; [done|].
      rewrite decide_False by congruence.
      eapply Forall2_impl; [exact Hall|]. simpl. intros e r0.
      by rewrite <- app_assoc.
Qed.

Lemma Forall2_filter_both {A B} (R : A -> B -> Prop) (P : A -> Prop) (Q : B -> Prop)
    `{!forall x, Decision (P x)} `{!forall y, Decision (Q y)} l k :
  Forall2 R l k ->
  (forall x y, R x y -> P x <-> Q y) ->
  Forall2 R (filter P l) (filter Q k).
Proof.
  intros Hall Hiff. induction Hall as [|x y l k Hxy _ IH]; [constructor|].
  rewrite !filter_cons. destruct (decide (P x)) as [HP|HP].
  - rewrite decide_True by (by apply (Hiff x y)). by constructor.
  - rewrite decide_False; [done|]. intros HQ. by apply HP, (Hiff x y).
Qed.

Lemma Forall2_fmap_eq {A B} (R : A -> B -> Prop) (f : A -> B) l k :
  Forall2 R l k -> (forall x y, R x y -> f x = y) -> f <$> l = k.
Proof.
  intros Hall Hf. induction Hall as [|x y l k Hxy _ IH]; [done|].
  csimpl. by rewrite (Hf x y Hxy), IH.
Qed.

Section Refresh.

Variable uuid4 : nat -> string.

(** With no id twice among the entries, a tracked row is refreshed
    once, from the row as the pass found it. *)
Lemma upcoming_loop_refresh_once by_id ups : forall keys st st' ca k j r,
  keys_ok by_id (heap st) ->
  upcoming_canvas_ids ups = Ok keys ->
  NoDup keys ->
  upcoming_loop uuid4 by_id st ups = Ok st' ->
  ca ∈ ups ->
  hash_key (u_canvas_id ca) = Some k ->
  kdict_get k by_id = Some j ->
  heap st !! j = Some r ->
  heap st' !! j = Some (refresh_row r ca).
Proof.
  induction ups as [|ca0 ups IH]; intros keys st st' ca k j r Hok; simpl.
  - by intros _ _ _ ?%elem_of_nil.
  - destruct (hash_key (u_canvas_id ca0)) as [k0|] eqn:Hk0; [|done].
    destruct (upcoming_canvas_ids ups) as [s|] eqn:Hs; [|done]. simpl.
    intros [= <-] [Hnotin Hnd]%NoDup_cons.
    destruct (upcoming_step uuid4 by_id st ca0) as [st1|] eqn:Hstep; [|done].
    simpl. intros Hloop Hca Hk Hget Hr.
    assert (keys_ok by_id (heap st1)) as Hok1.
    { apply (upcoming_loop_keys_ok uuid4 by_id [ca0] st); [|done].
      simpl. by rewrite Hstep. }
    apply kdict_get_Some_elem_of in Hget as Hin.
    apply elem_of_cons in Hca as [->|Hca].
    + assert (k0 = k) as -> by congruence.
      destruct (upcoming_step_inv uuid4 _ _ _ _ Hstep)
        as (cid & Hcid & _ & _ & _ & [(i & r0 & Hi & Hr0 & Hheap & _)|(Hnone & _)]).
      2:{ assert (cid = k) as -> by congruence. congruence. }
      assert (cid = k) as -> by congruence.
      assert (i = j) as -> by congruence.
      assert (r0 = r) as -> by congruence.
      assert (heap st1 !! j = Some (refresh_row r ca0)) as Hr1.
      { rewrite Hheap. apply list_lookup_insert_eq. by eapply lookup_lt_Some. }
      destruct (upcoming_loop_heap uuid4 _ _ _ _ _ _ Hloop Hr1) as (r' & Hr' & _ & Hsame).
      rewrite Hr', Hsame; [done|].
      intros ca' Hca' (cid' & Hcid' & Hget'%kdict_get_Some_elem_of).
      assert (k = cid') as <- by (by eapply keys_ok_inj).
      apply Hnotin. apply (upcoming_canvas_ids_elem_of _ _ k Hs). by exists ca'.
    + assert (k ∈ s) as Hks.
      { apply (upcoming_canvas_ids_elem_of _ _ k Hs). by exists ca. }
      destruct (upcoming_step_heap uuid4 _ _ _ _ _ _ Hstep Hr) as (r1 & Hr1 & _ & Hsame).
      rewrite Hsame in Hr1.
      2:{ intros (cid' & Hcid' & Hget'%kdict_get_Some_elem_of).
          assert (cid' = k0) as -> by congruence.
          assert (k = k0) as -> by (by eapply keys_ok_inj). done. }
      by apply (IH s st1 st' ca k j r Hok1 eq_refl Hnd Hloop).
Qed.

End Refresh.

Lemma Forall2_elem_of_l {A B} (P : A -> B -> Prop) l k x :
  Forall2 P l k -> x ∈ l -> exists y, y ∈ k /\ P x y.
Proof.
  induction 1 as [|a b l k Hab _ IH]; [by intros ?%elem_of_nil|].
  intros [->|Hx]%elem_of_cons.
  - exists b. split; [apply list_elem_of_here | done].
  - destruct (IH Hx) as (y & Hy & HP). exists y.
    split; [by apply list_elem_of_further | done].
Qed.

Lemma Forall2_elem_of_r {A B} (P : A -> B -> Prop) l k y :
  Forall2 P l k -> y ∈ k -> exists x, x ∈ l /\ P x y.
Proof.
  induction 1 as [|a b l k Hab _ IH]; [by intros ?%elem_of_nil|].
  intros [->|Hy]%elem_of_cons.
  - exists a. split; [apply list_elem_of_here | done].
  - destruct (IH Hy) as (x & Hx & HP). exists x.
    split; [by apply list_elem_of_further | done].
Qed.

Lemma Forall2_both_fmap_eq {A B C} (R : A -> B -> Prop) (Q : A -> C -> Prop)
    (f : B -> C) l k u :
  Forall2 R l k -> Forall2 Q l u ->
  (forall a b c, a ∈ l -> c ∈ u -> R a b -> Q a c -> f b = c) -> f <$> k = u.
Proof.
  intros HR. revert u. induction HR as [|a b l k Hab _ IH]; intros u HQ Hf.
  - by inversion HQ.
  - inversion HQ as [|? c ? u' Hac HQ']; subst. csimpl.
    rewrite (Hf a b c); [|apply list_elem_of_here | apply list_elem_of_here | done | done].
    rewrite (IH u' HQ'); [done|].
    intros a' b' c' Ha' Hc'. apply Hf; by apply list_elem_of_further.
Qed.

Lemma py_eq_scalar v : is_Some (hash_key v) -> py_eq v v = true.
Proof.
  destruct v as [|b|z|s|l|d]; simpl; intros [k Hk]; try done.
  - by destruct b.
  - apply Z.eqb_refl.
  - apply String.eqb_refl.
Qed.

Lemma row_key_canvas_id r k :
  row_key r = Some k ->
  is_manual r = false /\
  forall v, dict_get "canvas_id" r = Some v -> hash_key v = Some k.
Proof.
  unfold row_key, is_manual, dict_mem.
  destruct (dict_get "canvas_id" r) as [v|]; [|done].
  intros Hk. split; [done|]. by intros v' [= <-].
Qed.

(** What a row of a settled file is. *)
Lemma settled_row ups keys M U K r k :
  upcoming_canvas_ids ups = Ok keys ->
  settled ups keys M U K ->
  r ∈ M ++ U ++ K ->
  row_key r = Some k ->
  (r ∈ U /\ k ∈ keys /\
   exists ca, ca ∈ ups /\ hash_key (u_canvas_id ca) = Some k /\
     refresh_row r ca = r) \/
  (r ∈ K /\ (k ∉ keys) /\ truthy (get_or_none "completed" r) = true).
Proof.
  intros Hkeys (HM & HU & HK & _) Hr Hk.
  apply elem_of_app in Hr as [Hr|[Hr|Hr]%elem_of_app].
  - rewrite Forall_forall in HM. apply HM, is_manual_row_key in Hr. congruence.
  - left. destruct (Forall2_elem_of_r _ _ _ _ HU Hr) as (ca & Hca & Hkey & Hfix).
    rewrite Hk in Hkey. split_and!; [done | |].
    + apply (upcoming_canvas_ids_elem_of _ _ k Hkeys). by exists ca.
    + by exists ca.
  - right. rewrite Forall_forall in HK.
    destruct (HK r Hr) as (k' & Hk' & Hnot & Hc).
    assert (k' = k) as -> by congruence. done.
Qed.

Lemma settled_filters ups keys subm M U K :
  upcoming_canvas_ids ups = Ok keys ->
  settled ups keys M U K ->
  filter (fun r => is_manual r = true) (M ++ U ++ K) = M /\
  filter (fun r => is_manual r = false) (M ++ U ++ K) = U ++ K /\
  filter (fun r => kept_row keys subm r = true) (U ++ K) = K.
Proof.
  intros Hkeys Hset. pose proof Hset as (HM & HU & HK & _).
  assert (Forall (fun r => is_manual r = false) (U ++ K)) as Hcanvas.
  { apply Forall_forall. intros r Hr.
    assert (r ∈ M ++ U ++ K) as Hin by (apply elem_of_app; by right).
    apply elem_of_app in Hr as [Hr|Hr].
    - destruct (Forall2_elem_of_r _ _ _ _ HU Hr) as (ca & Hca & Hkey & _).
      pose proof (upcoming_canvas_ids_keys _ _ Hkeys) as Hk.
      destruct (Forall2_elem_of_l _ _ _ _ Hk Hca) as (k & _ & Hk').
      rewrite Hk' in Hkey. by apply row_key_canvas_id in Hkey as [? _].
    - rewrite Forall_forall in HK. destruct (HK r Hr) as (k & Hkey & _).
      by apply row_key_canvas_id in Hkey as [? _]. }
  split_and!.
  - rewrite filter_app, (filter_all _ _ HM), filter_none, app_nil_r; [done|].
    eapply Forall_impl; [exact Hcanvas|]. simpl. intros r. congruence.
  - rewrite filter_app, (filter_all _ _ Hcanvas), filter_none; [done|].
    eapply Forall_impl; [exact HM|]. simpl. intros r. congruence.
  - rewrite filter_app, filter_none, filter_all; [done | |].
    + apply Forall_forall. intros r Hr. rewrite Forall_forall in HK.
      destruct (HK r Hr) as (k & Hkey & Hnot & Hc).
      unfold kept_row. rewrite Hkey, Hc, orb_true_r.
      apply kset_mem_not_elem_of in Hnot. by rewrite Hnot.
    + apply Forall_forall. intros r Hr.
      destruct (Forall2_elem_of_r _ _ _ _ HU Hr) as (ca & Hca & Hkey & _).
      pose proof (upcoming_canvas_ids_keys _ _ Hkeys) as Hk.
      destruct (Forall2_elem_of_l _ _ _ _ Hk Hca) as (k & Hkin & Hk').
      rewrite Hk' in Hkey. unfold kept_row. rewrite Hkey.
      apply kset_mem_elem_of in Hkin. by rewrite Hkin.
Qed.

Section SecondPass.

Variable uuid4 : nat -> string.

(** The list a merge writes is settled, when no id is twice among the
    entries. *)
Lemma merge_settles ups subm existing m keys :
  merge uuid4 ups subm existing = Ok m ->
  upcoming_canvas_ids ups = Ok keys ->
  NoDup keys ->
  exists M U K, saved_rows m = M ++ U ++ K /\ settled ups keys M U K.
Proof.
  intros Hm Hkeys Hnd.
  destruct (saved_rows_split uuid4 _ _ _ _ Hm) as [Hsaved _].
  destruct (merge_keys_ok uuid4 _ _ _ _ Hm) as (Hndby & Hok & Hokf).
  destruct (merge_spec uuid4 _ _ _ _ _ Hm Hkeys)
    as (st1 & slots & Hloop & Hok1 & _ & Hall & Hnew & _ & _ & Hfinal).
  set (h := heap (m_state m)) in *.
  set (kept_entries :=
         filter (fun e => kept keys subm existing e = true) (m_by_canvas_id m)) in *.
  exists (filter (fun r => is_manual r = true) existing),
    (deref h <$> slots), (deref h <$> (Ref <$> kept_entries.*2)).
  assert (saved_rows m =
          filter (fun r => is_manual r = true) existing ++
          (deref h <$> slots) ++ (deref h <$> (Ref <$> kept_entries.*2))) as Heq.
  { rewrite Hsaved, Hnew. by rewrite fmap_app. }
  split; [done|]. split_and!.
  - apply Forall_forall. by intros r [? _]%list_elem_of_filter.
  - apply Forall2_fmap_r.
    apply Forall2_same_length_lookup_2; [by eapply Forall2_length|].
    intros n ca s Hca Hs.
    pose proof (Forall2_lookup_lr _ _ _ _ _ _ Hall Hca Hs) as Hslot.
    apply list_elem_of_lookup_2 in Hca.
    destruct Hslot as (cid & Hcid & [(i & -> & Hi)|(id & -> & _)]).
    + apply kdict_get_Some_elem_of in Hi as Hin.
      destruct (Hok _ _ Hin) as (r0 & Hr0 & Hk0).
      pose proof (upcoming_loop_refresh_once uuid4 _ _ keys (merge_init existing)
                    st1 ca cid i r0 Hok Hkeys Hnd Hloop Hca Hcid Hi Hr0) as Hr1.
      pose proof (Hfinal _ _ Hr1) as Hh. fold h in Hh.
      rewrite decide_False in Hh.
      2:{ rewrite (auto_marked_rows_elem_of _ _ _ _ cid i Hok Hin).
          unfold auto_marked. simpl.
          assert (kset_mem cid keys = true) as ->; [|done].
          apply kset_mem_elem_of.
          apply (upcoming_canvas_ids_elem_of _ _ cid Hkeys). by exists ca. }
      simpl. rewrite Hh. split; [|apply refresh_row_fixed].
      by rewrite row_key_refresh_row, Hcid.
    + simpl. split; [done | apply refresh_row_new_row].
  - apply Forall_forall. intros r Hr.
    apply list_elem_of_fmap in Hr as (s & -> & Hs).
    apply list_elem_of_fmap in Hs as (i & -> & Hi).
    apply list_elem_of_fmap in Hi as ([k i'] & ? & Hin). simpl in *; subst i'.
    apply list_elem_of_filter in Hin as [Hkept Hin].
    destruct (Hok _ _ Hin) as (r0 & Hr0 & Hk0).
    destruct (Hokf _ _ Hin) as (rf & Hrf & Hkf). fold h in Hrf.
    rewrite Hrf. exists k.
    unfold kept in Hkept. simpl in Hkept.
    apply andb_true_iff in Hkept as [Hnot Hwhy].
    apply negb_true_iff in Hnot.
    split_and!; [done | by apply kset_mem_not_elem_of |].
    destruct (merge_final_heap uuid4 _ _ _ _ _ _ _ Hm Hkeys Hr0)
      as (r1 & _ & Hsame & Hfin).
    fold h in Hfin. rewrite Hrf in Hfin. injection Hfin as ->.
    destruct (decide _) as [_|Hno]; [apply truthy_mark_completed|].
    rewrite Hsame.
    2:{ intros ca Hca (cid & Hcid & Hget%kdict_get_Some_elem_of).
        assert (cid = k) as -> by (by eapply keys_ok_inj).
        apply kset_mem_not_elem_of in Hnot. apply Hnot.
        apply (upcoming_canvas_ids_elem_of _ _ k Hkeys). by exists ca. }
    rewrite (auto_marked_rows_elem_of _ _ _ _ k i Hok Hin) in Hno.
    unfold auto_marked in Hno. simpl in Hno. rewrite Hnot in Hno. simpl in Hno.
    unfold completed_at in Hwhy, Hno. rewrite Hr0 in Hwhy, Hno.
    destruct (kset_mem k subm); simpl in *; [|done].
    by destruct (truthy (get_or_none "completed" r0)).
  - rewrite <- Heq. by eapply merge_distinct_ids.
Qed.


(** A merge of a settled file, with the same entries, leaves it as it
    is. *)
Lemma settled_fixed ups subm keys M U K :
  upcoming_canvas_ids ups = Ok keys ->
  NoDup keys ->
  settled ups keys M U K ->
  exists m,
    merge uuid4 ups subm (M ++ U ++ K) = Ok m /\
    saved_rows m = M ++ U ++ K /\
    added (m_state m) = 0 /\
    removed (m_state m) = 0 /\
    auto_completed (m_state m) = 0 /\
    (Forall scalar_texts ups -> updated (m_state m) = 0).
Proof.
  intros Hkeys Hnd Hset. set (rows := M ++ U ++ K).
  pose proof Hset as (HM & HU & HK & Hndrows). fold rows in Hndrows.
  destruct (settled_filters _ _ subm _ _ _ Hkeys Hset) as (HfM & HfC & HfK).
  fold rows in HfM, HfC.
  pose proof (upcoming_canvas_ids_keys _ _ Hkeys) as Hupkeys.
  (* the merge returns *)
  destruct (merge_total uuid4 ups subm rows) as [m Hm].
  { apply Forall_forall. intros r Hr v Hv.
    destruct (row_key r) as [k|] eqn:Hk.
    - apply row_key_canvas_id in Hk as [_ Hk]. rewrite (Hk v Hv). by eexists.
    - unfold row_key in Hk. rewrite Hv in Hk. rewrite Hk.
      exfalso. unfold rows in Hr.
      apply elem_of_app in Hr as [Hr|Hr].
      + rewrite Forall_forall in HM. specialize (HM r Hr).
        unfold is_manual, dict_mem in HM. by rewrite Hv in HM.
      + assert (is_manual r = false) as Hnm.
        { unfold is_manual, dict_mem. by rewrite Hv. }
        assert (r ∈ filter (fun r => is_manual r = false) rows) as Hin.
        { apply list_elem_of_filter. split; [done|]. apply elem_of_app. by right. }
        rewrite HfC in Hin.
        apply elem_of_app in Hin as [Hin|Hin].
        * destruct (Forall2_elem_of_r _ _ _ _ HU Hin) as (ca & Hca & Hkey & _).
          destruct (Forall2_elem_of_l _ _ _ _ Hupkeys Hca) as (k & _ & Hk').
          unfold row_key in Hkey. rewrite Hv in Hkey. congruence.
        * rewrite Forall_forall in HK. destruct (HK r Hin) as (k & Hkey & _).
          unfold row_key in Hkey. rewrite Hv in Hkey. congruence. }
  { by eapply upcoming_canvas_ids_hashable. }
  exists m. split; [done|].
  destruct (merge_inv uuid4 _ _ _ _ Hm) as (keys' & st1' & Hsplit & Hkeys' & Hloop' & Htracked).
  assert (keys' = keys) as -> by congruence. clear Hkeys'.
  destruct (saved_rows_split uuid4 _ _ _ _ Hm) as [Hsaved _].
  destruct (merge_keys_ok uuid4 _ _ _ _ Hm) as (Hndby & Hok & _).
  destruct (merge_spec uuid4 _ _ _ _ _ Hm Hkeys)
    as (st1 & slots & Hloop & Hok1 & _ & Hall & Hnew & Hauto & Hrem & Hfinal).
  assert (st1' = st1) as -> by congruence.
  set (by_id := m_by_canvas_id m) in *.
  set (h := heap (m_state m)) in *.
  (* where a row with an id is *)
  assert (forall j r k, rows !! j = Some r -> row_key r = Some k ->
            kdict_get k by_id = Some j) as Hwhere.
  { intros j r k Hj Hk.
    apply (split_rows_last _ _ _ _ _ _ Hsplit Hj Hk).
    by apply (distinct_ids_last rows j r k Hndrows). }
  (* the entries of [by_canvas_id] *)
  destruct (split_rows_entries rows [] [] [] _ _ Hsplit) as (new & Hby & Hentries).
  { simpl. exact Hndrows. }
  simpl in Hby, Hentries. rewrite HfC in Hentries. subst new.
  assert (forall e, e ∈ by_id -> exists r, rows !! e.2 = Some r /\
            row_key r = Some e.1 /\
            (e.1 ∈ keys \/ truthy (get_or_none "completed" r) = true)) as Hentry.
  { intros [k j] Hin. destruct (Hok _ _ Hin) as (r & Hr & Hk).
    exists r. split_and!; [done | done |].
    destruct (settled_row _ _ _ _ _ r k Hkeys Hset) as [(_ & ? & _)|(_ & _ & ?)];
      [by eapply list_elem_of_lookup_2 | done | by left | by right]. }
  (* the pass changes no row *)
  assert (forall j r, rows !! j = Some r -> h !! j = Some r) as Hheap.
  { intros j r Hj.
    assert (heap st1 !! j = Some r) as Hj1.
    { destruct (row_key r) as [k|] eqn:Hk.
      - pose proof (Hwhere _ _ _ Hj Hk) as Hget.
        destruct (settled_row _ _ _ _ _ r k Hkeys Hset)
          as [(_ & _ & ca & Hca & Hcak & Hfix)|(_ & Hnot & _)];
          [by eapply list_elem_of_lookup_2 | done | |].
        + pose proof (upcoming_loop_refresh_once uuid4 by_id ups keys
                        (merge_init rows) st1 ca k j r Hok Hkeys Hnd Hloop
                        Hca Hcak Hget Hj) as Hr1.
          by rewrite Hfix in Hr1.
        + destruct (upcoming_loop_heap uuid4 by_id ups (merge_init rows) st1 j r
                      Hloop Hj) as (r' & Hr' & _ & Hsame).
          rewrite Hr', Hsame; [done|].
          intros ca Hca (cid & Hcid & Hget'%kdict_get_Some_elem_of).
          apply kdict_get_Some_elem_of in Hget.
          assert (cid = k) as -> by (by eapply keys_ok_inj).
          apply Hnot. apply (upcoming_canvas_ids_elem_of _ _ k Hkeys). by exists ca.
      - destruct (upcoming_loop_heap uuid4 by_id ups (merge_init rows) st1 j r
                    Hloop Hj) as (r' & Hr' & _ & Hsame).
        rewrite Hr', Hsame; [done|].
        intros ca Hca (cid & Hcid & Hget'%kdict_get_Some_elem_of).
        destruct (Hok _ _ Hget') as (r0 & Hr0 & Hk0). congruence. }
    rewrite (Hfinal _ _ Hj1). rewrite decide_False; [done|].
    intros ([k j'] & ? & [Ha Hin]%list_elem_of_filter)%list_elem_of_fmap.
    simpl in *; subst j'.
    destruct (Hentry _ Hin) as (r0 & Hr0 & Hk0 & Hwhy). simpl in *.
    unfold auto_marked, completed_at in Ha. simpl in Ha. rewrite Hr0 in Ha.
    destruct Hwhy as [Hin'%kset_mem_elem_of|Hc].
    - by rewrite Hin' in Ha.
    - rewrite Hc in Ha. by rewrite andb_false_r in Ha. }
  split_and!.
  - (* the list written *)
    rewrite Hsaved, HfM, Hnew, fmap_app. f_equal. f_equal.
    + apply (Forall2_both_fmap_eq _ _ _ _ _ _ Hall HU).
      intros ca s u Hca Hu (cid & Hcid & Hslot) [Hkey Hfix].
      assert (u ∈ rows) as Hin.
      { unfold rows. rewrite !elem_of_app. right. by left. }
      apply list_elem_of_lookup_1 in Hin as [j Hj].
      rewrite Hcid in Hkey.
      pose proof (Hwhere _ _ _ Hj Hkey) as Hget.
      destruct Hslot as [(i & -> & Hi)|(id & _ & Hnone)]; [|congruence].
      assert (i = j) as -> by congruence.
      simpl. by rewrite (Hheap _ _ Hj).
    + rewrite <- list_fmap_compose, <- list_fmap_compose, <- HfK.
      apply (Forall2_fmap_eq
               (fun e r => rows !! e.2 = Some r /\ row_key r = Some e.1)).
      * apply Forall2_filter_both; [done|].
        intros [k j] r [Hj Hk]. simpl in *.
        unfold kept, kept_row, completed_at. simpl. by rewrite Hj, Hk.
      * intros [k j] r [Hj Hk]. simpl in *. by rewrite (Hheap _ _ Hj).
  - (* added *)
    destruct (upcoming_loop_added uuid4 _ _ _ _ Hloop) as (Ha & _).
    destruct (tracked_loop_added _ _ _ _ Htracked) as (Ha2 & _ & _).
    rewrite Ha2, Ha. simpl. rewrite filter_none; [done|].
    apply Forall_forall. intros ca Hca.
    destruct (Forall2_elem_of_l _ _ _ _ HU Hca) as (u & Hu & Hkey & _).
    destruct (Forall2_elem_of_l _ _ _ _ Hupkeys Hca) as (k & _ & Hk).
    assert (u ∈ rows) as Hin.
    { unfold rows. rewrite !elem_of_app. right. by left. }
    apply list_elem_of_lookup_1 in Hin as [j Hj].
    rewrite Hk in Hkey. pose proof (Hwhere _ _ _ Hj Hkey) as Hget.
    unfold untracked. rewrite Hk. fold by_id. rewrite Hget.
    rewrite bool_decide_eq_false_2; done.
  - (* removed *)
    rewrite Hrem, filter_none; [done|].
    apply Forall_forall. intros [k j] Hin.
    destruct (Hentry _ Hin) as (r0 & Hr0 & Hk0 & Hwhy). simpl in *.
    unfold dropped, completed_at. simpl. rewrite Hr0.
    destruct Hwhy as [Hin'%kset_mem_elem_of|Hc].
    + by rewrite Hin'.
    + rewrite Hc. by rewrite andb_false_r.
  - (* auto_completed *)
    rewrite Hauto. unfold auto_marked_rows. rewrite filter_none; [done|].
    apply Forall_forall. intros [k j] Hin.
    destruct (Hentry _ Hin) as (r0 & Hr0 & Hk0 & Hwhy). simpl in *.
    unfold auto_marked, completed_at. simpl. rewrite Hr0.
    destruct Hwhy as [Hin'%kset_mem_elem_of|Hc].
    + by rewrite Hin'.
    + rewrite Hc. by rewrite andb_false_r.
  - (* updated *)
    intros Hscalar.
    destruct (tracked_loop_added _ _ _ _ Htracked) as (_ & _ & Hu).
    rewrite Hu.
    rewrite (upcoming_loop_updated uuid4 _ _ keys (merge_init rows) _ Hok Hkeys Hnd Hloop).
    simpl. rewrite filter_none; [done|].
    apply Forall_forall. intros ca Hca.
    destruct (Forall2_elem_of_l _ _ _ _ HU Hca) as (u & Hu' & Hkey & Hfix).
    destruct (Forall2_elem_of_l _ _ _ _ Hupkeys Hca) as (k & _ & Hk).
    assert (u ∈ rows) as Hin.
    { unfold rows. rewrite !elem_of_app. right. by left. }
    apply list_elem_of_lookup_1 in Hin as [j Hj].
    rewrite Hk in Hkey. pose proof (Hwhere _ _ _ Hj Hkey) as Hget.
    unfold changed_in. rewrite Hk. fold by_id. rewrite Hget, Hj.
    destruct (dict_get_refreshed u ca) as (H1 & H2 & H3 & _).
    rewrite Hfix in H1, H2, H3.
    unfold row_changed, get_or_none. rewrite H1, H2, H3.
    rewrite Forall_forall in Hscalar. destruct (Hscalar ca Hca) as [Ht Hc].
    rewrite (py_eq_scalar _ Ht), (py_eq_scalar _ Hc). simpl.
    by rewrite String.eqb_refl.
Qed.

End SecondPass.

Section Twice.

Variable uuid4 : nat -> string.
Variable uuid4' : nat -> string.

(** X28. A second sync that gets the same answers from Canvas changes
    nothing: when no id is twice among the upcoming entries, the merge
    of the list just written writes that same list again, and adds,
    removes and auto-completes nothing; it also updates nothing when
    the titles and course names are scalars. *)
Theorem second_sync_changes_nothing ups subm existing m keys c :
  merge uuid4 ups subm existing = Ok m ->
  upcoming_canvas_ids ups = Ok keys ->
  NoDup keys ->
  exists m',
    merge uuid4' ups subm (saved_rows m) = Ok m' /\
    saved_rows m' = saved_rows m /\
    s_added (merge_summary c m') = 0 /\
    s_removed (merge_summary c m') = 0 /\
    s_auto_completed (merge_summary c m') = 0 /\
    (Forall scalar_texts ups -> s_updated (merge_summary c m') = 0).
Proof.
  intros Hm Hkeys Hnd.
  destruct (merge_settles uuid4 _ _ _ _ _ Hm Hkeys Hnd) as (M & U & K & -> & Hset).
  destruct (settled_fixed uuid4' ups subm keys M U K Hkeys Hnd Hset)
    as (m' & Hm' & Hsaved & Ha & Hr & Hc & Hu).
  exists m'. by split_and!.
Qed.

End Twice.

(** * The further properties on concrete inputs *)

Lemma total_canvas_counts_written_rows_witness :
  exists m,
    merge uuid_n [essay] [] [row_manual] = Ok m /\
    s_total_canvas (merge_summary 1 m) = 1 /\
    length (saved_rows m) = 2.
Proof.
  eexists. split; [vm_compute; reflexivity|].
  destruct (total_canvas_counts_written_rows uuid_n [essay] [] [row_manual] _ 1
              eq_refl) as [H1 H2].
  split; [etransitivity; [exact H1 | reflexivity]
         | etransitivity; [exact H2 | reflexivity]].
Defined.

Lemma tracked_row_written_iff_witness :
  exists m,
    merge uuid_n [] [] [row_essay] = Ok m /\
    upcoming_canvas_ids [] = Ok [] /\
    [row_essay] !! 0 = Some row_essay /\
    row_key row_essay = Some (KInt 5) /\
    (Ref 0 ∉ new_canvas_rows (m_state m)) /\
    s_removed (merge_summary 0 m) = 1 /\
    0 ∈ dropped_rows [] [] [row_essay] (m_by_canvas_id m).
Proof.
  eexists. split; [vm_compute; reflexivity|].
  assert (forall j r', 0 < j -> [row_essay] !! j = Some r' ->
            row_key r' <> Some (KInt 5)) as Hlast.
  { intros [|j] r' Hj Hr'; [lia | done]. }
  assert (~ (KInt 5 ∈ @nil key \/ KInt 5 ∈ @nil key \/
             truthy (get_or_none "completed" row_essay) = true)) as Hnot.
  { intros [H|[H|H]]; [by apply elem_of_nil in H | by apply elem_of_nil in H | done]. }
  destruct (tracked_row_written_iff uuid_n [] [] [row_essay] _ [] 0 row_essay
              (KInt 5) 0 eq_refl eq_refl eq_refl eq_refl Hlast)
    as (Hiff & Hrem & _ & Hgone).
  split; [reflexivity|]. split; [reflexivity|]. split; [reflexivity|].
  split; [intros H; apply Hnot; by apply Hiff|].
  split; [etransitivity; [exact Hrem | reflexivity]|].
  by apply Hgone.
Defined.

Lemma completed_row_kept_unchanged_witness :
  exists m,
    merge uuid_n [] [] [row_done] = Ok m /\
    upcoming_canvas_ids [] = Ok [] /\
    [row_done] !! 0 = Some row_done /\
    row_key row_done = Some (KInt 5) /\
    truthy (get_or_none "completed" row_done) = true /\
    heap (m_state m) !! 0 = Some row_done /\
    row_done ∈ saved_rows m.
Proof.
  eexists. split; [vm_compute; reflexivity|].
  assert (forall j r', 0 < j -> [row_done] !! j = Some r' ->
            row_key r' <> Some (KInt 5)) as Hlast.
  { intros [|j] r' Hj Hr'; [lia | done]. }
  destruct (completed_row_kept_unchanged uuid_n [] [] [row_done] _ [] 0 row_done
              (KInt 5) eq_refl eq_refl eq_refl eq_refl Hlast
              (not_elem_of_nil _) eq_refl)
    as (_ & Hheap & Hsaved).
  split; [reflexivity|]. split; [reflexivity|]. split; [reflexivity|].
  split; [reflexivity|]. split; [exact Hheap | exact Hsaved].
Defined.

Lemma earlier_duplicate_is_dropped_witness :
  exists m,
    merge uuid_n [essay] [] [row_essay; row_done] = Ok m /\
    [row_essay; row_done] !! 0 = Some row_essay /\
    [row_essay; row_done] !! 1 = Some row_done /\
    row_key row_essay = Some (KInt 5) /\
    row_key row_done = Some (KInt 5) /\
    (Ref 0 ∉ (Ref <$> m_manual m) ++ new_canvas_rows (m_state m)) /\
    0 ∉ (m_by_canvas_id m).*2.
Proof.
  eexists. split; [vm_compute; reflexivity|].
  destruct (earlier_duplicate_is_dropped uuid_n [essay] [] [row_essay; row_done] _
              0 1 row_essay row_done (KInt 5) eq_refl eq_refl eq_refl)
    as (Hnot & Hidx); [lia | reflexivity | reflexivity |].
  split; [reflexivity|]. split; [reflexivity|]. split; [reflexivity|].
  split; [reflexivity|]. split; [exact Hnot | exact Hidx].
Defined.

Lemma added_counts_untracked_entries_witness :
  exists m,
    merge uuid_n [essay; essay] [] [row_manual] = Ok m /\
    s_added (merge_summary 1 m) = 2 /\
    omap created_id (new_canvas_rows (m_state m)) = [VStr "uuid-0"; VStr "uuid-1"].
Proof.
  eexists. split; [vm_compute; reflexivity|].
  destruct (added_counts_untracked_entries uuid_n [essay; essay] [] [row_manual] _ 1
              eq_refl) as [H1 H2].
  split; [etransitivity; [exact H1 | reflexivity]
         | etransitivity; [exact H2 | reflexivity]].
Defined.

Lemma untracked_upcoming_gets_fresh_row_witness :
  exists m,
    merge uuid_n [essay] [] [row_manual] = Ok m /\
    essay ∈ [essay] /\
    is_new [row_manual] essay = true /\
    exists j r, j < 1 /\ r = new_row (uuid_n j) essay /\ r ∈ saved_rows m.
Proof.
  eexists. split; [vm_compute; reflexivity|].
  split; [apply list_elem_of_here|]. split; [reflexivity|].
  destruct (untracked_upcoming_gets_fresh_row uuid_n [essay] [] [row_manual] _ essay 1
              eq_refl (list_elem_of_here _ _) eq_refl)
    as (j & r & Hj & Hr & Hin & _).
  exists j, r. split_and!; [exact Hj | exact Hr | exact Hin].
Defined.

Lemma written_ids_upcoming_then_kept_witness :
  exists m,
    merge uuid_n [essay] [] [row_essay; row_manual] = Ok m /\
    upcoming_canvas_ids [essay] = Ok [KInt 5] /\
    omap row_key (saved_rows m) = [KInt 5] /\
    NoDup (omap row_key (saved_rows m)).
Proof.
  eexists. split; [vm_compute; reflexivity|]. split; [reflexivity|].
  destruct (written_ids_upcoming_then_kept uuid_n [essay] [] [row_essay; row_manual]
              _ [KInt 5] eq_refl eq_refl) as [Hids Hnd].
  split; [etransitivity; [exact Hids | reflexivity]|].
  apply Hnd. apply NoDup_singleton.
Defined.

Lemma updated_counts_changed_rows_witness :
  exists m,
    merge uuid_n [essay_moved] [] [row_essay] = Ok m /\
    upcoming_canvas_ids [essay_moved] = Ok [KInt 5] /\
    NoDup [KInt 5] /\
    s_updated (merge_summary 1 m) = 1.
Proof.
  eexists. split; [vm_compute; reflexivity|]. split; [reflexivity|].
  split; [apply NoDup_singleton|].
  etransitivity;
    [exact (updated_counts_changed_rows uuid_n [essay_moved] [] [row_essay] _
              [KInt 5] 1 eq_refl eq_refl (NoDup_singleton _))
    | reflexivity].
Defined.

Lemma fetched_entries_are_not_past_witness :
  fetch world_two_courses =
    Ok ([(KInt 1, (VInt 1, VStr "ENG101")); (KInt 2, (VInt 2, VStr "MATH200"))],
        [essay], []) /\
  Forall (not_past world_two_courses) [essay].
Proof.
  split; [vm_compute; reflexivity|].
  exact (fetched_entries_are_not_past world_two_courses _ _ _ eq_refl).
Defined.

Lemma runtime_error_only_from_course_list_witness :
  sync uuid_n world_unreachable (Doc [row_manual]) =
    (Raise (RuntimeError "Could not reach Canvas"), Doc [row_manual]) /\
  exists url token,
    load_config world_unreachable = Ok (url, token) /\
    get_all world_unreachable url token courses_path =
      Raise (RuntimeError "Could not reach Canvas").
Proof.
  split; [vm_compute; reflexivity|].
  destruct (runtime_error_only_from_course_list uuid_n world_unreachable
              (Doc [row_manual]) "Could not reach Canvas" _ eq_refl)
    as [_ [H|H]]; [discriminate H | exact H].
Defined.

Lemma one_reminder_per_row_per_run_witness :
  exists f rows',
    run_checks (calendar_on "2026-03-07") true (Doc [row_manual; row_essay]) =
      (f, Ok tt, Doc rows') /\
    NoDup (f_index <$> f) /\
    Forall (fun e => f_index e < 2) f.
Proof.
  eexists _, _. split; [vm_compute; reflexivity|].
  exact (one_reminder_per_row_per_run (calendar_on "2026-03-07") true
           (Doc [row_manual; row_essay]) _ _ _ eq_refl).
Defined.

Lemma file_changes_only_with_a_reminder_witness :
  exists f store',
    run_checks (calendar_on "2026-03-07") false (Doc [row_manual; row_essay]) =
      (f, Ok tt, store') /\
    store' = Doc [row_manual; row_essay].
Proof.
  eexists _, _. split; [vm_compute; reflexivity|].
  destruct (file_changes_only_with_a_reminder (calendar_on "2026-03-07") false
              (Doc [row_manual; row_essay]) _ _ _ eq_refl)
    as [H|(_ & H & _)]; [exact H | discriminate H].
Defined.

Lemma malformed_rows_are_skipped_witness :
  [row_undated; row_essay] !! 0 = Some row_undated /\
  days_until (calendar_on "2026-03-07") row_undated = None /\
  exists f res rows',
    run_checks (calendar_on "2026-03-07") true (Doc [row_undated; row_essay])
      = (f, res, Doc rows') /\
    (forall e, e ∈ f -> f_index e ≠ 0) /\
    rows' !! 0 = Some row_undated.
Proof.
  split; [reflexivity|]. split; [reflexivity|].
  assert (forall v, dict_get "due_date" row_undated = Some v ->
            exists s, v = VStr s) as Hstr by (intros v [=]).
  destruct (malformed_rows_are_skipped (calendar_on "2026-03-07") true
              [row_undated; row_essay] 0 row_undated _ _ _
              eq_refl eq_refl Hstr eq_refl)
    as (Hnone & rows' & Hstore & Hrow).
  eexists _, _, rows'. split_and!; [|exact Hnone | exact Hrow].
  rewrite <- Hstore. reflexivity.
Defined.

Lemma untyped_due_date_aborts_run_witness :
  dict_get "due_date" row_null_date = Some VNone /\
  exists e,
    run_checks (calendar_on "2026-03-07") true (Doc [row_essay; row_null_date]) =
      ([e], Raise TypeError, Doc [row_essay; row_null_date]) /\
    run_checks_n (calendar_on "2026-03-07") 3 (Doc [row_essay; row_null_date]) =
      ([e; e; e], Doc [row_essay; row_null_date]).
Proof.
  split; [reflexivity|].
  assert (forall s, VNone <> VStr s) as Hns by discriminate.
  pose proof (untyped_due_date_aborts_run (calendar_on "2026-03-07")
                [row_essay] row_null_date [] VNone true eq_refl Hns) as H.
  cbv zeta in H.
  destruct (run_checks (calendar_on "2026-03-07") true (Doc [row_essay]))
    as [[f [u|x]] s0] eqn:E; [|vm_compute in E; discriminate E].
  destruct H as [Hrun Hn].
  vm_compute in E. injection E as <- _ _.
  eexists. split.
  - exact Hrun.
  - exact (Hn 3).
Defined.

Lemma next_url_reads_the_next_link_witness :
  substring_in rel_next link_page2 = false /\
  next_url link_page2 = None /\
  substring_in rel_next (link_to page1_url "current" ++ ",") = false /\
  strip_by (in_chars "<>") page2_url = page2_url /\
  next_url link_page1 = Some page2_url.
Proof.
  destruct (next_url_reads_the_next_link link_page2
              (link_to page1_url "current" ++ ",") page2_url "")
    as [Hnone Hnext].
  split; [vm_compute; reflexivity|].
  split; [apply Hnone; vm_compute; reflexivity|].
  split; [vm_compute; reflexivity|]. split; [vm_compute; reflexivity|].
  assert (forall c : ascii, (c = "," \/ c = ";")%char ->
            ~ In c (list_ascii_of_string page2_url)) as Hno.
  { intros c Hc H. simpl in H.
    repeat (destruct H as [H|H]; [destruct Hc as [-> | ->]; discriminate H|]).
    exact H. }
  etransitivity; [|apply Hnext].
  - vm_compute. reflexivity.
  - vm_compute. reflexivity.
  - right. by exists (link_to page1_url "current").
  - by left.
  - apply Hno. by left.
  - apply Hno. by right.
  - vm_compute. reflexivity.
Defined.

Lemma load_config_strips_trailing_slashes_witness :
  _load_config config_file = Ok ("https://canvas.test", VStr "secret") /\
  forall v, "https://canvas.test" <> (v ++ "/")%string.
Proof.
  split; [vm_compute; reflexivity|].
  destruct (load_config_strips_trailing_slashes config_file
              "https://canvas.test" (VStr "secret") eq_refl)
    as (_ & _ & _ & _ & _ & _ & _ & _ & H).
  exact H.
Defined.

Lemma get_all_returns_every_page_witness :
  follows (urlopen_pages (Page (Some (VList [course_math])) link_page2)) "secret"
    0 (Some page1_url)
    [(VList [course_eng], link_page1); (VList [course_math], link_page2)] None /\
  _get_all (urlopen_pages (Page (Some (VList [course_math])) link_page2))
    "https://canvas.test" "secret" 5 "/api/v1/courses?per_page=50" =
    Some (Ok [course_eng; course_math]).
Proof.
  assert (follows (urlopen_pages (Page (Some (VList [course_math])) link_page2))
            "secret" 0 (Some page1_url)
            [(VList [course_eng], link_page1); (VList [course_math], link_page2)]
            None) as Hpages.
  { exists page1_url. split_and!; [reflexivity | reflexivity |].
    exists page2_url. split_and!; [reflexivity | reflexivity |].
    vm_compute. reflexivity. }
  split; [exact Hpages|].
  etransitivity;
    [exact (get_all_returns_every_page _ "https://canvas.test" "secret"
              "/api/v1/courses?per_page=50" _ None 5 Hpages eq_refl
              (le_S _ _ (le_S _ _ (le_S _ _ (le_n 2)))))
    | reflexivity].
Defined.

Lemma get_all_error_discards_pages_witness :
  follows (urlopen_pages (HTTPError 401 "Unauthorized")) "secret"
    0 (Some page1_url) [(VList [course_eng], link_page1)] (Some page2_url) /\
  _get_all (urlopen_pages (HTTPError 401 "Unauthorized"))
    "https://canvas.test" "secret" 5 "/api/v1/courses?per_page=50" =
    Some (Raise (RuntimeError
      "Canvas API token is invalid or expired. Update the token in canvas_config.json.")).
Proof.
  assert (follows (urlopen_pages (HTTPError 401 "Unauthorized")) "secret"
            0 (Some page1_url) [(VList [course_eng], link_page1)] (Some page2_url))
    as Hpages.
  { exists page1_url. split_and!; [reflexivity | reflexivity |].
    vm_compute. reflexivity. }
  split; [exact Hpages|].
  assert (page2_url <> ""%string) as Hne by discriminate.
  destruct (get_all_error_discards_pages _ "https://canvas.test" "secret"
              "/api/v1/courses?per_page=50" _ page2_url 5 Hpages Hne
              (le_S _ _ (le_S _ _ (le_S _ _ (le_n 2)))))
    as (Hhttp & _).
  destruct (Hhttp 401%Z "Unauthorized" eq_refl) as [H _].
  etransitivity; [exact H | reflexivity].
Defined.

Lemma get_all_follows_a_cycle_forever_witness :
  next_url (link_to page1_url "next") = Some page1_url /\
  _get_all urlopen_cycle "https://canvas.test" "secret" 1000
    "/api/v1/courses?per_page=50" = None.
Proof.
  split; [vm_compute; reflexivity|].
  assert (page1_url <> ""%string) as Hne by discriminate.
  exact (get_all_follows_a_cycle_forever urlopen_cycle "https://canvas.test"
           "secret" "/api/v1/courses?per_page=50" (VList [course_eng])
           (link_to page1_url "next") page1_url eq_refl Hne
           (fun n => eq_refl) eq_refl 1000).
Defined.

Lemma posted_row_is_kept_by_sync_witness :
  exists a,
    post_assignment str_of_scalar "m-9" (Some post_body) (Doc [row_essay; row_manual]) =
      (200%Z, Doc [row_essay; row_manual; a]) /\
    is_manual a = true /\
    forall m,
      merge uuid_n [essay] [] [row_essay; row_manual; a] = Ok m ->
      exists canvas_rows, saved_rows m = row_manual :: a :: canvas_rows.
Proof.
  eexists. split; [vm_compute; reflexivity|].
  destruct (posted_row_is_kept_by_sync str_of_scalar "m-9" (Some post_body)
              (Doc [row_essay; row_manual]) _ _ eq_refl)
    as [[H _]|(_ & data & a & Hbody & Ha & _ & Hman & _ & Hsync)]; [discriminate H|].
  injection Hbody as <-. vm_compute in Ha. injection Ha as <-.
  split; [exact Hman|].
  intros m Hm. destruct (Hsync uuid_n [essay] [] m Hm) as (canvas_rows & Hsaved & _).
  exists canvas_rows. exact Hsaved.
Defined.

Lemma patch_changes_only_completed_witness :
  patch_rows "m-1" patch_body [row_essay; row_manual] =
    Ok [row_essay; dict_set "completed" (VBool false) row_manual] /\
  forall k, k <> "completed" ->
    dict_get k (dict_set "completed" (VBool false) row_manual) = dict_get k row_manual.
Proof.
  split; [vm_compute; reflexivity|].
  destruct (patch_changes_only_completed "m-1" patch_body [row_essay; row_manual]
              _ eq_refl) as [_ Hrows].
  destruct (Hrows 1 row_manual eq_refl) as (a' & Ha' & Hfields & _).
  injection Ha' as <-. exact Hfields.
Defined.

Lemma deleted_upcoming_row_comes_back_witness :
  delete_assignment "uuid-0" (Doc [row_essay; row_manual]) =
    (Ok 200%Z, Doc [row_manual]) /\
  exists m,
    merge uuid_n [essay] [] [row_manual] = Ok m /\
    exists j, new_row (uuid_n j) essay ∈ saved_rows m.
Proof.
  split; [vm_compute; reflexivity|].
  eexists. split; [vm_compute; reflexivity|].
  assert (forall r, r ∈ [row_essay; row_manual] -> row_key r = Some (KInt 5) ->
            has_id "uuid-0" r = true) as Hall.
  { intros r [->|[->|H]%elem_of_cons]%elem_of_cons Hk;
      [reflexivity | discriminate Hk | by apply elem_of_nil in H]. }
  destruct (deleted_upcoming_row_comes_back uuid_n "uuid-0"
              (Doc [row_essay; row_manual]) _ [essay] [] _ essay (KInt 5)
              eq_refl Hall (list_elem_of_here _ _) eq_refl eq_refl)
    as (j & r & -> & Hin & _).
  exists j. exact Hin.
Defined.

Lemma done_set_is_submitted_or_graded_witness :
  fetch world_submitted = Ok ([(KInt 1, (VInt 1, VStr "ENG101"))], [], [KInt 5]) /\
  exists url token,
    load_config world_submitted = Ok (url, token) /\
    done_on_canvas world_submitted url token
      [(KInt 1, (VInt 1, VStr "ENG101"))] (KInt 5).
Proof.
  split; [vm_compute; reflexivity|].
  destruct (done_set_is_submitted_or_graded world_submitted _ _ _ eq_refl)
    as (url & token & Hcfg & Hiff).
  exists url, token. split; [exact Hcfg|].
  apply Hiff. apply list_elem_of_here.
Defined.

Lemma course_names_are_never_empty_witness :
  fetch world_two_courses =
    Ok ([(KInt 1, (VInt 1, VStr "ENG101")); (KInt 2, (VInt 2, VStr "MATH200"))],
        [essay], []) /\
  Forall (fun ca => truthy (u_course ca) = true) [essay].
Proof.
  split; [vm_compute; reflexivity|].
  destruct (course_names_are_never_empty world_two_courses _ _ _ eq_refl)
    as (url & token & raw & _ & _ & _ & Hups).
  eapply Forall_impl; [exact Hups|]. simpl. intros ca [H _]. exact H.
Defined.

Lemma second_sync_changes_nothing_witness :
  exists m m',
    merge uuid_n [essay_moved] [] [row_manual; row_essay; row_done] = Ok m /\
    upcoming_canvas_ids [essay_moved] = Ok [KInt 5] /\
    NoDup [KInt 5] /\
    merge (fun n => uuid_n (S n)) [essay_moved] [] (saved_rows m) = Ok m' /\
    saved_rows m' = saved_rows m /\
    s_added (merge_summary 1 m') = 0 /\
    s_updated (merge_summary 1 m') = 0.
Proof.
  eexists. 
  destruct (second_sync_changes_nothing uuid_n (fun n => uuid_n (S n))
              [essay_moved] [] [row_manual; row_essay; row_done] _ [KInt 5] 1
              ltac:(vm_compute; reflexivity) eq_refl (NoDup_singleton _))
    as (m' & Hm' & Hsaved & Ha & _ & _ & Hu).
  exists m'. split; [reflexivity|]. split; [reflexivity|].
  split; [apply NoDup_singleton|]. split; [exact Hm'|]. split; [exact Hsaved|].
  split; [exact Ha|]. apply Hu.
  apply Forall_cons_2; [|apply Forall_nil_2].
  split; by eexists.
Defined.

Lemma reached_row_gets_its_due_reminder_witness :
  [row_manual; row_essay] !! 1 = Some row_essay /\
  days_until (calendar_on "2026-03-07") row_essay = Some 3%Z /\
  sent_of row_essay = VList [] /\
  run_checks (calendar_on "2026-03-07") true (Doc [row_manual]) =
    ([], Ok tt, Doc [row_manual]) /\
  deliver (calendar_on "2026-03-07")
    (reminder (calendar_on "2026-03-07") 1 row_essay 3 "3_days") = Ok tt /\
  exists f rows',
    run_checks (calendar_on "2026-03-07") true (Doc [row_manual; row_essay]) =
      (f, Ok tt, Doc rows') /\
    filter (fun e => f_index e = 1) f =
      [reminder (calendar_on "2026-03-07") 1 row_essay 3 "3_days"] /\
    rows' !! 1 =
      Some (dict_set "notifications_sent" (VList [VStr "3_days"]) row_essay).
Proof.
  split; [reflexivity|]. split; [reflexivity|]. split; [reflexivity|].
  split; [reflexivity|]. split; [reflexivity|].
  eexists _, _. split; [vm_compute; reflexivity|].
  assert (0 <= 3)%Z as Hpos by lia.
  destruct (reached_row_gets_its_due_reminder (calendar_on "2026-03-07") true
              [row_manual; row_essay] 1 row_essay 3%Z [] [] (Doc [row_manual])
              _ _ _ eq_refl eq_refl Hpos eq_refl eq_refl eq_refl)
    as (Hmine & _ & _ & Hcall & _).
  specialize (Hcall "3_days" (list_elem_of_here _ _)).
  destruct Hcall as [_ Hwritten].
  destruct (Hwritten eq_refl eq_refl) as (rows' & Hstore & Hrow).
  injection Hstore as <-.
  split; [exact Hmine | exact Hrow].
Defined.

Lemma clean_run_is_not_repeated_witness :
  exists e rows',
    run_checks (calendar_on "2026-03-07") true (Doc [row_manual; row_essay]) =
      ([e], Ok tt, Doc rows') /\
    run_checks (calendar_on "2026-03-07") true (Doc rows') = ([], Ok tt, Doc rows') /\
    run_checks_n (calendar_on "2026-03-07") 4 (Doc [row_manual; row_essay]) =
      ([e], Doc rows') /\
    deliver (calendar_on "2026-03-07") e = Ok tt.
Proof.
  eexists _, _. split; [vm_compute; reflexivity|].
  destruct (clean_run_is_not_repeated (calendar_on "2026-03-07")
              (Doc [row_manual; row_essay]) _ _ eq_refl)
    as (Hfix & Hn & _ & Hcalls).
  split; [exact Hfix|]. split; [exact (Hn 3)|].
  apply Hcalls. apply list_elem_of_here.
Defined.
